(** * Metro-rail ticketing backend: trip lifecycle, balance ledger, fare lookup

    A shallow embedding of the Mongoose models ([Fare], [User], [Trip]) and of
    the Express route handlers that issue, redeem and complete trips, credit a
    balance and look a fare up, followed by the properties of the
    specification checked against them.

    Conventions of the embedding:
    - a JavaScript [Number] is a double: a finite one is given by the
      rational it stands for ([Qc]), with the two infinities beside;
      [undefined] and [NaN] are the [None] of [option Number], and [-0] is
      not told apart from [0]. Sums, differences and products are rounded
      to the nearest double ([round64]), ties to even, and overflow to an
      infinity;
    - a value of a request body that the handler keeps as it was sent is a
      number or a text ([Json]);
    - a [Date] is its millisecond time stamp ([Z]); every [new Date()] is a
      separate reading of the clock;
    - an [ObjectId] is the 96-bit number it holds ([N]); a collection is a
      finite map from [_id] to the stored document;
    - a handler is a program of atomic steps (one per database call or clock
      reading), so that the same definition is run alone or interleaved with
      another request.

    Left out, as nothing here depends on them: the [createdAt] and
    [updatedAt] time stamps, the population of station references (it only
    decorates responses), and authentication (a handler takes [req.user.id]
    as the [protect] middleware left it). *)

From Stdlib Require Import QArith Qcanon Floats.
From stdpp Require Import gmap strings list fin_maps numbers pretty.
Close Scope Q_scope.
Set Warnings "-inexact-float".

(* ===================================================================== *)
(** * JavaScript numbers and dates *)
(* ===================================================================== *)

Module Js.

(** A Number other than [NaN]: a finite double, given by its value, or an
    infinity. *)
Inductive Number := Finite (q : Qc) | Infinity (negative : bool).

Global Instance Number_eq_dec : EqDecision Number.
Proof. solve_decision. Defined.

Definition Date := Z.

Definition num (n : Z) : Number := Finite (Q2Qc (inject_Z n)).

(** ** Rounding to binary64 *)

(** [ilog2 n d]: the integer [k] with [2^k <= n/d < 2^(k+1)]. *)
Definition ilog2 (n d : positive) : Z :=
  let k := (Z.log2 (Zpos n) - Z.log2 (Zpos d))%Z in
  if (Zpos n * 2 ^ Z.max 0 (- k) <? Zpos d * 2 ^ Z.max 0 k)%Z then (k - 1)%Z else k.

(** [rne a b]: the integer nearest to [a/b], the even one of two. *)
Definition rne (a b : Z) : Z :=
  let q := (a / b)%Z in
  match (2 * (a `mod` b) ?= b)%Z with
  | Lt => q
  | Gt => (q + 1)%Z
  | Eq => if Z.even q then q else (q + 1)%Z
  end.

(** [m * 2^e] *)
Definition scaled (m e : Z) : Qc :=
  if bool_decide (0 ≤ e)%Z then Q2Qc (inject_Z (m * 2 ^ e))
  else Q2Qc (Qred (Qmake m (Z.to_pos (2 ^ (- e))))).

(** The double nearest to [n/d] (ties to the even significand): 53 bits of
    significand, exponents from -1022 (below, the spacing stays [2^-1074])
    to 1023 (above, the result is an infinity). *)
Definition round_pos (negative : bool) (n d : positive) : Number :=
  let e := (Z.max (ilog2 n d) (-1022) - 52)%Z in
  let m := rne (Zpos n * 2 ^ Z.max 0 (- e)) (Zpos d * 2 ^ Z.max 0 e) in
  if bool_decide (0 ≤ e)%Z && bool_decide (2 ^ 1024 ≤ m * 2 ^ e)%Z then Infinity negative
  else Finite (scaled (if negative then - m else m)%Z e).

Definition round64 (q : Qc) : Number :=
  match Qnum q with
  | Z0 => Finite (Q2Qc 0)
  | Zpos n => round_pos false n (Qden q)
  | Zneg n => round_pos true n (Qden q)
  end.

(** ** Comparison and arithmetic *)

Definition ltb (a b : Number) : bool :=
  match a, b with
  | Finite x, Finite y => bool_decide (x < y)%Qc
  | Finite _, Infinity negative => negb negative
  | Infinity negative, Finite _ => negative
  | Infinity n1, Infinity n2 => n1 && negb n2
  end.

(** [Number.isFinite] *)
Definition isFinite (a : Number) : bool :=
  match a with
  | Finite _ => true
  | Infinity _ => false
  end.

Definition opp (a : Number) : Number :=
  match a with
  | Finite q => Finite (- q)%Qc
  | Infinity negative => Infinity (negb negative)
  end.

Definition plus (a b : Number) : option Number :=
  match a, b with
  | Finite x, Finite y => Some (round64 (x + y)%Qc)
  | Finite _, Infinity s | Infinity s, Finite _ => Some (Infinity s)
  | Infinity s, Infinity t => if bool_decide (s = t) then Some (Infinity s) else None
  end.

Definition times (a b : Number) : option Number :=
  let negative (q : Qc) := bool_decide (q < 0)%Qc in
  let by_infinity (s : bool) (q : Qc) :=
    if bool_decide (q = 0%Qc) then None else Some (Infinity (xorb s (negative q))) in
  match a, b with
  | Finite x, Finite y => Some (round64 (x * y)%Qc)
  | Finite x, Infinity s | Infinity s, Finite x => by_infinity s x
  | Infinity s, Infinity t => Some (Infinity (xorb s t))
  end.

(** [x < y]: false as soon as an operand is [undefined] or [NaN]. *)
Definition lt (x y : option Number) : bool :=
  match x, y with
  | Some a, Some b => ltb a b
  | _, _ => false
  end.

Definition add (x y : option Number) : option Number :=
  match x, y with Some a, Some b => plus a b | _, _ => None end.

Definition sub (x y : option Number) : option Number :=
  match x, y with Some a, Some b => plus a (opp b) | _, _ => None end.

Definition mul (x y : option Number) : option Number :=
  match x, y with Some a, Some b => times a b | _, _ => None end.

(** ** The doubles of the kernel

    [round64] is set against the binary64 arithmetic of the kernel on
    samples: [binary64_agrees opf op a b] says that the kernel's [opf a b]
    is the double that [op] on the values of [a] and [b], rounded, gives. *)

Definition of_float (f : float) : option Number :=
  match Prim2SF f with
  | S754_zero _ => Some (Finite (Q2Qc 0))
  | S754_infinity negative => Some (Infinity negative)
  | S754_nan => None
  | S754_finite negative m e =>
      Some (Finite (scaled (if negative then Zneg m else Zpos m) e))
  end.

Definition binary64_agrees (opf : float → float → float)
    (op : option Number → option Number → option Number) (a b : float) : bool :=
  bool_decide (of_float (opf a b) = op (of_float a) (of_float b)).

Definition binary64_samples : list (float * float) :=
  [(0.7, 3); (100, 33.33); (133.32999999999998, 33.33); (1e308, 1e308);
   (1e-320, 1e-5); (0.1, 0.2); (1.7976931348623157e308, 9.9e291);
   (1.7976931348623157e308, 9.98e291); (4.9e-324, 0.5); (4.9e-324, 0.75);
   (2.2250738585072014e-308, 0.5); (9007199254740992, 1);
   (9007199254740993, 3); (1e21, 1e5); (123456.789, 0.001); (1e-200, 1e-200);
   (3, 1e-17); (0.3, 0.1); (1.1, 3); (3.3, 1.1); (5e-324, 5e-324);
   (1.5, 2.2250738585072014e-308); (2.1, 0.7); (60, 100); (30, 2)]%float.

(** ** White space *)

(** The code points of [\s] (WhiteSpace and LineTerminator), in UTF-8. *)
Definition white_space : list string :=
  (λ bytes : list N, String.string_of_list_ascii (Ascii.ascii_of_N <$> bytes))
  <$> [[9]; [10]; [11]; [12]; [13]; [32];
       [194; 160];                                         (* U+00A0 *)
       [225; 154; 128];                                    (* U+1680 *)
       [226; 128; 128]; [226; 128; 129]; [226; 128; 130]; [226; 128; 131];
       [226; 128; 132]; [226; 128; 133]; [226; 128; 134]; [226; 128; 135];
       [226; 128; 136]; [226; 128; 137]; [226; 128; 138];  (* U+2000 - U+200A *)
       [226; 128; 168]; [226; 128; 169];                   (* U+2028, U+2029 *)
       [226; 128; 175];                                    (* U+202F *)
       [226; 129; 159];                                    (* U+205F *)
       [227; 128; 128];                                    (* U+3000 *)
       [239; 187; 191]]%N.                                 (* U+FEFF *)

Fixpoint strip_prefix (p s : string) : option string :=
  match p, s with
  | EmptyString, _ => Some s
  | String a p, String b s => if bool_decide (a = b) then strip_prefix p s else None
  | _, _ => None
  end.

(** [s] without one white-space code point at its start, if there is one. *)
Definition skip_space (s : string) : option string :=
  head (omap (λ p, strip_prefix p s) white_space).

Fixpoint skip_spaces (fuel : nat) (s : string) : string :=
  match fuel with
  | O => s
  | S fuel => match skip_space s with Some r => skip_spaces fuel r | None => s end
  end.

(** The same at the end of [s], read backwards. *)
Definition skip_space_back (s : string) : option string :=
  head (omap (λ p, strip_prefix (String.rev p) s) white_space).

Fixpoint skip_spaces_back (fuel : nat) (s : string) : string :=
  match fuel with
  | O => s
  | S fuel =>
      match skip_space_back s with Some r => skip_spaces_back fuel r | None => s end
  end.

(** [s.replace(/^\s+/, '')], and the loop over [/\s/.test(s.charAt(i))]
    from the end. *)
Definition ltrim (s : string) : string := skip_spaces (String.length s) s.
Definition rtrim (s : string) : string :=
  String.rev (skip_spaces_back (String.length s) (String.rev s)).
Definition trim (s : string) : string := rtrim (ltrim s).

(** ** Number to text and back *)

Definition digit (c : Ascii.ascii) : option Z :=
  let n := Ascii.N_of_ascii c in
  if bool_decide (48 ≤ n ≤ 57)%N then Some (Z.of_N n - 48)%Z else None.

(** The digits at the start of [s]: their value after [acc], their number
    after [count], and the rest of [s]. *)
Fixpoint digits (s : string) (acc count : Z) : Z * Z * string :=
  match s with
  | String c r =>
      match digit c with
      | Some d => digits r (10 * acc + d)%Z (count + 1)%Z
      | None => (acc, count, s)
      end
  | EmptyString => (acc, count, s)
  end.

(** [m * 10^e] as a Number. Beyond the range of the doubles the powers are
    not computed: the result is an infinity or zero whatever the digits. *)
Definition decimal (negative : bool) (m count e : Z) : Number :=
  if bool_decide (m = 0)%Z then Finite (Q2Qc 0)
  else if bool_decide (310 ≤ e)%Z then Infinity negative
  else if bool_decide (e + count ≤ -330)%Z then Finite (Q2Qc 0)
  else
    let m := (if negative then - m else m)%Z in
    round64 (if bool_decide (0 ≤ e)%Z then Q2Qc (inject_Z (m * 10 ^ e))
             else Q2Qc (Qmake m (Z.to_pos (10 ^ (- e))))).

(** [s] without its first character, when that is one of [chars]. *)
Definition after (chars : string) (s : string) : option string :=
  match s with
  | String c r => if bool_decide (c ∈ String.list_ascii_of_string chars) then Some r else None
  | EmptyString => None
  end.

Definition sign_of (s : string) : bool * string :=
  match after "-" s, after "+" s with
  | Some r, _ => (true, r)
  | _, Some r => (false, r)
  | _, _ => (false, s)
  end.

(** The exponent part at the start of [s], if any: [None] when an [e] is
    there without digits. *)
Definition exponent (s : string) : option (Z * string) :=
  match after "eE" s with
  | Some r =>
      let '(negative, r) := sign_of r in
      let '(e, count, r) := digits r 0 0 in
      if bool_decide (count = 0)%Z then None
      else Some ((if negative then - e else e)%Z, r)
  | None => Some (0%Z, s)
  end.

(** StrDecimalLiteral without its sign, up to the end of [s]. *)
Definition unsigned_decimal (negative : bool) (s : string) : option Number :=
  if bool_decide (s = "Infinity") then Some (Infinity negative)
  else
    let '(i, ci, r) := digits s 0 0 in
    let '(m, cf, r) :=
      match after "." r with
      | Some r => digits r i 0
      | None => (i, 0%Z, r)
      end in
    if bool_decide (ci + cf = 0)%Z then None
    else
      match exponent r with
      | Some (e, EmptyString) => Some (decimal negative m (ci + cf) (e - cf))
      | _ => None
      end.

(** The digits of a literal in base 2, 8 or 16. *)
Definition digit_in (base : Z) (c : Ascii.ascii) : option Z :=
  let n := Z.of_N (Ascii.N_of_ascii c) in
  let d := if bool_decide (48 ≤ n ≤ 57)%Z then Some (n - 48)%Z
           else if bool_decide (97 ≤ n ≤ 102)%Z then Some (n - 87)%Z
           else if bool_decide (65 ≤ n ≤ 70)%Z then Some (n - 55)%Z
           else None in
  d ≫= λ d, if bool_decide (d < base)%Z then Some d else None.

Fixpoint digits_in (base : Z) (s : string) (acc : Z) : option Z :=
  match s with
  | String c r => digit_in base c ≫= λ d, digits_in base r (base * acc + d)%Z
  | EmptyString => Some acc
  end.

Definition non_decimal (s : string) : option Number :=
  r ← after "0" s;
  let literal (marks : string) (base : Z) :=
    r ← after marks r;
    if bool_decide (r = "") then None
    else n ← digits_in base r 0; Some (round64 (Q2Qc (inject_Z n))) in
  match literal "xX" 16%Z, literal "oO" 8%Z, literal "bB" 2%Z with
  | Some n, _, _ | _, Some n, _ | _, _, Some n => Some n
  | _, _, _ => None
  end.

(** [Number(s)] of a string: StringToNumber; [None] is [NaN]. *)
Definition of_string (s : string) : option Number :=
  let s := trim s in
  if bool_decide (s = "") then Some (Finite (Q2Qc 0))
  else
    match non_decimal s with
    | Some n => Some n
    | None => let '(negative, r) := sign_of s in unsigned_decimal negative r
    end.

(** The integer [p] with [10^p <= n/d < 10^(p+1)]. *)
Definition pow10_le (p : Z) (n d : positive) : bool :=
  if bool_decide (0 ≤ p)%Z then bool_decide (10 ^ p * Zpos d ≤ Zpos n)%Z
  else bool_decide (Zpos d ≤ Zpos n * 10 ^ (- p))%Z.

Definition ilog10 (n d : positive) : Z :=
  let est := (ilog2 n d * 30103 / 100000)%Z in
  if pow10_le (est + 1) n d then (est + 1)%Z
  else if pow10_le est n d then est else (est - 1)%Z.

(** The shortest digits that read back as the double [n/d]: for [k] digits,
    the two [k]-digit decimals around it are tried, the nearer first. The
    result is [(s, p)] for the decimal [s * 10^p]. *)
Fixpoint shortest (fuel : nat) (k : Z) (n d : positive) (n10 : Z) : Z * Z :=
  let p := (n10 - k)%Z in
  let a := (Zpos n * 10 ^ Z.max 0 (- p))%Z in
  let b := (Zpos d * 10 ^ Z.max 0 p)%Z in
  let lo := (a / b)%Z in
  let hi := (lo + 1)%Z in
  let reads_back (s : Z) :=
    bool_decide (round64 (if bool_decide (0 ≤ p)%Z then Q2Qc (inject_Z (s * 10 ^ p))
                          else Q2Qc (Qmake s (Z.to_pos (10 ^ (- p)))))
                 = Finite (Q2Qc (Qmake (Zpos n) d))) in
  let nearer_first :=
    match (2 * (a `mod` b) ?= b)%Z with
    | Lt => [lo; hi]
    | Gt => [hi; lo]
    | Eq => if Z.even lo then [lo; hi] else [hi; lo]
    end in
  match fuel with
  | O => (hd lo nearer_first, p)
  | S fuel =>
      match List.filter reads_back nearer_first with
      | s :: _ => (s, p)
      | [] => shortest fuel (k + 1)%Z n d n10
      end
  end.

(** [s * 10^p] with the zeros at the end of [s] moved to [p] (they appear
    when the nearer decimal is a power of ten). *)
Fixpoint without_zeros (fuel : nat) (s p : Z) : Z * Z :=
  match fuel with
  | S fuel =>
      if bool_decide (s ≠ 0 ∧ s `mod` 10 = 0)%Z then without_zeros fuel (s / 10)%Z (p + 1)%Z
      else (s, p)
  | O => (s, p)
  end.

Definition zeros (n : Z) : string := String.concat "" (replicate (Z.to_nat n) "0").

(** [Number::toString] in base 10 of a positive finite Number. *)
Definition positive_to_string (n d : positive) : string :=
  let n10 := (ilog10 n d + 1)%Z in
  let '(s, p) := shortest 16 1 n d n10 in
  let '(s, p) := without_zeros 20 s p in
  let ds := pretty (Z.to_N s) in
  let k := Z.of_nat (String.length ds) in
  let n := (p + k)%Z in
  if bool_decide (-5 ≤ n ≤ 21)%Z then
    if bool_decide (k ≤ n)%Z then ds +:+ zeros (n - k)
    else if bool_decide (0 < n)%Z then
      String.substring 0 (Z.to_nat n) ds +:+ "."
      +:+ String.substring (Z.to_nat n) (Z.to_nat (k - n)) ds
    else "0." +:+ zeros (- n) +:+ ds
  else
    let e := (if bool_decide (n < 0)%Z then "-" else "+") +:+ pretty (Z.to_N (Z.abs (n - 1))) in
    if bool_decide (k = 1)%Z then ds +:+ "e" +:+ e
    else String.substring 0 1 ds +:+ "." +:+ String.substring 1 (Z.to_nat (k - 1)) ds
         +:+ "e" +:+ e.

Definition to_string (x : Number) : string :=
  match x with
  | Infinity negative => if negative then "-Infinity" else "Infinity"
  | Finite q =>
      match Qnum q with
      | Z0 => "0"
      | Zpos n => positive_to_string n (Qden q)
      | Zneg n => "-" +:+ positive_to_string n (Qden q)
      end
  end.

(** ** Numbers of a request body *)

(** What a JSON body holds where a number is expected: a number, or a
    string (the validators of the routes work on the text of the value and
    do not convert it). *)
Inductive Json := JNumber (x : Number) | JString (s : string).

(** [x += v], as the setter of a Number path receives it: the sum of two
    numbers, or, when [v] is a string, [Number(String(x) + v)], the cast of
    the concatenation. *)
Definition add_json (x : option Number) (v : Json) : option Number :=
  match v with
  | JNumber y => add x (Some y)
  | JString s =>
      of_string ((match x with Some a => to_string a | None => "NaN" end) +:+ s)
  end.

(** The pattern of [validator.isFloat]: an optional sign, digits or none,
    optionally a point followed by digits or none, optionally [e] or [E]
    with an optional sign and at least one digit. *)
Definition float_shape (s : string) : bool :=
  let '(_, r) := sign_of s in
  let '(_, _, r) := digits r 0 0 in
  let r := match after "." r with Some r => (digits r 0 0).2 | None => r end in
  match after "eE" r with
  | Some r =>
      let '(_, r) := sign_of r in
      let '(_, count, r) := digits r 0 0 in
      bool_decide (0 < count)%Z && bool_decide (r = "")
  | None => bool_decide (r = "")
  end.

(** [isFloat({ min })] of the validation chains. The validator works on the
    text of the value. For a string: it must not be one of five exceptions,
    must have the shape above, and [parseFloat] of it (which, on a string of
    that shape, reads all of it) must not be below [min]. For a number the
    text is [String(x)]: that of a finite number has the shape and reads
    back as [x]; that of an infinity is ['Infinity'], which has not. *)
Definition isFloat (min : Number) (v : Json) : bool :=
  match v with
  | JNumber (Finite q) => negb (ltb (Finite q) min)
  | JNumber (Infinity _) => false
  | JString s =>
      negb (bool_decide (s ∈ [""; "."; ","; "-"; "+"]))
      && float_shape s
      && match of_string s with
         | Some x => negb (ltb x min)
         | None => false
         end
  end.

(** [24 * 60 * 60 * 1000] *)
Definition day_ms : Z := 24 * 60 * 60 * 1000.

End Js.

Import Js.

Definition ObjectId := N.

Bind Scope N_scope with ObjectId.
Bind Scope Z_scope with Date.

(** [a < b] and [a <= b] on Numbers ([a <= b] is: not [b < a]). *)
Definition lt_num (a b : Number) : Prop := ltb a b = true.
Definition le_num (a b : Number) : Prop := ltb b a = false.

Declare Scope number_scope.
Delimit Scope number_scope with J.
Bind Scope number_scope with Number.
Infix "<" := lt_num : number_scope.
Infix "≤" := le_num : number_scope.

(* ===================================================================== *)
(** * Hydrated documents: the state of one path *)
(* ===================================================================== *)

(** A path of a document held in memory is either absent from the projection
    the document was loaded with (it reads as [undefined]), as loaded, or
    assigned since. Assigning a value that does not cast to the schema type
    ([NaN] for a [Number]) leaves the prior value and records a cast error,
    which makes the next [save] reject. *)
Inductive Path (A : Type) : Type :=
| Unselected
| Loaded (a : A)
| Assigned (a : A)
| CastError (prior : option A).

Arguments Unselected {A}.
Arguments Loaded {A} a.
Arguments Assigned {A} a.
Arguments CastError {A} prior.

Section Path.
Context {A : Type}.

Definition read (p : Path A) : option A :=
  match p with
  | Unselected => None
  | Loaded a | Assigned a => Some a
  | CastError prior => prior
  end.

Definition assign (p : Path A) (v : option A) : Path A :=
  match v with
  | Some a => Assigned a
  | None => CastError (read p)
  end.

(** What [save] writes: the assigned paths only ([$set]). *)
Definition commit (p : Path A) (stored : A) : A :=
  match p with Assigned a => a | _ => stored end.

Definition cast_failed (p : Path A) : bool :=
  match p with CastError _ => true | _ => false end.

Definition is_assigned (p : Path A) : bool :=
  match p with Assigned _ => true | _ => false end.

(** [select fields name a]: the path [name] of a document loaded with the
    inclusive projection [fields]. *)
Definition select (fields : list string) (name : string) (a : A) : Path A :=
  if bool_decide (name ∈ fields) then Loaded a else Unselected.

End Path.

(* ===================================================================== *)
(** * Enumerations of the schemas *)
(* ===================================================================== *)

Inductive FareType := regular | peak | off_peak | student | senior.
Inductive TripStatus := created | used | expired | cancelled.
Inductive PaymentMethod := by_balance | by_cash | by_card.
Inductive PaymentStatus := pending | completed | failed.
Inductive Role := role_user | role_admin.

Global Instance FareType_eq_dec : EqDecision FareType.
Proof. solve_decision. Defined.
Global Instance TripStatus_eq_dec : EqDecision TripStatus.
Proof. solve_decision. Defined.
Global Instance PaymentMethod_eq_dec : EqDecision PaymentMethod.
Proof. solve_decision. Defined.
Global Instance PaymentStatus_eq_dec : EqDecision PaymentStatus.
Proof. solve_decision. Defined.

(* ===================================================================== *)
(** * Errors and responses *)
(* ===================================================================== *)

(** What a [throw] or a rejected promise carries. *)
Inductive Error :=
| JsError (message : string)          (* new Error(message) *)
| TypeError                           (* property access on null *)
| ValidationError (paths : list string) (* Mongoose: validators or casts failed *)
| DuplicateKey (index : string)       (* unique index violated *)
| DocumentNotFound.                   (* save of a document no longer stored *)

(** The [message] of a response: a literal of the handler or [error.message]. *)
Inductive Message :=
| Text (s : string)
| MessageOf (e : Error).

(** Response envelope of [successResponse] and [errorResponse]. *)
Record Response (D : Type) := mkResponse {
  statusCode : Z;
  success : bool;
  message : Message;
  data : option D
}.

Arguments mkResponse {D}.
Arguments statusCode {D}.
Arguments success {D}.
Arguments message {D}.
Arguments data {D}.

Definition successResponse {D} (d : D) (msg : string) (code : Z) : Response D :=
  mkResponse code true (Text msg) (Some d).

Definition errorResponse {D} (msg : Message) (code : Z) : Response D :=
  mkResponse code false msg None.

(* ===================================================================== *)
(** * Stored documents (the schemas) *)
(* ===================================================================== *)

Module Station.
Record t := mk {
  name : string;
  code : option string;
  location : option (Number * Number);
  address : string;
  zone : string;
  isActive : bool;
  facilities : list string;
  description : option string
}.
End Station.

Module Fare.
Record t := mk {
  fromStation : ObjectId;
  toStation : ObjectId;
  fare : Number;
  distance : Number;
  duration : Number;
  isActive : bool;
  fareType : FareType;
  effectiveFrom : Date;
  effectiveTo : option Date
}.
End Fare.

Module User.
Record t := mk {
  fullName : string;
  phoneNumber : string;
  password : string;
  email : string;
  photo : option string;
  balance : Number;
  totalTrips : Number;
  totalExpense : Number;
  role : Role;
  isActive : bool;
  lastLogin : option Date
}.

Definition with_ledger (b n e : Number) (u : t) : t :=
  mk (fullName u) (phoneNumber u) (password u) (email u) (photo u)
     b n e (role u) (isActive u) (lastLogin u).
End User.

Module Trip.
Record t := mk {
  tripCode : string;
  user : ObjectId;
  fromStation : ObjectId;
  toStation : ObjectId;
  fare : Number;
  numberOfPassengers : Number;
  totalAmount : Number;
  status : TripStatus;
  usedAt : option Date;
  expiresAt : Date;
  journeyStartTime : option Date;
  journeyEndTime : option Date;
  paymentMethod : PaymentMethod;
  paymentStatus : PaymentStatus;
  notes : option string
}.

Definition with_journey (s : TripStatus) (u js je : option Date) (d : t) : t :=
  mk (tripCode d) (user d) (fromStation d) (toStation d) (fare d)
     (numberOfPassengers d) (totalAmount d) s u (expiresAt d) js je
     (paymentMethod d) (paymentStatus d) (notes d).
End Trip.

(* ===================================================================== *)
(** * The document store *)
(* ===================================================================== *)

Record DB := mkDB {
  stations : gmap ObjectId Station.t;
  fares : gmap ObjectId Fare.t;
  users : gmap ObjectId User.t;
  trips : gmap ObjectId Trip.t
}.

Definition set_users (us : gmap ObjectId User.t) (db : DB) : DB :=
  mkDB (stations db) (fares db) us (trips db).

Definition set_trips (ts : gmap ObjectId Trip.t) (db : DB) : DB :=
  mkDB (stations db) (fares db) (users db) ts.

(** [Model.findOne(query)]: a stored document that satisfies the query, with
    its [_id]. The unique indexes of the schemas leave at most one candidate
    for the queries of this development; among several, the first in the
    enumeration of the map stands for the store's choice, which MongoDB
    leaves open as well. *)
Definition findOne {D : Type} (query : D → bool) (c : gmap ObjectId D)
  : option (ObjectId * D) :=
  snd <$> list_find (λ kd, Is_true (query kd.2)) (map_to_list c).

(** [Model.findById(id)] *)
Definition findById {D : Type} (id : ObjectId) (c : gmap ObjectId D) : option D :=
  c !! id.

(* ===================================================================== *)
(** * Handlers as programs of atomic steps *)
(* ===================================================================== *)

(** [Step op k]: run [op] on the store at the current clock reading, then
    continue with [k] applied to its result. The steps of a handler are its
    database calls (the points where it is suspended) and its clock
    readings. *)
Inductive Prog (A : Type) : Type :=
| Ret (a : A)
| Throw (e : Error)
| Step {X : Type} (op : Date → DB → DB * X) (k : X → Prog A).

Arguments Ret {A} a.
Arguments Throw {A} e.
Arguments Step {A X} op k.

Fixpoint bind {A B : Type} (p : Prog A) (f : A → Prog B) : Prog B :=
  match p with
  | Ret a => f a
  | Throw e => Throw e
  | Step op k => Step op (λ x, bind (k x) f)
  end.

(** [try { p } catch (e) { h e }] *)
Fixpoint try_catch {A : Type} (p : Prog A) (h : Error → Prog A) : Prog A :=
  match p with
  | Ret a => Ret a
  | Throw e => h e
  | Step op k => Step op (λ x, try_catch (k x) h)
  end.

Global Instance Prog_ret : MRet Prog := @Ret.
Global Instance Prog_bind : MBind Prog := λ A B f p, bind p f.

(** [new Date()] *)
Definition new_Date : Prog Date := Step (λ now db, (db, now)) Ret.

(** A read of the store. *)
Definition query {X : Type} (f : DB → X) : Prog X :=
  Step (λ _ db, (db, f db)) Ret.

(** A write that may be refused: the promise is rejected with the error. *)
Definition write {X : Type} (f : DB → DB * (Error + X)) : Prog X :=
  Step (λ _ db, f db) (λ r, match r with inl e => Throw e | inr x => Ret x end).

(** The world a request runs in: the store and the number of steps taken so
    far; the step taken at tick [n] sees the clock reading [clock n]. *)
Record World := mkWorld { store : DB; tick : nat }.

(** How a handler ends: with a value, or with an exception nobody caught
    (handed over to the error middleware). *)
Inductive Outcome (A : Type) : Type :=
| Returned (a : A)
| Uncaught (e : Error).

Arguments Returned {A} a.
Arguments Uncaught {A} e.

Fixpoint run {A : Type} (clock : nat → Date) (p : Prog A) (w : World)
  : World * Outcome A :=
  match p with
  | Ret a => (w, Returned a)
  | Throw e => (w, Uncaught e)
  | Step op k =>
      let r := op (clock (tick w)) (store w) in
      run clock (k r.2) (mkWorld r.1 (S (tick w)))
  end.

(* ===================================================================== *)
(** * models/Fare.js *)
(* ===================================================================== *)

Module FareModel.

(** The filter of [getFare]:
    [{fromStation, toStation, fareType, isActive: true,
      $or: [{effectiveTo: null}, {effectiveTo: {$gte: now}}]}] *)
Definition getFare_filter (fromStationId toStationId : ObjectId)
    (fareType : FareType) (now : Date) (f : Fare.t) : bool :=
  bool_decide (Fare.fromStation f = fromStationId)
  && bool_decide (Fare.toStation f = toStationId)
  && bool_decide (Fare.fareType f = fareType)
  && bool_decide (Fare.isActive f = true)
  && match Fare.effectiveTo f with
     | None => true
     | Some till => bool_decide (now ≤ till)%Z
     end.

(** [fareSchema.statics.getFare]; [fareType] defaults to ['regular'] at the
    call sites that leave it out. *)
Definition getFare (fromStationId toStationId : ObjectId) (fareType : FareType)
  : Prog (option (ObjectId * Fare.t)) :=
  now ← new_Date;
  query (λ db, findOne (getFare_filter fromStationId toStationId fareType now) (fares db)).

End FareModel.

(* ===================================================================== *)
(** * models/User.js *)
(* ===================================================================== *)

Module UserModel.

(** A user document in memory. The paths that no handler of this
    development reads or assigns (password, email, photo, role, isActive,
    lastLogin) stay as stored and are left out; so is the pre-save hook,
    which only acts when the password was modified. *)
Record Document := mkDoc {
  _id : ObjectId;
  fullName : Path string;
  phoneNumber : Path string;
  balance : Path Number;
  totalTrips : Path Number;
  totalExpense : Path Number
}.

(** Hydration of a stored user, with all paths ([None]) or with an
    inclusive projection ([Some fields]). Defaults are not applied to the
    paths a projection leaves out. *)
Definition hydrate (projection : option (list string)) (id : ObjectId) (u : User.t)
  : Document :=
  let path {A : Type} (name : string) (a : A) : Path A :=
    match projection with
    | None => Loaded a
    | Some fields => select fields name a
    end in
  mkDoc id
    (path "fullName" (User.fullName u))
    (path "phoneNumber" (User.phoneNumber u))
    (path "balance" (User.balance u))
    (path "totalTrips" (User.totalTrips u))
    (path "totalExpense" (User.totalExpense u)).

Definition set_balance (v : option Number) (d : Document) : Document :=
  mkDoc (_id d) (fullName d) (phoneNumber d) (assign (balance d) v)
        (totalTrips d) (totalExpense d).

Definition set_totalTrips (v : option Number) (d : Document) : Document :=
  mkDoc (_id d) (fullName d) (phoneNumber d) (balance d)
        (assign (totalTrips d) v) (totalExpense d).

Definition set_totalExpense (v : option Number) (d : Document) : Document :=
  mkDoc (_id d) (fullName d) (phoneNumber d) (balance d)
        (totalTrips d) (assign (totalExpense d) v).

(** The paths that fail validation: a recorded cast error, or the
    [min: [0, 'Balance cannot be negative']] validator of [balance]. The
    values of [fullName] and [phoneNumber] are those of the store, never
    assigned here. *)
Definition invalid_paths (d : Document) : list string :=
  (if cast_failed (balance d)
      || match read (balance d) with
         | Some b => ltb b (num 0)
         | None => false
         end
   then ["balance"] else [])
  ++ (if cast_failed (totalTrips d) then ["totalTrips"] else [])
  ++ (if cast_failed (totalExpense d) then ["totalExpense"] else []).

Definition modified (d : Document) : bool :=
  is_assigned (balance d) || is_assigned (totalTrips d)
  || is_assigned (totalExpense d).

(** The stored document after the assigned paths are written. *)
Definition stored (d : Document) (u : User.t) : User.t :=
  User.with_ledger
    (commit (balance d) (User.balance u))
    (commit (totalTrips d) (User.totalTrips u))
    (commit (totalExpense d) (User.totalExpense u)) u.

(** [document.save()]: validate, then write the modified paths onto the
    stored document with the same [_id]. *)
Definition save (this : Document) : Prog Document :=
  match invalid_paths this with
  | [] =>
      if modified this then
        write (λ db,
          match users db !! _id this with
          | Some u => (set_users (<[_id this := stored this u]> (users db)) db,
                       inr this)
          | None => (db, inl DocumentNotFound)
          end)
      else Ret this
  | paths => Throw (ValidationError paths)
  end.

(** [User.findById(id)] *)
Definition findById (id : ObjectId) : Prog (option Document) :=
  query (λ db, hydrate None id <$> findById id (users db)).

(** [userSchema.methods.updateTripStats] *)
Definition updateTripStats (this : Document) (tripFare : option Number)
  : Prog Document :=
  let this := set_totalTrips (Js.add (read (totalTrips this)) (Some (num 1))) this in
  let this := set_totalExpense (Js.add (read (totalExpense this)) tripFare) this in
  save this.

(** [userSchema.methods.addBalance]: [this.balance += amount], where
    [amount] is what the caller passes on, a number or a string. *)
Definition addBalance (this : Document) (amount : Json) : Prog Document :=
  let this := set_balance (Js.add_json (read (balance this)) amount) this in
  save this.

(** [userSchema.methods.deductBalance] *)
Definition deductBalance (this : Document) (amount : option Number)
  : Prog Document :=
  if Js.lt (read (balance this)) amount then
    Throw (JsError "Insufficient balance")
  else
    let this := set_balance (Js.sub (read (balance this)) amount) this in
    save this.

End UserModel.

(* ===================================================================== *)
(** * models/Trip.js *)
(* ===================================================================== *)

(** [String.prototype.toUpperCase] on ASCII text. *)
Definition upper_ascii (c : Ascii.ascii) : Ascii.ascii :=
  let n := Ascii.N_of_ascii c in
  if bool_decide (97 ≤ n ≤ 122)%N then Ascii.ascii_of_N (n - 32) else c.

Fixpoint toUpperCase (s : string) : string :=
  match s with
  | EmptyString => EmptyString
  | String c r => String (upper_ascii c) (toUpperCase r)
  end.

Module TripModel.

(** The [user] path: the reference as stored, or what [populate] put in its
    place ([null] when the referenced user is not in the store). *)
Inductive UserRef :=
| Ref (id : ObjectId)
| Populated (d : option UserModel.Document).

(** [trip.user.toString()]: the id of a reference; the text of a populated
    document is no id ([None]). *)
Definition user_toString (r : UserRef) : option ObjectId :=
  match r with
  | Ref id => Some id
  | Populated _ => None
  end.

(** A trip document in memory; all its paths are selected. The station
    references are kept as stored: populating them only decorates the
    response. *)
Record Document := mkDoc {
  _id : ObjectId;
  tripCode : string;
  user : UserRef;
  fromStation : ObjectId;
  toStation : ObjectId;
  fare : Number;
  numberOfPassengers : Number;
  totalAmount : Number;
  status : Path TripStatus;
  usedAt : Path (option Date);
  expiresAt : Date;
  journeyStartTime : Path (option Date);
  journeyEndTime : Path (option Date);
  paymentMethod : PaymentMethod;
  paymentStatus : PaymentStatus;
  notes : option string
}.

Definition hydrate (id : ObjectId) (t : Trip.t) : Document :=
  mkDoc id (Trip.tripCode t) (Ref (Trip.user t)) (Trip.fromStation t)
    (Trip.toStation t) (Trip.fare t) (Trip.numberOfPassengers t)
    (Trip.totalAmount t) (Loaded (Trip.status t)) (Loaded (Trip.usedAt t))
    (Trip.expiresAt t) (Loaded (Trip.journeyStartTime t))
    (Loaded (Trip.journeyEndTime t)) (Trip.paymentMethod t)
    (Trip.paymentStatus t) (Trip.notes t).

Definition set_user (r : UserRef) (d : Document) : Document :=
  mkDoc (_id d) (tripCode d) r (fromStation d) (toStation d) (fare d)
    (numberOfPassengers d) (totalAmount d) (status d) (usedAt d)
    (expiresAt d) (journeyStartTime d) (journeyEndTime d)
    (paymentMethod d) (paymentStatus d) (notes d).

Definition set_journey (s : Path TripStatus) (u js je : Path (option Date))
    (d : Document) : Document :=
  mkDoc (_id d) (tripCode d) (user d) (fromStation d) (toStation d) (fare d)
    (numberOfPassengers d) (totalAmount d) s u (expiresAt d) js je
    (paymentMethod d) (paymentStatus d) (notes d).

Definition set_status (v : TripStatus) (d : Document) : Document :=
  set_journey (assign (status d) (Some v)) (usedAt d) (journeyStartTime d)
    (journeyEndTime d) d.

Definition set_usedAt (v : Date) (d : Document) : Document :=
  set_journey (status d) (assign (usedAt d) (Some (Some v)))
    (journeyStartTime d) (journeyEndTime d) d.

Definition set_journeyStartTime (v : Date) (d : Document) : Document :=
  set_journey (status d) (usedAt d)
    (assign (journeyStartTime d) (Some (Some v))) (journeyEndTime d) d.

Definition set_journeyEndTime (v : Date) (d : Document) : Document :=
  set_journey (status d) (usedAt d) (journeyStartTime d)
    (assign (journeyEndTime d) (Some (Some v))) d.

(** The validators of the schema on the numeric paths:
    [fare >= 0], [1 <= numberOfPassengers <= 10], [totalAmount >= 0]. *)
Definition invalid_numbers (fare numberOfPassengers totalAmount : Number)
  : list string :=
  (if ltb fare (num 0) then ["fare"] else [])
  ++ (if ltb numberOfPassengers (num 1) || ltb (num 10) numberOfPassengers
      then ["numberOfPassengers"] else [])
  ++ (if ltb totalAmount (num 0) then ["totalAmount"] else []).

Definition invalid_paths (d : Document) : list string :=
  invalid_numbers (fare d) (numberOfPassengers d) (totalAmount d).

Definition modified (d : Document) : bool :=
  is_assigned (status d) || is_assigned (usedAt d)
  || is_assigned (journeyStartTime d) || is_assigned (journeyEndTime d).

Definition stored (d : Document) (t : Trip.t) : Trip.t :=
  Trip.with_journey
    (commit (status d) (Trip.status t))
    (commit (usedAt d) (Trip.usedAt t))
    (commit (journeyStartTime d) (Trip.journeyStartTime t))
    (commit (journeyEndTime d) (Trip.journeyEndTime t)) t.

(** [document.save()] of a trip that is already stored. *)
Definition save (this : Document) : Prog Document :=
  match invalid_paths this with
  | [] =>
      if modified this then
        write (λ db,
          match trips db !! _id this with
          | Some t => (set_trips (<[_id this := stored this t]> (trips db)) db,
                       inr this)
          | None => (db, inl DocumentNotFound)
          end)
      else Ret this
  | paths => Throw (ValidationError paths)
  end.

(** The default of [tripCode]:
    [`TRIP-${uuidv4().substring(0, 8).toUpperCase()}`] *)
Definition default_tripCode (uuid : string) : string :=
  "TRIP-" +:+ toUpperCase (String.substring 0 8 uuid).

(** The default of [expiresAt]: [new Date(Date.now() + 24 * 60 * 60 * 1000)] *)
Definition default_expiresAt (now : Date) : Date := (now + day_ms)%Z.

Definition code_in_use (code : string) (ts : gmap ObjectId Trip.t) : bool :=
  bool_decide (map_Exists (λ _ t, Trip.tripCode t = code) ts).

(** [Trip.create({user, fromStation, toStation, fare, numberOfPassengers,
    totalAmount, paymentMethod})]: the other paths take their defaults, the
    document is validated and inserted under a new [_id]; the unique index
    on [tripCode] refuses a code already stored. [uuid] is what [uuidv4()]
    returns for this call. A [totalAmount] that is [NaN] does not cast and
    fails validation with the other paths. *)
Definition create (uuid : string) (user fromStation toStation : ObjectId)
    (fare numberOfPassengers : Number) (totalAmount : option Number)
    (paymentMethod : PaymentMethod)
  : Prog Document :=
  now ← new_Date;
  match totalAmount with
  | Some totalAmount =>
      let t := Trip.mk (default_tripCode uuid) user fromStation toStation fare
                 numberOfPassengers totalAmount created None
                 (default_expiresAt now) None None paymentMethod pending None in
      match invalid_numbers fare numberOfPassengers totalAmount with
      | [] =>
          write (λ db,
            if code_in_use (Trip.tripCode t) (trips db) then
              (db, inl (DuplicateKey "tripCode"))
            else
              let id := fresh (dom (trips db)) in
              (set_trips (<[id := t]> (trips db)) db, inr (hydrate id t)))
      | paths => Throw (ValidationError paths)
      end
  | None =>
      Throw (ValidationError
               (invalid_numbers fare numberOfPassengers (num 0) ++ ["totalAmount"]))
  end.

(** [Trip.findById(id)] *)
Definition findById (id : ObjectId) : Prog (option Document) :=
  query (λ db, hydrate id <$> findById id (trips db)).

(** [.populate('user', 'fullName phoneNumber')] *)
Definition populate_user (fields : list string) (d : Document) : Prog Document :=
  match user d with
  | Ref uid =>
      query (λ db,
        set_user (Populated (UserModel.hydrate (Some fields) uid <$> users db !! uid)) d)
  | Populated _ => Ret d
  end.

(** The filter of [getValidTrip]:
    [{tripCode, status: 'created', expiresAt: {$gt: now}}] *)
Definition getValidTrip_filter (tripCode : string) (now : Date) (t : Trip.t) : bool :=
  bool_decide (Trip.tripCode t = tripCode)
  && bool_decide (Trip.status t = created)
  && bool_decide (now < Trip.expiresAt t)%Z.

(** [tripSchema.statics.getValidTrip] *)
Definition getValidTrip (tripCode : string) : Prog (option Document) :=
  now ← new_Date;
  found ← query (λ db, findOne (getValidTrip_filter tripCode now) (trips db));
  match found with
  | None => Ret None
  | Some (id, t) =>
      trip ← populate_user ["fullName"; "phoneNumber"] (hydrate id t);
      Ret (Some trip)
  end.

Definition status_text (s : option TripStatus) : string :=
  match s with
  | Some created => "created"
  | Some used => "used"
  | Some expired => "expired"
  | Some cancelled => "cancelled"
  | None => "undefined"
  end.

(** [tripSchema.methods.useTrip] *)
Definition useTrip (this : Document) : Prog Document :=
  if bool_decide (read (status this) ≠ Some created) then
    Throw (JsError ("Trip cannot be used. Status: " +:+ status_text (read (status this))))
  else
    now ← new_Date;
    if bool_decide (expiresAt this < now)%Z then
      let this := set_status expired this in
      Throw (JsError "Trip has expired")
    else
      let this := set_status used this in
      now ← new_Date;
      let this := set_usedAt now this in
      now ← new_Date;
      let this := set_journeyStartTime now this in
      save this.

(** [tripSchema.methods.completeJourney] *)
Definition completeJourney (this : Document) : Prog Document :=
  if bool_decide (read (status this) ≠ Some used) then
    Throw (JsError ("Journey cannot be completed. Trip status: "
                    +:+ status_text (read (status this))))
  else
    now ← new_Date;
    let this := set_journeyEndTime now this in
    save this.

End TripModel.

(* ===================================================================== *)
(** * Route handlers *)
(* ===================================================================== *)

(** [validator.trim] strips the white space of [\s] from both ends
    ([Js.trim]); [notEmpty] then asks for a string that is not empty. *)

Module Routes.

(** ** routes/trips.js *)

(** The body of [POST /api/trips], for station ids that are well-formed
    ObjectIds, an integer passenger count and a payment method of the
    enumeration (anything else is refused by the validation chain with a
    400 as well). *)
Record CreateTripBody := mkCreateTripBody {
  fromStation : ObjectId;
  toStation : ObjectId;
  numberOfPassengers : Z;
  paymentMethod : option PaymentMethod
}.

(** [createTripValidation]: [isInt({ min: 1, max: 10 })] *)
Definition createTripValidation (body : CreateTripBody) : list string :=
  if bool_decide (1 ≤ numberOfPassengers body ≤ 10)%Z then []
  else ["Number of passengers must be between 1 and 10"].

(** [createTrip]; [req_user] is [req.user.id] as the [protect] middleware
    left it, [uuid] the value [uuidv4()] returns when the trip code is
    drawn. *)
Definition createTrip (req_user : ObjectId) (uuid : string) (body : CreateTripBody)
  : Prog (Response TripModel.Document) :=
  match createTripValidation body with
  | msg :: _ => Ret (errorResponse (Text msg) 400)
  | [] =>
      let paymentMethod := default by_balance (paymentMethod body) in
      fare ← FareModel.getFare (fromStation body) (toStation body) regular;
      match fare with
      | None => Ret (errorResponse (Text "Fare not found for this route") 404)
      | Some (_, fare) =>
          (* fare.fare * numberOfPassengers *)
          let totalAmount :=
            Js.mul (Some (Fare.fare fare)) (Some (num (numberOfPassengers body))) in
          user ← UserModel.findById req_user;
          (* paymentMethod === 'balance' && user.balance < totalAmount *)
          insufficient ←
            (if bool_decide (paymentMethod = by_balance) then
               match user with
               | Some u => Ret (Js.lt (read (UserModel.balance u)) totalAmount)
               | None => Throw TypeError
               end
             else Ret false);
          if (insufficient : bool) then
            Ret (errorResponse (Text "Insufficient balance") 400)
          else
            trip ← TripModel.create uuid req_user (fromStation body)
                     (toStation body) (Fare.fare fare)
                     (num (numberOfPassengers body)) totalAmount paymentMethod;
            _ ← (if bool_decide (paymentMethod = by_balance) then
                   match user with
                   | Some u =>
                       _ ← UserModel.deductBalance u totalAmount; Ret ()
                   | None => Throw TypeError
                   end
                 else Ret ());
            Ret (successResponse trip "Trip created successfully" 201)
      end
  end.

(** [useTrip], the handler of [POST /api/trips/use/:tripCode] *)
Definition useTrip (tripCode : string) : Prog (Response TripModel.Document) :=
  trip ← TripModel.getValidTrip tripCode;
  match trip with
  | None => Ret (errorResponse (Text "Invalid or expired trip code") 404)
  | Some trip =>
      try_catch
        (trip ← TripModel.useTrip trip;
         (* trip.user.updateTripStats(trip.totalAmount) *)
         _ ← match TripModel.user trip with
             | TripModel.Populated (Some owner) =>
                 UserModel.updateTripStats owner (Some (TripModel.totalAmount trip))
             | _ => Throw TypeError
             end;
         Ret (successResponse trip "Trip used successfully" 200))
        (λ error, Ret (errorResponse (MessageOf error) 400))
  end.

(** [completeJourney], the handler of [POST /api/trips/:id/complete] *)
Definition completeJourney (req_user : ObjectId) (id : ObjectId)
  : Prog (Response TripModel.Document) :=
  trip ← TripModel.findById id;
  match trip with
  | None => Ret (errorResponse (Text "Trip not found") 404)
  | Some trip =>
      (* trip.user.toString() !== req.user.id *)
      if bool_decide (TripModel.user_toString (TripModel.user trip) ≠ Some req_user) then
        Ret (errorResponse (Text "Not authorized") 403)
      else
        try_catch
          (trip ← TripModel.completeJourney trip;
           Ret (successResponse trip "Journey completed successfully" 200))
          (λ error, Ret (errorResponse (MessageOf error) 400))
  end.

(** ** routes/users.js *)

Inductive DepositMethod := dep_cash | dep_card | dep_mobile_banking.

(** The body of [POST /api/users/deposit]; [amount] is kept as it was sent,
    a number or a string. *)
Record DepositBody := mkDepositBody {
  amount : Json;
  dep_paymentMethod : option DepositMethod;
  transactionId : option string
}.

(** [depositValidation]: [amount] is [isFloat({ min: 1 })]; [transactionId],
    when present, is trimmed and must not be empty. *)
Definition depositValidation (body : DepositBody) : list string :=
  (if isFloat (num 1) (amount body) then [] else ["Amount must be at least 1"])
  ++ match transactionId body with
     | Some s =>
         if bool_decide (trim s = "")
         then ["Transaction ID is required for non-cash payments"] else []
     | None => []
     end.

Record DepositData := mkDepositData {
  dep_user : UserModel.Document;
  dep_amount : Json;
  dep_method : DepositMethod;
  dep_transactionId : option string;
  dep_timestamp : Date
}.

(** [depositMoney] *)
Definition depositMoney (req_user : ObjectId) (body : DepositBody)
  : Prog (Response DepositData) :=
  match depositValidation body with
  | msg :: _ => Ret (errorResponse (Text msg) 400)
  | [] =>
      let paymentMethod := default dep_cash (dep_paymentMethod body) in
      user ← UserModel.findById req_user;
      match user with
      | None => Ret (errorResponse (Text "User not found") 404)
      | Some user =>
          user ← UserModel.addBalance user (amount body);
          now ← new_Date;
          Ret (successResponse
                 (mkDepositData user (amount body) paymentMethod
                    (trim <$> transactionId body) now)
                 "Deposit successful" 200)
      end
  end.

(** ** routes/fares.js *)

(** [getFareBetweenStations], the handler of [GET /api/fares/route] *)
Definition getFareBetweenStations (fromStation toStation : option ObjectId)
    (fareType : option FareType) : Prog (Response (ObjectId * Fare.t)) :=
  match fromStation, toStation with
  | Some fromStation, Some toStation =>
      fare ← FareModel.getFare fromStation toStation (default regular fareType);
      match fare with
      | None => Ret (errorResponse (Text "Fare not found for this route") 404)
      | Some fare => Ret (successResponse fare "Fare retrieved successfully" 200)
      end
  | _, _ => Ret (errorResponse (Text "From station and to station are required") 400)
  end.

(** The filter of the lookup in [getFareInBetween]:
    [{fromStation, toStation, fareType, isActive: true}] *)
Definition inBetween_filter (fromStation toStation : ObjectId)
    (fareType : FareType) (f : Fare.t) : bool :=
  bool_decide (Fare.fromStation f = fromStation)
  && bool_decide (Fare.toStation f = toStation)
  && bool_decide (Fare.fareType f = fareType)
  && bool_decide (Fare.isActive f = true).

(** [getFareInBetween], the handler of [GET /api/fares/in-between]; the
    text of the 404 messages, which quotes the station names, is
    shortened. *)
Definition getFareInBetween (fromStationId toStationId : option ObjectId)
    (fareType : option FareType) : Prog (Response (ObjectId * Fare.t)) :=
  match fromStationId, toStationId with
  | Some fromStationId, Some toStationId =>
      fromStationDoc ← query (λ db, stations db !! fromStationId);
      toStationDoc ← query (λ db, stations db !! toStationId);
      match fromStationDoc, toStationDoc with
      | None, _ => Ret (errorResponse (Text "From station not found") 404)
      | Some _, None => Ret (errorResponse (Text "To station not found") 404)
      | Some _, Some _ =>
          fare ← query (λ db,
                    findOne (inBetween_filter fromStationId toStationId
                               (default regular fareType)) (fares db));
          match fare with
          | None => Ret (errorResponse (Text "No fare found for route") 404)
          | Some fare => Ret (successResponse fare "Fare retrieved successfully" 200)
          end
      end
  | _, _ => Ret (errorResponse (Text "From station and to station are required") 400)
  end.

End Routes.

(* ===================================================================== *)
(** * Running requests in sequence and interleaved *)
(* ===================================================================== *)

(** One atomic step of a request. *)
Definition step1 {A : Type} (clock : nat → Date) (p : Prog A) (w : World)
  : World * Prog A :=
  match p with
  | Step op k =>
      let r := op (clock (tick w)) (store w) in
      (mkWorld r.1 (S (tick w)), k r.2)
  | _ => (w, p)
  end.

(** Two requests in flight; the schedule says which of them takes the next
    step ([true]: the first). *)
Fixpoint interleave {A B : Type} (clock : nat → Date) (schedule : list bool)
    (p : Prog A) (q : Prog B) (w : World) : World * Prog A * Prog B :=
  match schedule with
  | [] => (w, p, q)
  | true :: s => let r := step1 clock p w in interleave clock s r.2 q r.1
  | false :: s => let r := step1 clock q w in interleave clock s p r.2 r.1
  end.

(** Requests served one after the other by the handler [handle]. *)
Fixpoint serve {R A : Type} (clock : nat → Date) (handle : R → Prog A)
    (requests : list R) (w : World) : World :=
  match requests with
  | [] => w
  | r :: rest => serve clock handle rest (run clock (handle r) w).1
  end.

(** The status code a request that has finished answered with. *)
Definition answered {D : Type} (p : Prog (Response D)) : option Z :=
  match p with
  | Ret r => Some (statusCode r)
  | _ => None
  end.

(** [stable I p Q]: started in a store that satisfies [I], every step of [p]
    leaves [I] true, also when steps of other requests that keep [I] come in
    between, and a value [p] returns satisfies [Q]. *)
Fixpoint stable {A : Type} (I : DB → Prop) (p : Prog A) (Q : A → Prop) : Prop :=
  match p with
  | Ret a => Q a
  | Throw _ => True
  | Step op k =>
      ∀ now db, I db → I (op now db).1 ∧ stable I (k (op now db).2) Q
  end.

Definition monotone (clock : nat → Date) : Prop :=
  ∀ n, (clock n ≤ clock (S n))%Z.

(** The schema invariant of the ledger: no stored balance is negative. *)
Definition ledger_valid (db : DB) : Prop :=
  map_Forall (λ _ u, (num 0 ≤ User.balance u)%J) (users db).

(** The world after one more step, and the store after one document is
    written. *)
Definition next (db : DB) (w : World) : World := mkWorld db (S (tick w)).

Definition put_user (id : ObjectId) (u : User.t) (db : DB) : DB :=
  set_users (<[id := u]> (users db)) db.

Definition put_trip (id : ObjectId) (t : Trip.t) (db : DB) : DB :=
  set_trips (<[id := t]> (trips db)) db.

(** The trip document [getValidTrip] hands to the handler: the stored trip
    with its owner populated under the projection [fullName phoneNumber]. *)
Definition valid_trip_document (db : DB) (id : ObjectId) (t : Trip.t)
  : TripModel.Document :=
  TripModel.set_user
    (TripModel.Populated
       (UserModel.hydrate (Some ["fullName"; "phoneNumber"]) (Trip.user t)
          <$> users db !! Trip.user t))
    (TripModel.hydrate id t).

(** The trip [Trip.create] stores for a request, given the clock reading at
    which its defaults are drawn. *)
Definition new_trip (uuid : string) (user fromStation toStation : ObjectId)
    (fare numberOfPassengers totalAmount : Number) (paymentMethod : PaymentMethod)
    (now : Date) : Trip.t :=
  Trip.mk (TripModel.default_tripCode uuid) user fromStation toStation fare
    numberOfPassengers totalAmount created None (TripModel.default_expiresAt now)
    None None paymentMethod pending None.

(* ===================================================================== *)
(** * The operations of the ledger *)
(* ===================================================================== *)

(** The two operations of the ledger on the user [id]: the document is
    loaded, then credited ([addBalance]) or debited ([deductBalance]). The
    amount is any number, also a negative one. *)
Inductive LedgerOp :=
| Deposit (amount : Number)
| Debit (amount : Number).

Definition ledger (id : ObjectId) (op : LedgerOp) : Prog UserModel.Document :=
  user ← UserModel.findById id;
  match user with
  | None => Throw TypeError
  | Some user =>
      match op with
      | Deposit amount => UserModel.addBalance user (JNumber amount)
      | Debit amount => UserModel.deductBalance user (Some amount)
      end
  end.

(* ===================================================================== *)
(** * The requests of the API *)
(* ===================================================================== *)

Inductive Request :=
| Issue (req_user : ObjectId) (uuid : string) (body : Routes.CreateTripBody)
| Redeem (tripCode : string)
| CompleteJourney (req_user : ObjectId) (id : ObjectId)
| DepositMoney (req_user : ObjectId) (body : Routes.DepositBody)
| FindFare (fromStation toStation : option ObjectId) (fareType : option FareType)
| FareInBetween (fromStation toStation : option ObjectId) (fareType : option FareType).

Inductive Reply :=
| TripReply (r : Response TripModel.Document)
| DepositReply (r : Response Routes.DepositData)
| FareReply (r : Response (ObjectId * Fare.t)).

(** The router: each request goes to its handler. *)
Definition handle (r : Request) : Prog Reply :=
  match r with
  | Issue req_user uuid body =>
      r ← Routes.createTrip req_user uuid body; Ret (TripReply r)
  | Redeem tripCode =>
      r ← Routes.useTrip tripCode; Ret (TripReply r)
  | CompleteJourney req_user id =>
      r ← Routes.completeJourney req_user id; Ret (TripReply r)
  | DepositMoney req_user body =>
      r ← Routes.depositMoney req_user body; Ret (DepositReply r)
  | FindFare fromStation toStation fareType =>
      r ← Routes.getFareBetweenStations fromStation toStation fareType;
      Ret (FareReply r)
  | FareInBetween fromStation toStation fareType =>
      r ← Routes.getFareInBetween fromStation toStation fareType;
      Ret (FareReply r)
  end.

(* ===================================================================== *)
(** * Predicates of the statements *)
(* ===================================================================== *)

(** The stored trip [id] is in status 'used'. *)
Definition trip_used (id : ObjectId) (db : DB) : Prop :=
  ∃ t, trips db !! id = Some t ∧ Trip.status t = used.

(** A trip document whose [status] path, if assigned at all, was assigned
    'used'. *)
Definition keeps_used (d : TripModel.Document) : Prop :=
  match TripModel.status d with
  | Assigned s => s = used
  | _ => True
  end.

(** What [getFare] asks of a stored fare, as a proposition: the tuple, the
    flag, and [effectiveTo] absent or not before [now]. [effectiveFrom] is
    not consulted. *)
Definition matches_getFare (fromStation toStation : ObjectId) (fareType : FareType)
    (now : Date) (f : Fare.t) : Prop :=
  Fare.fromStation f = fromStation ∧ Fare.toStation f = toStation
  ∧ Fare.fareType f = fareType ∧ Fare.isActive f = true
  ∧ (Fare.effectiveTo f = None
     ∨ ∃ till, Fare.effectiveTo f = Some till ∧ (now ≤ till)%Z).

(** What the in-between lookup asks of a stored fare: the tuple and the
    flag. *)
Definition matches_inBetween (fromStation toStation : ObjectId)
    (fareType : FareType) (f : Fare.t) : Prop :=
  Fare.fromStation f = fromStation ∧ Fare.toStation f = toStation
  ∧ Fare.fareType f = fareType ∧ Fare.isActive f = true.

(** The window of the specification: [effectiveFrom <= now] and
    ([effectiveTo] is null or [now <= effectiveTo]). *)
Definition window_contains (now : Date) (f : Fare.t) : Prop :=
  (Fare.effectiveFrom f ≤ now)%Z
  ∧ (Fare.effectiveTo f = None
     ∨ ∃ till, Fare.effectiveTo f = Some till ∧ (now ≤ till)%Z).

(** The active fare row of the specification for a tuple at [now]. *)
Definition active_in_window (fromStation toStation : ObjectId) (fareType : FareType)
    (now : Date) (f : Fare.t) : Prop :=
  Fare.fromStation f = fromStation ∧ Fare.toStation f = toStation
  ∧ Fare.fareType f = fareType ∧ Fare.isActive f = true
  ∧ window_contains now f.

(* ===================================================================== *)
(** * The end-to-end scenario *)
(* ===================================================================== *)

(** Stations A and B, a regular fare of 30 from A to B, a new user U with a
    balance of 100, and a user V with the same balance who has travelled
    before. *)
Module Scenario.

Definition station_A : Station.t := Station.mk "A" None None "North road" "1" true [] None.
Definition station_B : Station.t := Station.mk "B" None None "South road" "1" true [] None.

Definition fare_AB : Fare.t :=
  Fare.mk 1 2 (num 30) (num 5) (num 10) true regular 0 None.

Definition user_U : User.t :=
  User.mk "U" "01700000000" "secret" "u@example.com" None (num 100) (num 0) (num 0)
    role_user true None.

Definition user_V : User.t :=
  User.mk "V" "01800000000" "secret" "v@example.com" None (num 100) (num 3) (num 200)
    role_user true None.

Definition db0 : DB :=
  mkDB {[1%N := station_A; 2%N := station_B]} {[1%N := fare_AB]}
    {[7%N := user_U; 8%N := user_V]} ∅.

(** A clock that advances one millisecond per step, and one that advances
    twelve hours per step. *)
Definition clock (n : nat) : Date := (1000 + Z.of_nat n)%Z.
Definition slow_clock (n : nat) : Date := (1000 + 43200000 * Z.of_nat n)%Z.

Definition w0 : World := mkWorld db0 0.

Definition uuid1 : string := "1b9d6bcd-bbfd-4b2d-9b5d-ab8dfbbd4bed".
Definition uuid2 : string := "6ec0bd7f-11c0-43da-975e-2a8ad9ebae0b".

Definition two_by_balance : Routes.CreateTripBody :=
  Routes.mkCreateTripBody 1 2 2 (Some by_balance).
Definition four_by_balance : Routes.CreateTripBody :=
  Routes.mkCreateTripBody 1 2 4 None.
Definition two_by_cash : Routes.CreateTripBody :=
  Routes.mkCreateTripBody 1 2 2 (Some by_cash).

(** The world after U has bought a trip for two from the balance, and the
    trip stored for it. *)
Definition w1 : World := (run clock (Routes.createTrip 7 uuid1 two_by_balance) w0).1.
Definition trip1 : Trip.t :=
  new_trip uuid1 7 1 2 (num 30) (num 2) (num 60) by_balance (clock 3).

(** The world after that trip was redeemed, and the trip as stored then. *)
Definition w2 : World := (run clock (Routes.useTrip "TRIP-1B9D6BCD") w1).1.
Definition trip1_used : Trip.t :=
  Trip.with_journey used (Some (clock 10)) (Some (clock 11)) None trip1.

(** The world after V has bought such a trip, and the trip stored for it. *)
Definition w1_V : World := (run clock (Routes.createTrip 8 uuid2 two_by_balance) w0).1.
Definition trip1_V : Trip.t :=
  new_trip uuid2 8 1 2 (num 30) (num 2) (num 60) by_balance (clock 3).

(** The same purchase on the slow clock: the trip has lapsed when the next
    request comes in. *)
Definition w1_late : World :=
  (run slow_clock (Routes.createTrip 7 uuid1 two_by_balance) w0).1.

Definition trip1_late : Trip.t :=
  new_trip uuid1 7 1 2 (num 30) (num 2) (num 60) by_balance (slow_clock 3).

(** A fare that only takes effect later. *)
Definition fare_later : Fare.t :=
  Fare.mk 1 2 (num 30) (num 5) (num 10) true regular 999999999 None.
Definition w_later : World :=
  mkWorld (mkDB {[1%N := station_A; 2%N := station_B]} {[1%N := fare_later]}
             {[7%N := user_U]} ∅) 0.

Definition half : Number := Finite (Q2Qc (1 # 2)).
Definition deposit_half : Routes.DepositBody := Routes.mkDepositBody (JNumber half) None None.
Definition deposit_100 : Routes.DepositBody :=
  Routes.mkDepositBody (JNumber (num 100)) (Some Routes.dep_card) (Some "TX-1").

(** Both requests read, then both write. *)
Definition reads_then_writes : list bool :=
  [true; true; true; false; false; false; true; true; true; false; false; false].

End Scenario.

(* ===================================================================== *)
(** * utils/responseHandler.js: pagination *)
(* ===================================================================== *)

Module Paging.

(** [parseInt(req.query.x) || fallback]: the fallback replaces [NaN]
    ([None]) and [0]. *)
Definition parse_or (parsed : option Z) (fallback : Z) : Z :=
  match parsed with
  | Some n => if bool_decide (n = 0)%Z then fallback else n
  | None => fallback
  end.

(** [Math.ceil(total / limit)]; [None] stands for the result of a division
    by zero ([Infinity] or [NaN]). *)
Definition ceil_div (total limit : Z) : option Z :=
  if bool_decide (limit = 0)%Z then None else Some (- (- total / limit))%Z.

(** The [pagination] object of [paginatedResponse]. *)
Record Pagination := mkPagination {
  page : Z;
  limit : Z;
  total : Z;
  totalPages : option Z;
  hasNext : bool;
  hasPrev : bool
}.

Definition pagination (page limit total : Z) : Pagination :=
  mkPagination page limit total (ceil_div total limit)
    (bool_decide (page * limit < total)%Z) (bool_decide (1 < page)%Z).

End Paging.

(* ===================================================================== *)
(** * Fares: documents in memory, and the admin handlers of routes/fares.js *)
(* ===================================================================== *)

Global Instance Role_eq_dec : EqDecision Role.
Proof. solve_decision. Defined.

Definition set_fares (fs : gmap ObjectId Fare.t) (db : DB) : DB :=
  mkDB (stations db) fs (users db) (trips db).

Definition put_fare (id : ObjectId) (f : Fare.t) (db : DB) : DB :=
  set_fares (<[id := f]> (fares db)) db.

Module FareDocs.

(** A fare document in memory; all its paths are selected. The handlers
    assign [fare], [distance], [duration] and [isActive] only. *)
Record Document := mkDoc {
  _id : ObjectId;
  fromStation : ObjectId;
  toStation : ObjectId;
  fare : Path Number;
  distance : Path Number;
  duration : Path Number;
  isActive : Path bool;
  fareType : FareType;
  effectiveFrom : Date;
  effectiveTo : option Date
}.

Definition hydrate (id : ObjectId) (f : Fare.t) : Document :=
  mkDoc id (Fare.fromStation f) (Fare.toStation f) (Loaded (Fare.fare f))
    (Loaded (Fare.distance f)) (Loaded (Fare.duration f)) (Loaded (Fare.isActive f))
    (Fare.fareType f) (Fare.effectiveFrom f) (Fare.effectiveTo f).

Definition set_paths (p d u : Path Number) (a : Path bool) (this : Document)
  : Document :=
  mkDoc (_id this) (fromStation this) (toStation this) p d u a (fareType this)
    (effectiveFrom this) (effectiveTo this).

Definition set_fare (v : Number) (this : Document) : Document :=
  set_paths (assign (fare this) (Some v)) (distance this) (duration this)
    (isActive this) this.

Definition set_distance (v : Number) (this : Document) : Document :=
  set_paths (fare this) (assign (distance this) (Some v)) (duration this)
    (isActive this) this.

Definition set_duration (v : Number) (this : Document) : Document :=
  set_paths (fare this) (distance this) (assign (duration this) (Some v))
    (isActive this) this.

Definition set_isActive (v : bool) (this : Document) : Document :=
  set_paths (fare this) (distance this) (duration this)
    (assign (isActive this) (Some v)) this.

(** The validators of the schema on the numeric paths:
    [fare >= 0], [distance >= 0], [duration >= 1]. *)
Definition invalid_numbers (fare distance duration : option Number) : list string :=
  (if Js.lt fare (Some (num 0)) then ["fare"] else [])
  ++ (if Js.lt distance (Some (num 0)) then ["distance"] else [])
  ++ (if Js.lt duration (Some (num 1)) then ["duration"] else []).

Definition invalid_paths (this : Document) : list string :=
  invalid_numbers (read (fare this)) (read (distance this)) (read (duration this)).

Definition modified (this : Document) : bool :=
  is_assigned (fare this) || is_assigned (distance this)
  || is_assigned (duration this) || is_assigned (isActive this).

Definition stored (this : Document) (f : Fare.t) : Fare.t :=
  Fare.mk (Fare.fromStation f) (Fare.toStation f)
    (commit (fare this) (Fare.fare f)) (commit (distance this) (Fare.distance f))
    (commit (duration this) (Fare.duration f))
    (commit (isActive this) (Fare.isActive f))
    (Fare.fareType f) (Fare.effectiveFrom f) (Fare.effectiveTo f).

(** [document.save()] of a fare that is already stored. *)
Definition save (this : Document) : Prog Document :=
  match invalid_paths this with
  | [] =>
      if modified this then
        write (λ db,
          match fares db !! _id this with
          | Some f => (put_fare (_id this) (stored this f) db, inr this)
          | None => (db, inl DocumentNotFound)
          end)
      else Ret this
  | paths => Throw (ValidationError paths)
  end.

(** Two fares for the same (fromStation, toStation, fareType): what the
    unique compound index of the schema forbids. *)
Definition same_route (f g : Fare.t) : Prop :=
  Fare.fromStation f = Fare.fromStation g ∧ Fare.toStation f = Fare.toStation g
  ∧ Fare.fareType f = Fare.fareType g.

Definition route_in_use (f : Fare.t) (fs : gmap ObjectId Fare.t) : bool :=
  bool_decide (map_Exists (λ _ g, same_route g f) fs).

(** [Fare.create({...})]: [isActive] takes its default, the document is
    validated and inserted under a new [_id]; the unique index on
    (fromStation, toStation, fareType) refuses a second row for the route,
    active or not. *)
Definition create (fromStation toStation : ObjectId) (fare distance duration : Number)
    (fareType : FareType) (effectiveFrom : Date) (effectiveTo : option Date)
  : Prog Document :=
  let f := Fare.mk fromStation toStation fare distance duration true fareType
             effectiveFrom effectiveTo in
  match invalid_numbers (Some fare) (Some distance) (Some duration) with
  | [] =>
      write (λ db,
        if route_in_use f (fares db) then
          (db, inl (DuplicateKey "fromStation_1_toStation_1_fareType_1"))
        else
          let id := fresh (dom (fares db)) in
          (put_fare id f db, inr (hydrate id f)))
  | paths => Throw (ValidationError paths)
  end.

(** [Fare.findById(id)] *)
Definition findById (id : ObjectId) : Prog (option Document) :=
  query (λ db, hydrate id <$> fares db !! id).

End FareDocs.

Module FareRoutes.

(** The body of [POST /api/fares], for well-formed station ids, numbers, an
    integer duration, a fare type of the enumeration and dates that parse. *)
Record CreateFareBody := mkCreateFareBody {
  fromStation : ObjectId;
  toStation : ObjectId;
  fare : Number;
  distance : Number;
  duration : Z;
  fareType : option FareType;
  effectiveFrom : option Date;
  effectiveTo : option Date
}.

(** [fareValidation]: [isFloat({ min: 0 })] twice and [isInt({ min: 1 })]. *)
Definition fareValidation (body : CreateFareBody) : list string :=
  (if isFloat (num 0) (JNumber (fare body)) then []
   else ["Fare must be a positive number"])
  ++ (if isFloat (num 0) (JNumber (distance body)) then []
      else ["Distance must be a positive number"])
  ++ (if bool_decide (duration body < 1)%Z
      then ["Duration must be at least 1 minute"] else []).

(** [createFare]; the stations that the two [populate] calls read are not
    kept in the document of the response. *)
Definition createFare (body : CreateFareBody) : Prog (Response FareDocs.Document) :=
  match fareValidation body with
  | msg :: _ => Ret (errorResponse (Text msg) 400)
  | [] =>
      let fareType := default regular (fareType body) in
      fromStationExists ← query (λ db, stations db !! fromStation body);
      toStationExists ← query (λ db, stations db !! toStation body);
      match fromStationExists, toStationExists with
      | Some _, Some _ =>
          (* Fare.findOne({fromStation, toStation, fareType, isActive: true}) *)
          existingFare ← query (λ db,
            findOne (Routes.inBetween_filter (fromStation body) (toStation body)
                       fareType) (fares db));
          match existingFare with
          | Some _ =>
              Ret (errorResponse (Text "Fare already exists for this route and type") 400)
          | None =>
              (* effectiveFrom || new Date() *)
              effectiveFrom ← match effectiveFrom body with
                              | Some d => Ret d
                              | None => new_Date
                              end;
              newFare ← FareDocs.create (fromStation body) (toStation body)
                          (fare body) (distance body) (num (duration body))
                          fareType effectiveFrom (effectiveTo body);
              (* newFare.populate('fromStation', ...), then ('toStation', ...) *)
              _ ← query (λ db, stations db !! FareDocs.fromStation newFare);
              _ ← query (λ db, stations db !! FareDocs.toStation newFare);
              Ret (successResponse newFare "Fare created successfully" 201)
          end
      | _, _ => Ret (errorResponse (Text "One or both stations not found") 404)
      end
  end.

(** The body of [PUT /api/fares/:id]: the three editable fields, each sent
    or not, and the names of whatever other fields were sent. *)
Record UpdateFareBody := mkUpdateFareBody {
  new_fare : option Number;
  new_distance : option Number;
  new_duration : option Z;
  other_fields : list string
}.

(** [fareEditValidation]: as [fareValidation], each field optional. *)
Definition fareEditValidation (body : UpdateFareBody) : list string :=
  (match new_fare body with
   | Some v => if isFloat (num 0) (JNumber v) then []
               else ["Fare must be a positive number"]
   | None => []
   end)
  ++ (match new_distance body with
      | Some v => if isFloat (num 0) (JNumber v) then []
                  else ["Distance must be a positive number"]
      | None => []
      end)
  ++ (match new_duration body with
      | Some v => if bool_decide (v < 1)%Z
                  then ["Duration must be at least 1 minute"] else []
      | None => []
      end).

Definition nonEditableFields : list string :=
  ["fromStation"; "toStation"; "fareType"; "effectiveFrom"; "effectiveTo"; "isActive"].

(** [sentFields.filter(field => nonEditableFields.includes(field))]: none of
    the three editable names is in the list. *)
Definition invalidFields (body : UpdateFareBody) : list string :=
  List.filter (λ field, bool_decide (field ∈ nonEditableFields)) (other_fields body).

(** [updateFare] *)
Definition updateFare (id : ObjectId) (body : UpdateFareBody)
  : Prog (Response FareDocs.Document) :=
  match fareEditValidation body with
  | msg :: _ => Ret (errorResponse (Text msg) 400)
  | [] =>
      match invalidFields body with
      | _ :: _ =>
          Ret (errorResponse
                 (Text ("Cannot edit the following fields: "
                        +:+ String.concat ", " (invalidFields body)
                        +:+ ". Only fare, distance, and duration can be updated."))
                 400)
      | [] =>
          fareRecord ← FareDocs.findById id;
          match fareRecord with
          | None => Ret (errorResponse (Text "Fare not found") 404)
          | Some fareRecord =>
              let fareRecord :=
                match new_fare body with
                | Some v => FareDocs.set_fare v fareRecord
                | None => fareRecord
                end in
              let fareRecord :=
                match new_distance body with
                | Some v => FareDocs.set_distance v fareRecord
                | None => fareRecord
                end in
              let fareRecord :=
                match new_duration body with
                | Some v => FareDocs.set_duration (num v) fareRecord
                | None => fareRecord
                end in
              fareRecord ← FareDocs.save fareRecord;
              (* fareRecord.populate('fromStation', ...), then ('toStation', ...) *)
              _ ← query (λ db, stations db !! FareDocs.fromStation fareRecord);
              _ ← query (λ db, stations db !! FareDocs.toStation fareRecord);
              Ret (successResponse fareRecord "Fare updated successfully" 200)
          end
      end
  end.

(** [deleteFare]: a soft delete; the response carries [null] as data. *)
Definition deleteFare (id : ObjectId) : Prog (Response ()) :=
  fare ← FareDocs.findById id;
  match fare with
  | None => Ret (errorResponse (Text "Fare not found") 404)
  | Some fare =>
      _ ← FareDocs.save (FareDocs.set_isActive false fare);
      Ret (mkResponse 200 true (Text "Fare deleted successfully") None)
  end.

End FareRoutes.

(* ===================================================================== *)
(** * Reading a trip and the statistics of a user *)
(* ===================================================================== *)

(** [Model.countDocuments(query)] *)
Definition countDocuments {D : Type} (query : D → bool) (c : gmap ObjectId D) : nat :=
  length (List.filter (λ kd : ObjectId * D, query kd.2) (map_to_list c)).

Module ReadRoutes.

(** [getTripById], the handler of [GET /api/trips/:id]; [req_role] is
    [req.user.role]. *)
Definition getTripById (req_user : ObjectId) (req_role : Role) (id : ObjectId)
  : Prog (Response TripModel.Document) :=
  trip ← TripModel.findById id;
  match trip with
  | None => Ret (errorResponse (Text "Trip not found") 404)
  | Some trip =>
      trip ← TripModel.populate_user ["fullName"; "phoneNumber"] trip;
      (* trip.user._id.toString() !== req.user.id && req.user.role !== 'admin' *)
      match TripModel.user trip with
      | TripModel.Populated (Some owner) =>
          if bool_decide (UserModel._id owner ≠ req_user)
             && bool_decide (req_role ≠ role_admin)
          then Ret (errorResponse (Text "Not authorized") 403)
          else Ret (successResponse trip "Trip retrieved successfully" 200)
      | _ => Throw TypeError
      end
  end.

Record Statistics := mkStatistics {
  totalTrips : nat;
  usedTrips : nat;
  unusedTrips : nat;
  expiredTrips : nat;
  totalExpense : option Number;
  balance : option Number;
  monthlyTrips : nat;
  monthlyExpense : option Number
}.

(** The filters of the five counts and of the [$match] stage. *)
Definition of_user (userId : ObjectId) (t : Trip.t) : bool :=
  bool_decide (Trip.user t = userId).

Definition used_of_user (userId : ObjectId) (t : Trip.t) : bool :=
  of_user userId t && bool_decide (Trip.status t = used).

Definition unused_of_user (userId : ObjectId) (now : Date) (t : Trip.t) : bool :=
  of_user userId t && bool_decide (Trip.status t = created)
  && bool_decide (now < Trip.expiresAt t)%Z.

Definition expired_of_user (userId : ObjectId) (t : Trip.t) : bool :=
  of_user userId t && bool_decide (Trip.status t = expired).

Definition used_since (userId : ObjectId) (since : Date) (t : Trip.t) : bool :=
  used_of_user userId t
  && match Trip.usedAt t with
     | Some at_ => bool_decide (since ≤ at_)%Z
     | None => false
     end.

(** [Trip.aggregate([{$match}, {$group: {_id: null, total: {$sum:
    '$totalAmount'}}}])], then
    [monthlyExpense.length > 0 ? monthlyExpense[0].total : 0]. *)
Definition monthlyTotal (userId : ObjectId) (since : Date) (ts : gmap ObjectId Trip.t)
  : option Number :=
  match List.filter (λ kd : ObjectId * Trip.t, used_since userId since kd.2)
          (map_to_list ts) with
  | [] => Some (num 0)
  | matched =>
      foldr (λ kd acc, Js.add (Some (Trip.totalAmount kd.2)) acc) (Some (num 0)) matched
  end.

(** [getUserStatistics]; [startOfMonth now] is the date that
    [setDate(1); setHours(0, 0, 0, 0)] make of [now] (calendar and time zone
    are the runtime's). *)
Definition getUserStatistics (startOfMonth : Date → Date) (req_user : ObjectId)
  : Prog (Response Statistics) :=
  user ← UserModel.findById req_user;
  match user with
  | None => Ret (errorResponse (Text "User not found") 404)
  | Some user =>
      totalTrips ← query (λ db, countDocuments (of_user req_user) (trips db));
      usedTrips ← query (λ db, countDocuments (used_of_user req_user) (trips db));
      now ← new_Date;
      unusedTrips ← query (λ db, countDocuments (unused_of_user req_user now) (trips db));
      expiredTrips ← query (λ db, countDocuments (expired_of_user req_user) (trips db));
      now ← new_Date;
      let currentMonth := startOfMonth now in
      monthlyTrips ← query (λ db,
        countDocuments (used_since req_user currentMonth) (trips db));
      monthlyExpense ← query (λ db,
        monthlyTotal (UserModel._id user) currentMonth (trips db));
      Ret (successResponse
             (mkStatistics totalTrips usedTrips unusedTrips expiredTrips
                (read (UserModel.totalExpense user)) (read (UserModel.balance user))
                monthlyTrips monthlyExpense)
             "Statistics retrieved successfully" 200)
  end.

End ReadRoutes.

(* ===================================================================== *)
(** * The whole API *)
(* ===================================================================== *)

Inductive ApiRequest :=
| Public (r : Request)
| CreateFare (body : FareRoutes.CreateFareBody)
| UpdateFare (id : ObjectId) (body : FareRoutes.UpdateFareBody)
| DeleteFare (id : ObjectId)
| TripById (req_user : ObjectId) (req_role : Role) (id : ObjectId)
| UserStatistics (req_user : ObjectId).

(** The router over all the handlers modelled; the response is dropped. *)
Definition handle_api (startOfMonth : Date → Date) (r : ApiRequest) : Prog () :=
  match r with
  | Public r => _ ← handle r; Ret ()
  | CreateFare body => _ ← FareRoutes.createFare body; Ret ()
  | UpdateFare id body => _ ← FareRoutes.updateFare id body; Ret ()
  | DeleteFare id => _ ← FareRoutes.deleteFare id; Ret ()
  | TripById req_user req_role id =>
      _ ← ReadRoutes.getTripById req_user req_role id; Ret ()
  | UserStatistics req_user =>
      _ ← ReadRoutes.getUserStatistics startOfMonth req_user; Ret ()
  end.

(** ** Invariants of the store *)

(** Every stored trip is 'created' or 'used'. *)
Definition statuses_live (db : DB) : Prop :=
  map_Forall (λ _ t, Trip.status t = created ∨ Trip.status t = used) (trips db).

(** No two stored trips share a code (the unique index on [tripCode]). *)
Definition codes_unique (db : DB) : Prop :=
  ∀ i j t1 t2, trips db !! i = Some t1 → trips db !! j = Some t2 →
               Trip.tripCode t1 = Trip.tripCode t2 → i = j.

(** No two stored fares are for the same route and type (the unique compound
    index). *)
Definition fares_unique (db : DB) : Prop :=
  ∀ i j f g, fares db !! i = Some f → fares db !! j = Some g →
             FareDocs.same_route f g → i = j.

(** The counters of the stored users. *)
Definition counters (db : DB) : gmap ObjectId (Number * Number) :=
  (λ u, (User.totalTrips u, User.totalExpense u)) <$> users db.

(** The counters of the stored users are [K]. *)
Definition counters_kept (K : gmap ObjectId (Number * Number)) (db : DB) : Prop :=
  counters db = K.

(** The row [createFare] hands to [Fare.create] for a body, [now] being the
    clock reading that stands in for an absent [effectiveFrom]. *)
Definition fare_of_body (body : FareRoutes.CreateFareBody) (now : Date) : Fare.t :=
  Fare.mk (FareRoutes.fromStation body) (FareRoutes.toStation body)
    (FareRoutes.fare body) (FareRoutes.distance body)
    (num (FareRoutes.duration body)) true
    (default regular (FareRoutes.fareType body))
    (default now (FareRoutes.effectiveFrom body)) (FareRoutes.effectiveTo body).

(** A stored row after the edits of a body of [updateFare]. *)
Definition edited (body : FareRoutes.UpdateFareBody) (f : Fare.t) : Fare.t :=
  Fare.mk (Fare.fromStation f) (Fare.toStation f)
    (default (Fare.fare f) (FareRoutes.new_fare body))
    (default (Fare.distance f) (FareRoutes.new_distance body))
    (default (Fare.duration f) (num <$> FareRoutes.new_duration body))
    (Fare.isActive f) (Fare.fareType f) (Fare.effectiveFrom f) (Fare.effectiveTo f).

(** A stored row after a soft delete. *)
Definition deactivated (f : Fare.t) : Fare.t :=
  Fare.mk (Fare.fromStation f) (Fare.toStation f) (Fare.fare f) (Fare.distance f)
    (Fare.duration f) false (Fare.fareType f) (Fare.effectiveFrom f)
    (Fare.effectiveTo f).

(** The validators of the fare schema hold of a row. *)
Definition fare_schema_valid (f : Fare.t) : Prop :=
  (num 0 ≤ Fare.fare f)%J ∧ (num 0 ≤ Fare.distance f)%J
  ∧ (num 1 ≤ Fare.duration f)%J.

(** A request that ended in a response with the given status code. *)
Definition answered_with {D : Type} (code : Z) (o : Outcome (Response D)) : Prop :=
  ∃ resp, o = Returned resp ∧ statusCode resp = code.

(** What [getValidTrip] asks of a stored trip, as a proposition. *)
Definition redeemable (tripCode : string) (now : Date) (t : Trip.t) : Prop :=
  Trip.tripCode t = tripCode ∧ Trip.status t = created ∧ (now < Trip.expiresAt t)%Z.

(** A trip document whose [status] path, if assigned at all, was assigned
    'created' or 'used'. *)
Definition live_doc (d : TripModel.Document) : Prop :=
  match TripModel.status d with
  | Assigned s => s = created ∨ s = used
  | _ => True
  end.

(** A user document whose counters were not assigned. *)
Definition counters_untouched (d : UserModel.Document) : Prop :=
  is_assigned (UserModel.totalTrips d) = false
  ∧ is_assigned (UserModel.totalExpense d) = false.

(** A user document loaded without its counters. *)
Definition counters_unselected (d : UserModel.Document) : Prop :=
  UserModel.totalTrips d = Unselected ∧ UserModel.totalExpense d = Unselected.

(** A trip document whose owner, if populated, was loaded without its
    counters. *)
Definition owner_projected (d : TripModel.Document) : Prop :=
  ∀ owner, TripModel.user d = TripModel.Populated (Some owner) →
           counters_unselected owner.

(** ** More of the scenario *)

Module Cases.

(** A clock that jumps by more than a day after nine steps. *)
Definition jump_clock (n : nat) : Date :=
  if bool_decide (n < 9) then (1000 + Z.of_nat n)%Z else (100000000 + Z.of_nat n)%Z.

(** The world after U's purchase on that clock. *)
Definition w1_jump : World :=
  (run jump_clock (Routes.createTrip 7 Scenario.uuid1 Scenario.two_by_balance)
     Scenario.w0).1.

Definition start_of_month (now : Date) : Date := (now - now `mod` 2592000000)%Z.

Definition fare_BA_body : FareRoutes.CreateFareBody :=
  FareRoutes.mkCreateFareBody 2 1 (num 30) (num 5) 10 None None None.

Definition fare_AB_body : FareRoutes.CreateFareBody :=
  FareRoutes.mkCreateFareBody 1 2 (num 35) (num 5) 10 None None None.

Definition raise_price : FareRoutes.UpdateFareBody :=
  FareRoutes.mkUpdateFareBody (Some (num 40)) None None [].

Definition move_route : FareRoutes.UpdateFareBody :=
  FareRoutes.mkUpdateFareBody (Some (num 40)) None None ["toStation"; "notes"; "isActive"].

(** The world after the fare from A to B was deleted. *)
Definition w_deleted : World :=
  (run Scenario.clock (FareRoutes.deleteFare 1) Scenario.w0).1.

(** A fare from A to B that ended in the past. *)
Definition fare_ended : Fare.t :=
  Fare.mk 1 2 (num 30) (num 5) (num 10) true regular 0 (Some 500%Z).
Definition w_ended : World :=
  mkWorld (mkDB {[1%N := Scenario.station_A; 2%N := Scenario.station_B]}
             {[1%N := fare_ended]} {[7%N := Scenario.user_U]} ∅) 0.

(** A deposit whose transaction id is white space only: a space, a
    no-break space (U+00A0) and a tab. *)
Definition blank_transaction : Routes.DepositBody :=
  Routes.mkDepositBody (JNumber (num 100)) (Some Routes.dep_card)
    (Some (" " +:+ String (Ascii.ascii_of_N 194) (String (Ascii.ascii_of_N 160) "")
           +:+ String (Ascii.ascii_of_N 9) "")).

Definition three_requests : list ApiRequest :=
  [Public (Issue 7 Scenario.uuid1 Scenario.two_by_balance);
   Public (Redeem "TRIP-1B9D6BCD");
   Public (CompleteJourney 7 0)].

(** The requests of an administrator on the fares. *)
Definition admin_requests : list ApiRequest :=
  [CreateFare fare_BA_body; UpdateFare 1 raise_price; DeleteFare 1;
   CreateFare fare_AB_body].

(** Seventy cents, the double nearest to 0.7, and a fare at that price.
    Three times seventy cents is 2.0999999999999996 in double precision,
    below the double nearest to 2.1. *)
Definition seventy_cents : Number := round64 (Q2Qc (7 # 10)).
Definition three_times_seventy_cents : Number :=
  default (num 0) (Js.mul (Some seventy_cents) (Some (num 3))).
Definition fare_cents : Fare.t :=
  Fare.mk 1 2 seventy_cents (num 5) (num 10) true regular 0 None.
Definition user_W : User.t :=
  User.mk "W" "01900000000" "secret" "w@example.com" None three_times_seventy_cents
    (num 0) (num 0) role_user true None.
Definition user_X : User.t :=
  User.mk "X" "01600000000" "secret" "x@example.com" None (num 2)
    (num 0) (num 0) role_user true None.
Definition w_cents : World :=
  mkWorld (mkDB {[1%N := Scenario.station_A; 2%N := Scenario.station_B]}
             {[1%N := fare_cents]} {[7%N := user_W; 8%N := user_X]} ∅) 0.
Definition three_by_balance : Routes.CreateTripBody :=
  Routes.mkCreateTripBody 1 2 3 None.

(** A deposit of 33.33, the double nearest to it. *)
Definition thirty_three_33 : Number := round64 (Q2Qc (3333 # 100)).
Definition deposit_cents : Routes.DepositBody :=
  Routes.mkDepositBody (JNumber thirty_three_33) None None.

(** U after the purchase of the scenario. *)
Definition user_U_after : User.t :=
  User.with_ledger (num 40) (num 0) (num 0) Scenario.user_U.

End Cases.

(* ===================================================================== *)
(** * Properties of the embedding *)
(* ===================================================================== *)

Section Semantics.
Variable clock : nat → Date.

Lemma run_bind {A B} (p : Prog A) (f : A → Prog B) w :
  run clock (p ≫= f) w =
    match run clock p w with
    | (w', Returned a) => run clock (f a) w'
    | (w', Uncaught e) => (w', Uncaught e)
    end.
Proof.
  revert w. induction p as [a|e|X op k IH]; intros w; try done.
  cbn. apply IH.
Qed.

Lemma run_try_catch {A} (p : Prog A) (h : Error → Prog A) w :
  run clock (try_catch p h) w =
    match run clock p w with
    | (w', Returned a) => (w', Returned a)
    | (w', Uncaught e) => run clock (h e) w'
    end.
Proof.
  revert w. induction p as [a|e|X op k IH]; intros w; try done.
  cbn. apply IH.
Qed.

Lemma run_new_Date w :
  run clock new_Date w = (mkWorld (store w) (S (tick w)), Returned (clock (tick w))).
Proof. done. Qed.

Lemma run_query {X} (f : DB → X) w :
  run clock (query f) w = (mkWorld (store w) (S (tick w)), Returned (f (store w))).
Proof. done. Qed.

Lemma run_write {X} (f : DB → DB * (Error + X)) w :
  run clock (write f) w =
    (mkWorld (f (store w)).1 (S (tick w)),
     match (f (store w)).2 with inl e => Uncaught e | inr x => Returned x end).
Proof. unfold write. cbn. by destruct (f (store w)) as [db [e|x]]. Qed.

Lemma run_tick {A} (p : Prog A) w : tick w ≤ tick (run clock p w).1.
Proof.
  revert w. induction p as [a|e|X op k IH]; intros w; cbn; try done.
  etrans; [|apply IH]. cbn. lia.
Qed.

Lemma monotone_le n m : monotone clock → n ≤ m → (clock n ≤ clock m)%Z.
Proof.
  intros Hm. induction 1 as [|m _ IH]; [done|]. etrans; [exact IH|apply Hm].
Qed.

End Semantics.

(** ** The logic of stable invariants *)

Section Stable.
Context (I : DB → Prop).

Lemma stable_weaken {A} (p : Prog A) (Q R : A → Prop) :
  (∀ a, Q a → R a) → stable I p Q → stable I p R.
Proof.
  intros HQR. induction p as [a|e|X op k IH]; cbn; [auto|done|].
  intros Hp now db HI. destruct (Hp now db HI) as [? ?]. split; [done|].
  by apply IH.
Qed.

Lemma stable_bind {A B} (p : Prog A) (f : A → Prog B) (Q : A → Prop) (R : B → Prop) :
  stable I p Q → (∀ a, Q a → stable I (f a) R) → stable I (p ≫= f) R.
Proof.
  intros Hp Hf. induction p as [a|e|X op k IH]; cbn in *; [auto|done|].
  intros now db HI. destruct (Hp now db HI) as [? ?]. split; [done|].
  by apply IH.
Qed.

Lemma stable_try_catch {A} (p : Prog A) (h : Error → Prog A) (Q : A → Prop) :
  stable I p Q → (∀ e, stable I (h e) Q) → stable I (try_catch p h) Q.
Proof.
  intros Hp Hh. induction p as [a|e|X op k IH]; cbn in *; [done|auto|].
  intros now db HI. destruct (Hp now db HI) as [? ?]. split; [done|].
  by apply IH.
Qed.

Lemma stable_new_Date (Q : Date → Prop) :
  (∀ now, Q now) → stable I new_Date Q.
Proof. intros HQ now db HI. cbn. auto. Qed.

Lemma stable_query {X} (f : DB → X) (Q : X → Prop) :
  (∀ db, I db → Q (f db)) → stable I (query f) Q.
Proof. intros HQ now db HI. cbn. auto. Qed.

Lemma stable_write {X} (f : DB → DB * (Error + X)) (Q : X → Prop) :
  (∀ db, I db → I (f db).1 ∧ ∀ x, (f db).2 = inr x → Q x) →
  stable I (write f) Q.
Proof.
  intros Hf now db HI. cbn. destruct (Hf db HI) as [? HQ]. split; [done|].
  destruct (f db).2 as [e|x]; cbn; auto.
Qed.

Lemma stable_step1 {A} clock (p : Prog A) (Q : A → Prop) w :
  stable I p Q → I (store w) →
  I (store (step1 clock p w).1) ∧ stable I (step1 clock p w).2 Q.
Proof.
  destruct p as [a|e|X op k]; cbn; [done..|].
  intros Hp HI. by destruct (Hp (clock (tick w)) (store w) HI).
Qed.

Lemma stable_run {A} clock (p : Prog A) (Q : A → Prop) w :
  stable I p Q → I (store w) →
  I (store (run clock p w).1) ∧
  ∀ a, (run clock p w).2 = Returned a → Q a.
Proof.
  revert w. induction p as [a|e|X op k IH]; intros w; cbn.
  - intros HQ HI. split; [done|]. by intros ? [= <-].
  - done.
  - intros Hp HI. destruct (Hp (clock (tick w)) (store w) HI) as [? ?].
    by apply IH.
Qed.

Lemma stable_interleave {A B} clock schedule (p : Prog A) (q : Prog B)
    (Q : A → Prop) (R : B → Prop) w :
  stable I p Q → stable I q R → I (store w) →
  let r := interleave clock schedule p q w in
  I (store r.1.1) ∧ stable I r.1.2 Q ∧ stable I r.2 R.
Proof.
  revert p q w. induction schedule as [|[] s IH]; intros p q w Hp Hq HI; cbn.
  - done.
  - destruct (stable_step1 clock p Q w Hp HI). by apply IH.
  - destruct (stable_step1 clock q R w Hq HI). by apply IH.
Qed.

Lemma stable_serve {R A} clock (handle : R → Prog A) (requests : list R) w :
  (∀ r, stable I (handle r) (λ _, True)) → I (store w) →
  I (store (serve clock handle requests w)).
Proof.
  intros Hall. revert w. induction requests as [|r rest IH]; intros w HI; cbn.
  - done.
  - apply IH. by destruct (stable_run clock (handle r) _ w (Hall r) HI).
Qed.

End Stable.

(** ** Queries *)

Section FindOne.
Context {D : Type} (filter : D → bool) (c : gmap ObjectId D).

Lemma findOne_Some id d :
  findOne filter c = Some (id, d) → c !! id = Some d ∧ filter d = true.
Proof.
  unfold findOne. intros ([i [id' d']] & Hfind & [= <- <-])%fmap_Some.
  apply list_find_Some in Hfind as (Hi & Hq & _).
  split; [|by apply Is_true_true].
  apply elem_of_map_to_list, list_elem_of_lookup. eauto.
Qed.

Lemma findOne_None :
  findOne filter c = None ↔ ∀ id d, c !! id = Some d → filter d = false.
Proof.
  unfold findOne. rewrite fmap_None, list_find_None, list.Forall_forall. split.
  - intros Hall id d Hd.
    specialize (Hall (id, d)). cbn in Hall.
    destruct (filter d); [|done]. exfalso. apply Hall; [|done].
    by rewrite elem_of_map_to_list.
  - intros Hall [id d] Hin%elem_of_map_to_list. cbn.
    rewrite (Hall id d Hin). intros [].
Qed.

Lemma findOne_is_Some :
  is_Some (findOne filter c) ↔ ∃ id d, c !! id = Some d ∧ filter d = true.
Proof.
  split.
  - intros [[id d] H]. exists id, d. by apply findOne_Some.
  - intros (id & d & Hd & Hq). destruct (findOne filter c) eqn:E; [done|].
    rewrite findOne_None in E. rewrite (E id d Hd) in Hq. done.
Qed.

(** With at most one candidate, as the unique indexes ensure, the lookup
    returns it. *)
Lemma findOne_unique id d :
  c !! id = Some d → filter d = true →
  (∀ id' d', c !! id' = Some d' → filter d' = true → id' = id) →
  findOne filter c = Some (id, d).
Proof.
  intros Hd Hq Huniq.
  destruct (findOne filter c) as [[id' d']|] eqn:E.
  - apply findOne_Some in E as [Hd' Hq'].
    assert (id' = id) as -> by eauto. congruence.
  - rewrite findOne_None in E. rewrite (E id d Hd) in Hq. done.
Qed.

End FindOne.

(** ** Arithmetic of amounts *)

(** On the samples, sums, differences and products as [round64] gives them
    are those of the kernel's binary64 arithmetic. *)
Example round64_agrees_with_binary64 :
  forallb (λ ab, binary64_agrees PrimFloat.add Js.add ab.1 ab.2
                 && binary64_agrees PrimFloat.sub Js.sub ab.1 ab.2
                 && binary64_agrees PrimFloat.mul Js.mul ab.1 ab.2)
    binary64_samples = true.
Proof. by vm_compute. Qed.

Lemma Q2Qc_nonneg (q : Q) : (0 <= q)%Q → (0 ≤ Q2Qc q)%Qc.
Proof.
  intros Hq. unfold Qcle. cbn. by rewrite !Qred_correct.
Qed.

Lemma rne_nonneg (a b : Z) : (0 ≤ a)%Z → (0 < b)%Z → (0 ≤ rne a b)%Z.
Proof.
  intros Ha Hb. unfold rne.
  pose proof (Z.div_pos a b Ha Hb).
  destruct (_ ?= _)%Z; [destruct (Z.even _)|..]; lia.
Qed.

Lemma scaled_nonneg (m e : Z) : (0 ≤ m)%Z → (0 ≤ scaled m e)%Qc.
Proof.
  intros Hm. unfold scaled. case_bool_decide.
  - apply Q2Qc_nonneg. unfold Qle. cbn.
    pose proof (Z.pow_nonneg 2 e). nia.
  - apply Q2Qc_nonneg. rewrite Qred_correct. unfold Qle. cbn. lia.
Qed.

(** Rounding keeps the sign: the double nearest to a number that is not
    negative is not negative. *)
Lemma round64_nonneg (q : Qc) : (0 ≤ q)%Qc → (num 0 ≤ round64 q)%J.
Proof.
  intros Hq. unfold le_num, round64, num.
  change (Q2Qc (inject_Z 0)) with (Q2Qc 0).
  destruct q as [[[|n|n] d] Hcanon]; cbn [Qnum Qden this].
  - cbn. by rewrite bool_decide_false by by apply Qcle_not_lt, Qcle_refl.
  - unfold round_pos. destruct (_ && _); [done|]. cbn [ltb].
    rewrite bool_decide_false; [done|]. apply Qcle_not_lt.
    apply scaled_nonneg, rne_nonneg.
    + apply Z.mul_nonneg_nonneg; [lia|apply Z.pow_nonneg; lia].
    + apply Z.mul_pos_pos; [lia|apply Z.pow_pos_nonneg; lia].
  - exfalso. unfold Qcle, Qle in Hq. cbn in Hq.
    change (Qred 0) with 0%Q in Hq. cbn in Hq. lia.
Qed.

Lemma num_nonneg (x : Qc) : (num 0 ≤ Finite x)%J ↔ (0 ≤ x)%Qc.
Proof.
  unfold le_num. cbn. rewrite bool_decide_eq_false.
  split; [apply Qcnot_lt_le|apply Qcle_not_lt].
Qed.

(** [b - a] after the check [b < a] came out false: it is not [NaN] unless
    both are the same infinity, and it is not negative. *)
Lemma sub_nonneg (b a r : Number) :
  (a ≤ b)%J → Js.sub (Some b) (Some a) = Some r → (num 0 ≤ r)%J.
Proof.
  unfold le_num. destruct b as [x|[]], a as [y|[]]; cbn; try done;
    try (by intros _ [= <-]).
  intros Hle%bool_decide_eq_false [= <-]. apply round64_nonneg.
  apply Qcnot_lt_le in Hle. by apply Qcle_minus_iff in Hle.
Qed.

Lemma sub_finite (b a : Number) :
  isFinite b = true ∨ isFinite a = true → is_Some (Js.sub (Some b) (Some a)).
Proof. destruct b, a; cbn; intros [?|?]; by eauto. Qed.

(** [b + a] of two numbers that are not negative is a number that is not
    negative. *)
Lemma add_nonneg (b a : Number) :
  (num 0 ≤ b)%J → (num 0 ≤ a)%J →
  ∃ r, Js.add (Some b) (Some a) = Some r ∧ (num 0 ≤ r)%J.
Proof.
  destruct b as [x|[]], a as [y|[]]; try done; cbn; intros Hb Ha;
    try (by eexists).
  apply num_nonneg in Hb, Ha. eexists. split; [done|].
  apply round64_nonneg. by apply Qcplus_nonneg_nonneg.
Qed.

(** [a * n] for [a] not negative and a whole number [n >= 1]. *)
Lemma mul_nonneg (a : Number) (n : Z) :
  (num 0 ≤ a)%J → (1 ≤ n)%Z →
  ∃ r, Js.mul (Some a) (Some (num n)) = Some r ∧ (num 0 ≤ r)%J.
Proof.
  intros Ha Hn.
  assert (0 < Q2Qc (inject_Z n))%Qc as Hpos.
  { unfold Qclt. cbn. rewrite !Qred_correct. unfold Qlt. cbn. lia. }
  destruct a as [x|[]]; [|done|]; cbn.
  - apply num_nonneg in Ha. eexists. split; [done|].
    apply round64_nonneg, Qcmult_nonneg_nonneg; [done|by apply Qclt_le_weak].
  - rewrite bool_decide_false;
      [|intros Heq; rewrite Heq in Hpos; by apply (Qcle_not_lt 0 0 (Qcle_refl 0))].
    rewrite bool_decide_false by by apply Qcle_not_lt, Qclt_le_weak.
    by eexists.
Qed.

Lemma num_le (n m : Z) : (n ≤ m)%Z → (num n ≤ num m)%J.
Proof.
  intros H. unfold le_num. cbn. rewrite bool_decide_eq_false.
  apply Qcle_not_lt. unfold Qcle. cbn. rewrite !Qred_correct.
  unfold Qle. cbn. lia.
Qed.

(** ** Whole numbers

    The doubles below [2^53] include every whole number, so sums and
    differences of whole numbers that stay below it are exact. *)

Lemma this_num (n : Z) : this (Q2Qc (inject_Z n)) = inject_Z n.
Proof. cbn [this Q2Qc]. apply Qred_identity. cbn. apply Z.gcd_1_r. Qed.

Lemma ilog2_whole (p : positive) : ilog2 p 1 = Z.log2 (Zpos p).
Proof.
  unfold ilog2. change (Z.log2 1) with 0%Z. rewrite Z.sub_0_r.
  pose proof (Z.log2_nonneg (Zpos p)) as Hk.
  pose proof (Z.log2_spec (Zpos p) eq_refl) as [Hlo _].
  rewrite (Z.max_l 0 (- _)), (Z.max_r 0 (Z.log2 _)) by lia.
  rewrite Z.pow_0_r, Z.mul_1_r, Z.mul_1_l.
  by rewrite (proj2 (Z.ltb_ge _ _) Hlo).
Qed.

Lemma rne_whole (a : Z) : rne a 1 = a.
Proof. unfold rne. by rewrite Z.mod_1_r, Z.div_1_r. Qed.

Lemma scaled_whole (p j : Z) :
  (0 ≤ j)%Z → scaled (p * 2 ^ j) (- j) = Q2Qc (inject_Z p).
Proof.
  intros Hj. apply Qc_is_canon. unfold scaled.
  pose proof (Z.pow_pos_nonneg 2 j eq_refl Hj) as Hpos.
  case_bool_decide as He.
  - assert (j = 0%Z) as -> by lia. cbn [this Q2Qc]. rewrite !Qred_correct.
    unfold Qeq. cbn. lia.
  - cbn [this Q2Qc]. rewrite !Qred_correct, Z.opp_involutive.
    unfold Qeq. cbn [Qnum Qden inject_Z]. rewrite Z2Pos.id by done. lia.
Qed.

Lemma round64_whole (n : Z) :
  (0 ≤ n < 2 ^ 53)%Z → round64 (Q2Qc (inject_Z n)) = num n.
Proof.
  intros [Hlo Hhi]. unfold round64. rewrite this_num. cbn [Qnum Qden inject_Z].
  destruct n as [|p|p]; [done| |lia].
  unfold round_pos. rewrite ilog2_whole.
  pose proof (Z.log2_nonneg (Zpos p)) as Hk.
  assert (Z.log2 (Zpos p) < 53)%Z as Hk53 by (by apply Z.log2_lt_pow2).
  set (k := Z.log2 (Zpos p)) in *.
  rewrite (Z.max_l k) by lia.
  replace (k - 52)%Z with (- (52 - k))%Z by lia.
  rewrite Z.opp_involutive, (Z.max_r 0 (52 - k)), (Z.max_l 0 (- _)) by lia.
  rewrite Z.pow_0_r, Z.mul_1_r, rne_whole.
  rewrite scaled_whole by lia.
  rewrite andb_false_intro2; [done|].
  apply bool_decide_eq_false. intros Hbig.
  destruct (decide (k = 52%Z)) as [->|Hne].
  - revert Hbig. change (- (52 - 52))%Z with 0%Z.
    rewrite !Z.pow_0_r, !Z.mul_1_r.
    assert (2 ^ 53 < 2 ^ 1024)%Z by (apply Z.pow_lt_mono_r; lia). lia.
  - rewrite (Z.pow_neg_r 2 (- (52 - k))), Z.mul_0_r in Hbig by lia.
    pose proof (Z.pow_pos_nonneg 2 1024 eq_refl). lia.
Qed.

Lemma num_plus (a b : Z) :
  (Q2Qc (inject_Z a) + Q2Qc (inject_Z b))%Qc = Q2Qc (inject_Z (a + b)).
Proof.
  apply Qc_is_canon. unfold Qcplus. cbn [this Q2Qc].
  rewrite !Qred_correct. by rewrite inject_Z_plus.
Qed.

Lemma num_opp (a : Z) : (- Q2Qc (inject_Z a))%Qc = Q2Qc (inject_Z (- a)).
Proof.
  apply Qc_is_canon. unfold Qcopp. cbn [this Q2Qc].
  rewrite !Qred_correct. by rewrite inject_Z_opp.
Qed.

(** The sum of two whole numbers, below [2^53]. *)
Lemma add_whole (a b : Z) :
  (0 ≤ a)%Z → (0 ≤ b)%Z → (a + b < 2 ^ 53)%Z →
  Js.add (Some (num a)) (Some (num b)) = Some (num (a + b)).
Proof.
  intros Ha Hb Hsum. cbn [Js.add plus num].
  by rewrite num_plus, round64_whole by lia.
Qed.

(** The difference of two whole numbers, below [2^53]. *)
Lemma sub_whole (a b : Z) :
  (0 ≤ b ≤ a)%Z → (a < 2 ^ 53)%Z →
  Js.sub (Some (num a)) (Some (num b)) = Some (num (a - b)).
Proof.
  intros Hb Ha. cbn [Js.sub plus opp num].
  by rewrite num_opp, num_plus, round64_whole by lia.
Qed.

(** ** The ledger: [findById], [save] and the balance methods *)

Section Ledger.
Variable clock : nat → Date.

Lemma run_user_findById id w :
  run clock (UserModel.findById id) w
  = (next (store w) w, Returned (UserModel.hydrate None id <$> users (store w) !! id)).
Proof. done. Qed.

(** A save that passes validation writes the assigned paths onto the stored
    document. *)
Lemma run_user_save (d : UserModel.Document) u w :
  UserModel.invalid_paths d = [] → UserModel.modified d = true →
  users (store w) !! UserModel._id d = Some u →
  run clock (UserModel.save d) w
  = (next (put_user (UserModel._id d) (UserModel.stored d u) (store w)) w, Returned d).
Proof.
  intros Hv Hm Hu. unfold UserModel.save. rewrite Hv, Hm, run_write.
  by rewrite Hu.
Qed.

Lemma run_user_save_invalid (d : UserModel.Document) w :
  UserModel.invalid_paths d ≠ [] →
  run clock (UserModel.save d) w
  = (w, Uncaught (ValidationError (UserModel.invalid_paths d))).
Proof.
  intros Hv. unfold UserModel.save. by destruct (UserModel.invalid_paths d).
Qed.

Lemma run_deductBalance_insufficient id (u : User.t) (amount : Number) w :
  (User.balance u < amount)%J →
  run clock (UserModel.deductBalance (UserModel.hydrate None id u) (Some amount)) w
  = (w, Uncaught (JsError "Insufficient balance")).
Proof.
  intros Hlt. unfold UserModel.deductBalance.
  cbn [UserModel.hydrate UserModel.balance read Js.lt]. by rewrite Hlt.
Qed.

(** A debit that passes the check: the difference is stored, unless it is
    [NaN] (both the balance and the amount are the same infinity). *)
Lemma run_deductBalance id (u u' : User.t) (amount r : Number) w :
  (amount ≤ User.balance u)%J →
  Js.sub (Some (User.balance u)) (Some amount) = Some r →
  users (store w) !! id = Some u' →
  run clock (UserModel.deductBalance (UserModel.hydrate None id u) (Some amount)) w
  = (next (put_user id
             (User.with_ledger r (User.totalTrips u') (User.totalExpense u') u')
             (store w)) w,
     Returned (UserModel.set_balance (Some r) (UserModel.hydrate None id u))).
Proof.
  intros Hge Hsub Hu. unfold UserModel.deductBalance.
  cbn [UserModel.hydrate UserModel.balance read Js.lt].
  rewrite Hge, Hsub.
  erewrite run_user_save; [done| |done|done].
  unfold UserModel.invalid_paths. cbn.
  by rewrite (sub_nonneg _ _ _ Hge Hsub).
Qed.

(** The same when the difference is [NaN]: the assignment does not cast and
    [save] rejects. *)
Lemma run_deductBalance_NaN id (u : User.t) (amount : Number) w :
  (amount ≤ User.balance u)%J →
  Js.sub (Some (User.balance u)) (Some amount) = None →
  run clock (UserModel.deductBalance (UserModel.hydrate None id u) (Some amount)) w
  = (w, Uncaught (ValidationError ["balance"])).
Proof.
  intros Hge Hsub. unfold UserModel.deductBalance.
  cbn [UserModel.hydrate UserModel.balance read Js.lt].
  by rewrite Hge, Hsub.
Qed.

(** A credit whose result is a number that is not negative is stored. *)
Lemma run_addBalance id (u u' : User.t) (amount : Json) (r : Number) w :
  Js.add_json (Some (User.balance u)) amount = Some r →
  (num 0 ≤ r)%J →
  users (store w) !! id = Some u' →
  run clock (UserModel.addBalance (UserModel.hydrate None id u) amount) w
  = (next (put_user id
             (User.with_ledger r (User.totalTrips u') (User.totalExpense u') u')
             (store w)) w,
     Returned (UserModel.set_balance (Some r) (UserModel.hydrate None id u))).
Proof.
  intros Hadd Hge Hu. unfold UserModel.addBalance.
  cbn [UserModel.hydrate UserModel.balance read]. rewrite Hadd.
  erewrite run_user_save; [done| |done|done].
  unfold UserModel.invalid_paths. cbn. by rewrite Hge.
Qed.

End Ledger.

(** [save] never stores a negative balance, whatever document it is given:
    the [min] validator of the schema stands in the way. *)
Lemma stable_user_save (d : UserModel.Document) :
  stable ledger_valid (UserModel.save d) (λ _, True).
Proof.
  unfold UserModel.save. destruct (UserModel.invalid_paths d) eqn:Hv; [|done].
  destruct (UserModel.modified d); [|done].
  apply stable_write. intros db HI.
  destruct (users db !! UserModel._id d) as [u|] eqn:Hu; [|done].
  split; [|done]. apply map_Forall_insert_2; [|done].
  unfold UserModel.stored. cbn. unfold UserModel.invalid_paths in Hv.
  destruct (UserModel.balance d) as [|b|b|prior]; cbn in *;
    try by apply (HI _ _ Hu).
  unfold le_num. by destruct (ltb b (num 0)).
Qed.

Lemma stable_user_findById id :
  stable ledger_valid (UserModel.findById id) (λ _, True).
Proof. by apply stable_query. Qed.

Lemma stable_addBalance d amount :
  stable ledger_valid (UserModel.addBalance d amount) (λ _, True).
Proof. apply stable_user_save. Qed.

Lemma stable_deductBalance d amount :
  stable ledger_valid (UserModel.deductBalance d amount) (λ _, True).
Proof.
  unfold UserModel.deductBalance. case_match; [done|apply stable_user_save].
Qed.

Lemma stable_updateTripStats d tripFare :
  stable ledger_valid (UserModel.updateTripStats d tripFare) (λ _, True).
Proof. apply stable_user_save. Qed.

(* ===================================================================== *)
(** * The balance ledger *)
(* ===================================================================== *)

Lemma stable_ledger id op : stable ledger_valid (ledger id op) (λ _, True).
Proof.
  eapply stable_bind; [apply stable_user_findById|].
  intros [user|] _; [|done].
  destruct op; [apply stable_addBalance|apply stable_deductBalance].
Qed.

(** C1. Whatever Deposit and Debit operations are run, on whatever users and
    in whatever order, no stored balance is negative afterwards; and a Debit
    of more than the stored balance fails with the error 'Insufficient
    balance' and leaves the store, so the balance, exactly as it was. *)
Theorem ledger_balance_never_negative (clock : nat → Date) (w : World)
    (ops : list (ObjectId * LedgerOp)) :
  ledger_valid (store w) →
  ledger_valid (store (serve clock (λ o, ledger o.1 o.2) ops w))
  ∧ ∀ id u amount,
      users (store w) !! id = Some u →
      (User.balance u < amount)%J →
      ∃ w', run clock (ledger id (Debit amount)) w
            = (w', Uncaught (JsError "Insufficient balance"))
            ∧ store w' = store w.
Proof.
  intros Hvalid. split.
  - apply stable_serve; [|done]. intros [id op]. apply stable_ledger.
  - intros id u amount Hu Hlt. eexists. unfold ledger.
    rewrite run_bind, run_user_findById, Hu. cbn [fmap option_fmap option_map].
    rewrite run_deductBalance_insufficient by done. done.
Qed.

(* ===================================================================== *)
(** * Issuing a trip *)
(* ===================================================================== *)

Ltac run_steps :=
  repeat (rewrite ?run_bind, ?run_try_catch, ?run_new_Date, ?run_query,
            ?run_user_findById;
          cbn [store tick next fmap option_fmap option_map fst snd]).

(** The numbers of a trip pass the validators of the schema: the fare is not
    negative, the passengers are 1 to 10, and the total is their product as
    the handler computes it. *)
Lemma trip_numbers_valid (fare total : Number) (n : Z) :
  (num 0 ≤ fare)%J → (1 ≤ n ≤ 10)%Z →
  Js.mul (Some fare) (Some (num n)) = Some total →
  TripModel.invalid_numbers fare (num n) total = [].
Proof.
  intros Hfare [Hlo Hhi] Hmul. unfold TripModel.invalid_numbers.
  destruct (mul_nonneg fare n Hfare Hlo) as (r & Hr & Hnonneg).
  rewrite Hmul in Hr. injection Hr as <-.
  by rewrite Hfare, (num_le 1 n Hlo), (num_le n 10 Hhi), Hnonneg.
Qed.

Lemma getFare_filter_spec fromStation toStation fareType now f :
  FareModel.getFare_filter fromStation toStation fareType now f = true
  ↔ matches_getFare fromStation toStation fareType now f.
Proof.
  unfold FareModel.getFare_filter, matches_getFare.
  rewrite !andb_true_iff, !bool_decide_eq_true.
  destruct (Fare.effectiveTo f) as [till|].
  - rewrite bool_decide_eq_true. split.
    + intros [[[[? ?] ?] ?] ?]. split_and!; eauto.
    + intros (? & ? & ? & ? & [|(? & [= <-] & ?)]); [done|]. by split_and!.
  - split; [intros [[[[? ?] ?] ?] ?]; split_and!; auto|].
    intros (? & ? & ? & ? & _). by split_and!.
Qed.

(** Under the unique index on route and type, the query of [getFare] returns
    the stored row that meets its filter. *)
Lemma getFare_filter_finds (db : DB) fromStation toStation fareType now fid f :
  fares_unique db → fares db !! fid = Some f →
  matches_getFare fromStation toStation fareType now f →
  findOne (FareModel.getFare_filter fromStation toStation fareType now) (fares db)
  = Some (fid, f).
Proof.
  intros Huniq Hf Hm. apply findOne_unique; [done|by apply getFare_filter_spec|].
  intros id' f' Hf' Hm'%getFare_filter_spec.
  apply (Huniq id' fid f' f Hf' Hf).
  destruct Hm as (? & ? & ? & _), Hm' as (? & ? & ? & _).
  unfold FareDocs.same_route. split_and!; congruence.
Qed.

Section Issue.
Variable clock : nat → Date.

Lemma run_trip_create uuid user fromStation toStation fare n total pm w :
  TripModel.invalid_numbers fare n total = [] →
  TripModel.code_in_use (TripModel.default_tripCode uuid) (trips (store w)) = false →
  let id := fresh (dom (trips (store w))) in
  let t := new_trip uuid user fromStation toStation fare n total pm (clock (tick w)) in
  run clock (TripModel.create uuid user fromStation toStation fare n (Some total) pm) w
  = (mkWorld (put_trip id t (store w)) (2 + tick w), Returned (TripModel.hydrate id t)).
Proof.
  intros Hv Hfree id t. unfold TripModel.create. run_steps.
  rewrite Hv, run_write. cbn [store tick Trip.tripCode]. by rewrite Hfree.
Qed.

Lemma fresh_trip_id (db : DB) : trips db !! fresh (dom (trips db)) = None.
Proof. apply not_elem_of_dom, is_fresh. Qed.

(** Paid from the balance by a requester who is not stored: reading
    [user.balance] of [null] throws, nothing is written. *)
Lemma run_createTrip_user_missing req_user uuid body fid f w :
  (1 ≤ Routes.numberOfPassengers body ≤ 10)%Z →
  findOne (FareModel.getFare_filter (Routes.fromStation body) (Routes.toStation body)
             regular (clock (tick w))) (fares (store w)) = Some (fid, f) →
  users (store w) !! req_user = None →
  default by_balance (Routes.paymentMethod body) = by_balance →
  run clock (Routes.createTrip req_user uuid body) w
  = (mkWorld (store w) (3 + tick w), Uncaught TypeError).
Proof.
  intros Hn Hfare Hu Hpm.
  unfold Routes.createTrip, Routes.createTripValidation.
  rewrite bool_decide_true, Hpm by done.
  unfold FareModel.getFare. run_steps. rewrite Hfare. run_steps. rewrite Hu.
  run_steps. by rewrite bool_decide_true by done.
Qed.

(** C3. An Issue paid from the balance, for a route with a fare, by a user
    whose balance is below fare times passengers (the product as the handler
    computes it, in double precision), is answered 400 'Insufficient
    balance'; the store is left as it was: no trip is created and the
    balance is unchanged. *)
Theorem issue_insufficient_balance (w : World) (req_user : ObjectId) (uuid : string)
    (body : Routes.CreateTripBody) (fid : ObjectId) (f : Fare.t) (u : User.t)
    (total : Number) :
  (1 ≤ Routes.numberOfPassengers body ≤ 10)%Z →
  default by_balance (Routes.paymentMethod body) = by_balance →
  fares_unique (store w) →
  fares (store w) !! fid = Some f →
  matches_getFare (Routes.fromStation body) (Routes.toStation body) regular
    (clock (tick w)) f →
  users (store w) !! req_user = Some u →
  Js.mul (Some (Fare.fare f)) (Some (num (Routes.numberOfPassengers body)))
  = Some total →
  (User.balance u < total)%J →
  ∃ w', run clock (Routes.createTrip req_user uuid body) w
        = (w', Returned (errorResponse (Text "Insufficient balance") 400))
        ∧ store w' = store w
        ∧ trips (store w') = trips (store w)
        ∧ users (store w') !! req_user = Some u.
Proof.
  intros Hn Hpm Huniq Hf Hm Hu Hmul Hlt. eexists.
  pose proof (getFare_filter_finds _ _ _ _ _ _ _ Huniq Hf Hm) as Hfare.
  unfold Routes.createTrip, Routes.createTripValidation.
  rewrite bool_decide_true, Hpm by done.
  unfold FareModel.getFare. run_steps. rewrite Hfare. run_steps. rewrite Hu.
  run_steps. rewrite bool_decide_true by done.
  cbn [UserModel.hydrate UserModel.balance read run]. rewrite Hmul.
  cbn [Js.lt]. by rewrite Hlt.
Qed.

(** C2 (amended). An Issue for 1 to 10 passengers, with any payment method,
    for a station pair whose regular fare row is active and has not ended
    (effectiveTo null or not before the current time) and holds a price that
    is not negative, with a trip code not in use and, when paid from the
    balance, a user whose balance is not below totalAmount = price times
    passengers (the product in double precision, as the handler computes
    it; the two not both infinite), is answered 201: one trip is stored, with
    that totalAmount, status 'created' and expiresAt = the clock reading at
    creation + 24 hours. When paid from the balance the stored balance of
    the user becomes balance - totalAmount in the same request (the
    difference in double precision), nothing else of the user changing; with
    the other payment methods the users are left as they were. *)
Theorem issue_creates_trip (w : World) (req_user : ObjectId) (uuid : string)
    (body : Routes.CreateTripBody) (fid : ObjectId) (f : Fare.t) (total : Number) :
  (1 ≤ Routes.numberOfPassengers body ≤ 10)%Z →
  fares_unique (store w) →
  fares (store w) !! fid = Some f →
  matches_getFare (Routes.fromStation body) (Routes.toStation body) regular
    (clock (tick w)) f →
  (num 0 ≤ Fare.fare f)%J →
  Js.mul (Some (Fare.fare f)) (Some (num (Routes.numberOfPassengers body)))
  = Some total →
  TripModel.code_in_use (TripModel.default_tripCode uuid) (trips (store w)) = false →
  let pm := default by_balance (Routes.paymentMethod body) in
  (pm = by_balance →
   ∃ u, users (store w) !! req_user = Some u
        ∧ (total ≤ User.balance u)%J
        ∧ (isFinite (User.balance u) = true ∨ isFinite total = true)) →
  let created_at := clock (3 + tick w) in
  let id := fresh (dom (trips (store w))) in
  let t := new_trip uuid req_user (Routes.fromStation body) (Routes.toStation body)
             (Fare.fare f) (num (Routes.numberOfPassengers body)) total
             pm created_at in
  ∃ w', run clock (Routes.createTrip req_user uuid body) w
        = (w', Returned (successResponse (TripModel.hydrate id t)
                           "Trip created successfully" 201))
        ∧ trips (store w) !! id = None
        ∧ trips (store w') = <[id := t]> (trips (store w))
        ∧ Trip.totalAmount t = total
        ∧ Trip.status t = created
        ∧ Trip.expiresAt t = (created_at + 24 * 60 * 60 * 1000)%Z
        ∧ (pm ≠ by_balance → users (store w') = users (store w))
        ∧ (pm = by_balance →
           ∀ u, users (store w) !! req_user = Some u →
             ∃ b', Js.sub (Some (User.balance u)) (Some total) = Some b'
                   ∧ users (store w')
                     = <[req_user := User.with_ledger b' (User.totalTrips u)
                                       (User.totalExpense u) u]>
                         (users (store w))).
Proof.
  intros Hn Huniq Hf Hm Hvalid Hmul Hfree pm Hbal created_at id t.
  pose proof (getFare_filter_finds _ _ _ _ _ _ _ Huniq Hf Hm) as Hfare.
  pose proof (trip_numbers_valid _ _ _ Hvalid Hn Hmul) as Hnumbers.
  unfold Routes.createTrip, Routes.createTripValidation.
  rewrite bool_decide_true by done. fold pm.
  unfold FareModel.getFare. run_steps. rewrite Hfare. run_steps. rewrite Hmul.
  destruct (decide (pm = by_balance)) as [Hpm|Hpm].
  - destruct (Hbal Hpm) as (u & Hu & Hle & Hfinite).
    destruct (sub_finite (User.balance u) total Hfinite) as [b' Hsub].
    rewrite Hu. run_steps. rewrite !bool_decide_true by done.
    cbn [UserModel.hydrate UserModel.balance read Js.lt run]. rewrite Hle.
    run_steps. rewrite run_trip_create by done. run_steps.
    erewrite (run_deductBalance clock req_user u u) by done.
    cbn [run]. eexists. split_and!; try done; [apply fresh_trip_id|].
    intros _ u' [= <-]. by exists b'.
  - rewrite !bool_decide_false by done. run_steps. cbn [run]. run_steps.
    rewrite run_trip_create by done. run_steps.
    eexists. split_and!; try done. apply fresh_trip_id.
Qed.

(** C10 (amended). An Issue paid by cash or by card, for 1 to 10 passengers
    and a station pair whose regular fare row is active, has not ended and
    holds a price that is not negative, with a trip code not in use, runs no
    balance check: whatever the users collection holds (no balance, a zero
    balance, not even the user), it is answered 201, the users collection is
    left as it was (balance, totalTrips and totalExpense unchanged), and the
    trip stored has paymentStatus 'pending'. *)
Theorem issue_by_cash_or_card (w : World) (req_user : ObjectId) (uuid : string)
    (body : Routes.CreateTripBody) (pm : PaymentMethod) (fid : ObjectId) (f : Fare.t) :
  (1 ≤ Routes.numberOfPassengers body ≤ 10)%Z →
  Routes.paymentMethod body = Some pm →
  pm = by_cash ∨ pm = by_card →
  fares_unique (store w) →
  fares (store w) !! fid = Some f →
  matches_getFare (Routes.fromStation body) (Routes.toStation body) regular
    (clock (tick w)) f →
  (num 0 ≤ Fare.fare f)%J →
  TripModel.code_in_use (TripModel.default_tripCode uuid) (trips (store w)) = false →
  let id := fresh (dom (trips (store w))) in
  ∃ w' t, run clock (Routes.createTrip req_user uuid body) w
          = (w', Returned (successResponse (TripModel.hydrate id t)
                             "Trip created successfully" 201))
          ∧ users (store w') = users (store w)
          ∧ trips (store w') = <[id := t]> (trips (store w))
          ∧ Trip.user t = req_user
          ∧ Js.mul (Some (Fare.fare f)) (Some (num (Routes.numberOfPassengers body)))
            = Some (Trip.totalAmount t)
          ∧ Trip.paymentMethod t = pm
          ∧ Trip.paymentStatus t = pending.
Proof.
  intros Hn Hbody Hpm Huniq Hf Hm Hvalid Hfree id.
  pose proof (getFare_filter_finds _ _ _ _ _ _ _ Huniq Hf Hm) as Hfare.
  destruct (mul_nonneg (Fare.fare f) (Routes.numberOfPassengers body))
    as (total & Hmul & _); [done|lia|].
  pose proof (trip_numbers_valid _ _ _ Hvalid Hn Hmul) as Hnumbers.
  unfold Routes.createTrip, Routes.createTripValidation.
  rewrite bool_decide_true, Hbody by done. cbn [default].
  unfold FareModel.getFare. run_steps. rewrite Hfare. run_steps. rewrite Hmul.
  rewrite !(bool_decide_false (pm = by_balance)) by (by destruct Hpm as [-> | ->]).
  run_steps. cbn [run]. run_steps.
  rewrite run_trip_create by done. run_steps.
  by eexists _, (new_trip _ _ _ _ _ _ total _ _).
Qed.

End Issue.

(* ===================================================================== *)
(** * No request stores a negative balance *)
(* ===================================================================== *)


Lemma stable_bind_True (I : DB → Prop) {A B} (p : Prog A) (f : A → Prog B)
    (R : B → Prop) :
  stable I p (λ _, True) → (∀ a, stable I (f a) R) → stable I (p ≫= f) R.
Proof. intros Hp Hf. eapply stable_bind; [exact Hp|]. auto. Qed.

Lemma stable_True (I : DB → Prop) {A} (p : Prog A) (Q : A → Prop) :
  stable I p Q → stable I p (λ _, True).
Proof. by apply stable_weaken. Qed.

Lemma stable_ledger_write {X} (f : DB → DB * (Error + X)) :
  (∀ db, users (f db).1 = users db) →
  stable ledger_valid (write f) (λ _, True).
Proof.
  intros Hf. apply stable_write. intros db HI. split; [|done].
  unfold ledger_valid. by rewrite Hf.
Qed.

Lemma stable_ledger_trip_save d :
  stable ledger_valid (TripModel.save d) (λ _, True).
Proof.
  unfold TripModel.save. destruct (TripModel.invalid_paths d); [|done].
  destruct (TripModel.modified d); [|done].
  apply stable_ledger_write. intros db. by destruct (trips db !! _).
Qed.

Lemma stable_ledger_trip_create uuid user fromStation toStation fare n total pm :
  stable ledger_valid
    (TripModel.create uuid user fromStation toStation fare n total pm) (λ _, True).
Proof.
  unfold TripModel.create. apply stable_bind_True; [by apply stable_new_Date|].
  intros now. destruct total as [total|]; [|done].
  destruct (TripModel.invalid_numbers fare n total); [|done].
  apply stable_ledger_write. intros db. by destruct (TripModel.code_in_use _ _).
Qed.

Ltac stable_ledger_step :=
  first
    [ apply stable_user_save | apply stable_deductBalance | apply stable_addBalance
    | apply stable_updateTripStats | apply stable_user_findById
    | apply stable_ledger_trip_save | apply stable_ledger_trip_create
    | apply stable_new_Date; intros | apply stable_query; intros
    | apply stable_bind_True; [|intros]
    | apply stable_try_catch; [|intros]
    | case_match
    | done ].

Lemma stable_ledger_handle (r : Request) :
  stable ledger_valid (handle r) (λ _, True).
Proof.
  destruct r; unfold handle, Routes.createTrip, Routes.useTrip,
    Routes.completeJourney, Routes.depositMoney, Routes.getFareBetweenStations,
    Routes.getFareInBetween, FareModel.getFare, TripModel.getValidTrip,
    TripModel.populate_user, TripModel.useTrip, TripModel.completeJourney,
    TripModel.findById;
    repeat stable_ledger_step.
Qed.

(* ===================================================================== *)
(** * Redeeming a trip *)
(* ===================================================================== *)

Section Redeem.
Variable clock : nat → Date.

Lemma run_getValidTrip_found tripCode id t w :
  findOne (TripModel.getValidTrip_filter tripCode (clock (tick w)))
    (trips (store w)) = Some (id, t) →
  run clock (TripModel.getValidTrip tripCode) w
  = (mkWorld (store w) (3 + tick w),
     Returned (Some (valid_trip_document (store w) id t))).
Proof.
  intros Hfind. unfold TripModel.getValidTrip. run_steps. by rewrite Hfind.
Qed.

Lemma run_getValidTrip_none tripCode w :
  findOne (TripModel.getValidTrip_filter tripCode (clock (tick w)))
    (trips (store w)) = None →
  run clock (TripModel.getValidTrip tripCode) w
  = (mkWorld (store w) (2 + tick w), Returned None).
Proof.
  intros Hfind. unfold TripModel.getValidTrip. run_steps. by rewrite Hfind.
Qed.

Lemma run_trip_save (d : TripModel.Document) t w :
  TripModel.invalid_paths d = [] → TripModel.modified d = true →
  trips (store w) !! TripModel._id d = Some t →
  run clock (TripModel.save d) w
  = (next (put_trip (TripModel._id d) (TripModel.stored d t) (store w)) w, Returned d).
Proof.
  intros Hv Hm Ht. unfold TripModel.save. rewrite Hv, Hm, run_write.
  by rewrite Ht.
Qed.

(** The owner, loaded without its counters: they read as [undefined], the
    sums are [NaN], the assignments fail to cast and [save] rejects, before
    anything is written. *)
Lemma run_updateTripStats_projected id (u : User.t) (tripFare : Number) w :
  run clock
    (UserModel.updateTripStats
       (UserModel.hydrate (Some ["fullName"; "phoneNumber"]) id u) (Some tripFare)) w
  = (w, Uncaught (ValidationError ["totalTrips"; "totalExpense"])).
Proof. done. Qed.

(** The same method on a fully loaded owner does count the trip: the
    counters become the sums, as long as these are numbers. *)
Lemma run_updateTripStats_loaded id (u : User.t) (tripFare n' e' : Number) w :
  (num 0 ≤ User.balance u)%J →
  users (store w) !! id = Some u →
  Js.add (Some (User.totalTrips u)) (Some (num 1)) = Some n' →
  Js.add (Some (User.totalExpense u)) (Some tripFare) = Some e' →
  (run clock
     (UserModel.updateTripStats (UserModel.hydrate None id u) (Some tripFare)) w).1
  = next (put_user id (User.with_ledger (User.balance u) n' e' u) (store w)) w.
Proof.
  intros Hb Hu Hn He. unfold UserModel.updateTripStats.
  cbn [UserModel.hydrate UserModel.totalTrips UserModel.totalExpense read
       UserModel.set_totalTrips].
  rewrite Hn, He.
  erewrite run_user_save; [done| |done|done].
  unfold UserModel.invalid_paths. cbn. by rewrite Hb.
Qed.

(** C4. A Redeem of a code whose trip the lookup finds (status 'created',
    expiresAt after the clock reading of the query) and which has not lapsed
    when the method checks again: the trip is stored as 'used', with usedAt
    and journeyStartTime the clock readings taken at their assignment. The
    owner's counters are NOT incremented: the users collection is left as it
    was and the request is answered 400 with the validation error of
    totalTrips and totalExpense. *)
Theorem redeem_marks_used_without_counting (w : World) (tripCode : string)
    (id : ObjectId) (t : Trip.t) (owner : User.t) :
  findOne (TripModel.getValidTrip_filter tripCode (clock (tick w)))
    (trips (store w)) = Some (id, t) →
  ¬ (Trip.expiresAt t < clock (3 + tick w))%Z →
  TripModel.invalid_numbers (Trip.fare t) (Trip.numberOfPassengers t)
    (Trip.totalAmount t) = [] →
  users (store w) !! Trip.user t = Some owner →
  ∃ w', run clock (Routes.useTrip tripCode) w
        = (w', Returned (errorResponse
                           (MessageOf (ValidationError ["totalTrips"; "totalExpense"]))
                           400))
        ∧ trips (store w')
          = <[id := Trip.with_journey used (Some (clock (4 + tick w)))
                      (Some (clock (5 + tick w))) (Trip.journeyEndTime t) t]>
              (trips (store w))
        ∧ users (store w') = users (store w)
        ∧ users (store w') !! Trip.user t = Some owner.
Proof.
  intros Hfind Hlive Hvalid Howner.
  apply findOne_Some in Hfind as Hstored. destruct Hstored as [Ht Hfilter].
  unfold TripModel.getValidTrip_filter in Hfilter.
  apply andb_true_iff in Hfilter as [[_ Hstatus]%andb_true_iff _].
  apply bool_decide_eq_true in Hstatus.
  eexists. split.
  - unfold Routes.useTrip. rewrite run_bind, (run_getValidTrip_found _ id t) by done.
    unfold valid_trip_document. rewrite Howner. cbn [fmap option_fmap option_map].
    rewrite run_try_catch, run_bind. unfold TripModel.useTrip.
    cbn [TripModel.set_user TripModel.hydrate TripModel.status
         TripModel.expiresAt read].
    rewrite Hstatus, bool_decide_false by (by intros []).
    run_steps. rewrite bool_decide_false by done. run_steps.
    erewrite run_trip_save; [|done|done|exact Ht].
    cbn [TripModel.user TripModel.set_user TripModel.set_status
         TripModel.set_usedAt TripModel.set_journeyStartTime TripModel.set_journey
         TripModel.totalAmount TripModel.hydrate].
    run_steps. rewrite run_updateTripStats_projected. cbn [run]. done.
  - cbn. done.
Qed.

(** A trip still valid when looked up that lapses before the method checks
    again: the handler answers 400 'Trip has expired'; the status 'expired'
    is assigned in memory only, the store is left as it was. *)
Lemma redeem_lapsing_in_flight (w : World) (tripCode : string) (id : ObjectId)
    (t : Trip.t) :
  findOne (TripModel.getValidTrip_filter tripCode (clock (tick w)))
    (trips (store w)) = Some (id, t) →
  (Trip.expiresAt t < clock (3 + tick w))%Z →
  ∃ w', run clock (Routes.useTrip tripCode) w
        = (w', Returned (errorResponse (MessageOf (JsError "Trip has expired")) 400))
        ∧ store w' = store w.
Proof.
  intros Hfind Hlapsed. eexists.
  apply findOne_Some in Hfind as Hstored. destruct Hstored as [Ht Hfilter].
  unfold TripModel.getValidTrip_filter in Hfilter.
  apply andb_true_iff in Hfilter as [[_ Hstatus]%andb_true_iff _].
  apply bool_decide_eq_true in Hstatus.
  unfold Routes.useTrip. rewrite run_bind, (run_getValidTrip_found _ id t) by done.
  rewrite run_try_catch, run_bind.
  unfold TripModel.useTrip at 1.
  cbn [valid_trip_document TripModel.set_user TripModel.hydrate TripModel.status
       TripModel.expiresAt read].
  rewrite Hstatus, bool_decide_false by (by intros []).
  run_steps. by rewrite bool_decide_true by done.
Qed.

(** A code none of whose trips is still running: the lookup finds nothing. *)
Lemma lapsed_not_found (db : DB) (tripCode : string) (now : Date) :
  (∀ id t, trips db !! id = Some t → Trip.tripCode t = tripCode →
           (Trip.expiresAt t ≤ now)%Z) →
  findOne (TripModel.getValidTrip_filter tripCode now) (trips db) = None.
Proof.
  intros Hlapsed. apply findOne_None. intros id t Ht.
  unfold TripModel.getValidTrip_filter.
  destruct (bool_decide (Trip.tripCode t = tripCode)) eqn:Hcode; [|done].
  apply bool_decide_eq_true in Hcode.
  rewrite (bool_decide_false (_ < _)%Z); [by rewrite andb_false_r|].
  specialize (Hlapsed id t Ht Hcode). lia.
Qed.

Lemma run_useTrip_lapsed (w : World) (tripCode : string) :
  (∀ id t, trips (store w) !! id = Some t → Trip.tripCode t = tripCode →
           (Trip.expiresAt t ≤ clock (tick w))%Z) →
  run clock (Routes.useTrip tripCode) w
  = (mkWorld (store w) (2 + tick w),
     Returned (errorResponse (Text "Invalid or expired trip code") 404)).
Proof.
  intros Hlapsed. unfold Routes.useTrip.
  by rewrite run_bind, run_getValidTrip_none by by apply lapsed_not_found.
Qed.

(** C5. A Redeem of a code whose trip has lapsed is answered 404, and so is
    every retry, however many; but nothing is written: after any number of
    attempts the store is the one before the first, in which the trip still
    has the status it had (never 'expired'). *)
Theorem redeem_lapsed_fails_unrecorded (w : World) (tripCode : string) :
  monotone clock →
  (∀ id t, trips (store w) !! id = Some t → Trip.tripCode t = tripCode →
           (Trip.expiresAt t ≤ clock (tick w))%Z) →
  ∀ attempts : nat,
    let w' := serve clock Routes.useTrip (replicate attempts tripCode) w in
    (run clock (Routes.useTrip tripCode) w').2
    = Returned (errorResponse (Text "Invalid or expired trip code") 404)
    ∧ store (run clock (Routes.useTrip tripCode) w').1 = store w
    ∧ trips (store w') = trips (store w).
Proof.
  intros Hmono Hlapsed attempts.
  assert (∀ v, store v = store w → tick w ≤ tick v →
            let v' := serve clock Routes.useTrip (replicate attempts tripCode) v in
            store v' = store w ∧ tick w ≤ tick v') as Hserve.
  { induction attempts as [|n IH]; intros v Hstore Htick;
      cbn [serve replicate]; [done|].
    rewrite run_useTrip_lapsed.
    - apply IH; cbn; [done|lia].
    - intros id t Ht Hcode. rewrite Hstore in Ht.
      etrans; [by eapply Hlapsed|]. by apply monotone_le. }
  destruct (Hserve w eq_refl (le_n _)) as [Hstore Htick]. cbn zeta.
  rewrite run_useTrip_lapsed.
  - cbn. by rewrite Hstore.
  - intros id t Ht Hcode. rewrite Hstore in Ht.
    etrans; [by eapply Hlapsed|]. by apply monotone_le.
Qed.

End Redeem.

(* ===================================================================== *)
(** * Completing a journey *)
(* ===================================================================== *)

Lemma stable_used_save id d :
  keeps_used d → stable (trip_used id) (TripModel.save d) (λ _, True).
Proof.
  intros Hkeep. unfold TripModel.save.
  destruct (TripModel.invalid_paths d); [|done].
  destruct (TripModel.modified d); [|done].
  apply stable_write. intros db (t & Ht & Hused).
  destruct (trips db !! TripModel._id d) as [t'|] eqn:Ht'; [|by split; [exists t|]].
  split; [|done]. unfold trip_used. cbn.
  destruct (decide (TripModel._id d = id)) as [Heq|Hne].
  - rewrite Heq in *. rewrite lookup_insert_eq. eexists. split; [done|].
    assert (t' = t) as -> by congruence. cbn.
    unfold keeps_used in Hkeep. by destruct (TripModel.status d).
  - rewrite lookup_insert_ne by done. by exists t.
Qed.

Lemma stable_used_create id uuid user fromStation toStation fare n total pm :
  stable (trip_used id)
    (TripModel.create uuid user fromStation toStation fare n total pm) (λ _, True).
Proof.
  unfold TripModel.create. apply stable_bind_True; [by apply stable_new_Date|].
  intros now. destruct total as [total|]; [|done].
  destruct (TripModel.invalid_numbers fare n total); [|done].
  apply stable_write. intros db (t & Ht & Hused).
  destruct (TripModel.code_in_use _ _); [by split; [exists t|]|].
  split; [|done]. exists t. split; [|done]. cbn.
  rewrite lookup_insert_ne; [done|].
  intros Heq. pose proof (fresh_trip_id db) as Hfresh. congruence.
Qed.

Lemma stable_used_user_save id d :
  stable (trip_used id) (UserModel.save d) (λ _, True).
Proof.
  unfold UserModel.save. destruct (UserModel.invalid_paths d); [|done].
  destruct (UserModel.modified d); [|done].
  apply stable_write. intros db HI. split; [|done].
  by destruct (users db !! UserModel._id d).
Qed.

Lemma stable_used_useTrip id d :
  stable (trip_used id) (TripModel.useTrip d) (λ _, True).
Proof.
  unfold TripModel.useTrip. case_match; [done|].
  apply stable_bind_True; [by apply stable_new_Date|]. intros now.
  case_match; [done|].
  apply stable_bind_True; [by apply stable_new_Date|]. intros now1.
  apply stable_bind_True; [by apply stable_new_Date|]. intros now2.
  by apply stable_used_save.
Qed.

Lemma stable_used_completeJourney id d :
  keeps_used d → stable (trip_used id) (TripModel.completeJourney d) (λ _, True).
Proof.
  intros Hkeep. unfold TripModel.completeJourney. case_match; [done|].
  apply stable_bind_True; [by apply stable_new_Date|]. intros now.
  by apply stable_used_save.
Qed.

Ltac stable_used_step :=
  first
    [ apply stable_used_user_save | apply stable_used_create
    | apply stable_used_useTrip
    | apply stable_new_Date; intros | apply stable_query; intros
    | apply stable_bind_True; [|intros]
    | apply stable_try_catch; [|intros]
    | case_match
    | done ].

(** No request of the API changes the status of a trip that is 'used',
    whatever is running beside it. *)
Lemma stable_used_handle (id : ObjectId) (r : Request) :
  stable (trip_used id) (handle r) (λ _, True).
Proof.
  destruct r; unfold handle.
  - unfold Routes.createTrip, FareModel.getFare, UserModel.findById,
      UserModel.deductBalance. repeat stable_used_step.
  - unfold Routes.useTrip, TripModel.getValidTrip, TripModel.populate_user,
      UserModel.updateTripStats. repeat stable_used_step.
  - unfold Routes.completeJourney.
    apply stable_bind_True; [|done].
    eapply stable_bind with (Q := λ o, ∀ d, o = Some d → keeps_used d).
    { apply stable_query. intros db _ d. unfold findById.
      by intros (t & _ & ->)%fmap_Some. }
    intros [d|] Hd; [|done]. specialize (Hd d eq_refl).
    case_match; [done|]. apply stable_try_catch; [|done].
    apply stable_bind_True; [|done]. by apply stable_used_completeJourney.
  - unfold Routes.depositMoney, UserModel.findById, UserModel.addBalance.
    repeat stable_used_step.
  - unfold Routes.getFareBetweenStations, FareModel.getFare.
    repeat stable_used_step.
  - unfold Routes.getFareInBetween. repeat stable_used_step.
Qed.

Section Complete.
Variable clock : nat → Date.

Lemma run_trip_findById id w :
  run clock (TripModel.findById id) w
  = (next (store w) w, Returned (TripModel.hydrate id <$> trips (store w) !! id)).
Proof. done. Qed.

(** C6 (amended). A CompleteJourney on a stored trip: a requester who is not
    the owner is answered 403, whatever the status; the owner of a trip that
    is not 'used' is answered 400; in both cases the store is left as it
    was. The owner of a 'used' trip is answered 200, journeyEndTime is set
    to the clock reading of the assignment, and from then on, whatever
    requests are served, the status of the trip stays 'used'. *)
Theorem completeJourney_owner_then_state (w : World) (req_user id : ObjectId)
    (t : Trip.t) :
  trips (store w) !! id = Some t →
  let r := run clock (Routes.completeJourney req_user id) w in
  (Trip.user t ≠ req_user →
     r.2 = Returned (errorResponse (Text "Not authorized") 403)
     ∧ store r.1 = store w)
  ∧ (Trip.user t = req_user → Trip.status t ≠ used →
     r.2 = Returned
             (errorResponse
                (MessageOf
                   (JsError ("Journey cannot be completed. Trip status: "
                             +:+ TripModel.status_text (Some (Trip.status t)))))
                400)
     ∧ store r.1 = store w)
  ∧ (Trip.user t = req_user → Trip.status t = used →
     TripModel.invalid_numbers (Trip.fare t) (Trip.numberOfPassengers t)
       (Trip.totalAmount t) = [] →
     r.2 = Returned
             (successResponse
                (TripModel.set_journeyEndTime (clock (1 + tick w))
                   (TripModel.hydrate id t))
                "Journey completed successfully" 200)
     ∧ trips (store r.1)
       = <[id := Trip.with_journey used (Trip.usedAt t) (Trip.journeyStartTime t)
                   (Some (clock (1 + tick w))) t]> (trips (store w))
     ∧ ∀ requests : list Request,
         trip_used id (store (serve clock handle requests r.1))).
Proof.
  intros Ht r. subst r. unfold Routes.completeJourney.
  rewrite run_bind, run_trip_findById, Ht. cbn [fmap option_fmap option_map].
  cbn [TripModel.hydrate TripModel.user TripModel.user_toString].
  split_and!.
  - intros Hother. rewrite bool_decide_true by (by intros [= ?]). done.
  - intros <- Hstatus. rewrite bool_decide_false by (by intros []).
    rewrite run_try_catch, run_bind. unfold TripModel.completeJourney.
    cbn [TripModel.status read].
    rewrite bool_decide_true by (by intros [= ?]). done.
  - intros <- Hstatus Hvalid. rewrite bool_decide_false by (by intros []).
    rewrite run_try_catch, run_bind. unfold TripModel.completeJourney.
    cbn [TripModel.hydrate TripModel.status read].
    rewrite Hstatus, bool_decide_false by (by intros []).
    run_steps. erewrite run_trip_save; [|done|done|exact Ht].
    cbn [run fst snd]. split_and!.
    + done.
    + cbn. unfold TripModel.stored. cbn. by rewrite Hstatus.
    + intros requests. apply stable_serve; [apply stable_used_handle|].
      unfold trip_used, put_trip. cbn. eexists.
      rewrite lookup_insert_eq. split; [done|].
      unfold TripModel.stored. cbn. done.
Qed.

End Complete.

(* ===================================================================== *)
(** * Depositing *)
(* ===================================================================== *)

Section Deposit.
Variable clock : nat → Date.

(** The run of a Deposit that passed validation, for a stored user: the
    balance becomes what [this.balance += amount] makes of it, when that is
    a number that is not negative. *)
Lemma run_depositMoney_valid req_user body (u : User.t) (b' : Number) w :
  Routes.depositValidation body = [] →
  users (store w) !! req_user = Some u →
  Js.add_json (Some (User.balance u)) (Routes.amount body) = Some b' →
  (num 0 ≤ b')%J →
  run clock (Routes.depositMoney req_user body) w
  = (mkWorld (put_user req_user
                (User.with_ledger b' (User.totalTrips u) (User.totalExpense u) u)
                (store w)) (3 + tick w),
     Returned (successResponse
                 (Routes.mkDepositData
                    (UserModel.set_balance (Some b') (UserModel.hydrate None req_user u))
                    (Routes.amount body)
                    (default Routes.dep_cash (Routes.dep_paymentMethod body))
                    (trim <$> Routes.transactionId body) (clock (2 + tick w)))
                 "Deposit successful" 200)).
Proof.
  intros Hvalid Hu Hadd Hge. unfold Routes.depositMoney. rewrite Hvalid.
  run_steps. rewrite Hu. run_steps.
  erewrite (run_addBalance clock req_user u u) by done. by run_steps.
Qed.

(** C8 (amended). A Deposit of a numeric amount for a stored user whose
    balance is not negative, with a transaction id that is absent or not
    blank, succeeds if and only if the amount is finite and at least 1: then
    it is answered 200 and the stored balance becomes balance + amount (the
    sum in double precision), whatever its size, nothing else changing;
    any other amount (so also an amount in (0, 1)) is answered 400 'Amount
    must be at least 1' and the store is left as it was. *)
Theorem deposit_needs_amount_at_least_one (w : World) (req_user : ObjectId)
    (body : Routes.DepositBody) (u : User.t) (x : Number) :
  users (store w) !! req_user = Some u →
  (num 0 ≤ User.balance u)%J →
  Routes.amount body = JNumber x →
  (∀ s, Routes.transactionId body = Some s → trim s ≠ "") →
  let r := run clock (Routes.depositMoney req_user body) w in
  let accepted := isFinite x = true ∧ (num 1 ≤ x)%J in
  ((∃ d, r.2 = Returned (successResponse d "Deposit successful" 200)) ↔ accepted)
  ∧ (accepted →
     ∃ b', Js.add (Some (User.balance u)) (Some x) = Some b'
           ∧ store r.1
             = put_user req_user
                 (User.with_ledger b' (User.totalTrips u) (User.totalExpense u) u)
                 (store w))
  ∧ (¬ accepted →
     r.2 = Returned (errorResponse (Text "Amount must be at least 1") 400)
     ∧ store r.1 = store w).
Proof.
  intros Hu Hb Hx Htx r accepted.
  assert (match Routes.transactionId body with
          | Some s => if bool_decide (trim s = "")
                      then ["Transaction ID is required for non-cash payments"]
                      else []
          | None => []
          end = []) as Hid.
  { destruct (Routes.transactionId body) as [s|]; [|done].
    by rewrite bool_decide_false by by apply Htx. }
  destruct (decide (isFloat (num 1) (JNumber x) = true)) as [Hfloat|Hfloat].
  - assert accepted as Hacc.
    { destruct x as [q|]; [|done]. split; [done|].
      by apply negb_true_iff in Hfloat. }
    assert (num 0 ≤ x)%J as Hnonneg.
    { destruct Hacc as [Hfinite Hle]. destruct x as [q|]; [|done].
      apply num_nonneg.
      unfold le_num in Hle. cbn in Hle. apply bool_decide_eq_false in Hle.
      apply Qcnot_lt_le in Hle. etrans; [|exact Hle]. by apply num_nonneg, num_le. }
    destruct (add_nonneg _ _ Hb Hnonneg) as (b' & Hadd & Hge).
    assert (Routes.depositValidation body = []) as Hvalid.
    { unfold Routes.depositValidation. by rewrite Hx, Hfloat, Hid. }
    subst r. erewrite run_depositMoney_valid; [|done|done|by rewrite Hx|done].
    cbn [fst snd store]. split_and!; [by split; [|eexists]|by eauto|done].
  - assert (¬ accepted) as Hacc.
    { intros [Hfinite Hle]. apply Hfloat. destruct x as [q|]; [|done].
      cbn [isFloat]. by rewrite Hle. }
    apply not_true_is_false in Hfloat.
    subst r. unfold Routes.depositMoney, Routes.depositValidation.
    rewrite Hx, Hfloat. cbn [app run fst snd]. split_and!; [|done|done].
    split; [by intros [d [= ?]]|done].
Qed.

(** The amount is kept as it was sent: on text, [+=] joins the two texts and
    the cast reads the result as a number. A Deposit of the text '100' on a
    balance of 100 stores 100100. *)
Lemma deposit_of_text_is_appended :
  let body := Routes.mkDepositBody (JString "100") None None in
  Routes.depositValidation body = []
  ∧ User.balance
      <$> users (store (run Scenario.clock (Routes.depositMoney 7 body)
                          Scenario.w0).1) !! 7%N
    = Some (num 100100).
Proof. by vm_compute. Qed.

End Deposit.

(* ===================================================================== *)
(** * Looking a fare up *)
(* ===================================================================== *)

Lemma inBetween_filter_spec fromStation toStation fareType f :
  Routes.inBetween_filter fromStation toStation fareType f = true
  ↔ Fare.fromStation f = fromStation ∧ Fare.toStation f = toStation
    ∧ Fare.fareType f = fareType ∧ Fare.isActive f = true.
Proof.
  unfold Routes.inBetween_filter.
  rewrite !andb_true_iff, !bool_decide_eq_true. tauto.
Qed.

Lemma run_getFareInBetween clock a b fareType w sa sb :
  stations (store w) !! a = Some sa → stations (store w) !! b = Some sb →
  run clock (Routes.getFareInBetween (Some a) (Some b) fareType) w
  = (mkWorld (store w) (3 + tick w),
     match findOne (Routes.inBetween_filter a b (default regular fareType))
             (fares (store w)) with
     | None => Returned (errorResponse (Text "No fare found for route") 404)
     | Some fare => Returned (successResponse fare "Fare retrieved successfully" 200)
     end).
Proof.
  intros Ha Hb. unfold Routes.getFareInBetween. run_steps. rewrite Ha, Hb.
  run_steps. by destruct (findOne _ _).
Qed.

(** A station of the two is not stored: 404, before the fares are read. *)
Lemma run_getFareInBetween_no_station clock a b fareType w :
  stations (store w) !! a = None ∨ stations (store w) !! b = None →
  ∃ msg, run clock (Routes.getFareInBetween (Some a) (Some b) fareType) w
         = (mkWorld (store w) (2 + tick w), Returned (errorResponse (Text msg) 404)).
Proof.
  intros Hmissing. unfold Routes.getFareInBetween. run_steps.
  destruct (stations (store w) !! a), (stations (store w) !! b);
    [by destruct Hmissing|by eexists..].
Qed.

Section FareLookup.
Variable clock : nat → Date.

Lemma run_getFare fromStation toStation fareType w :
  run clock (FareModel.getFare fromStation toStation fareType) w
  = (mkWorld (store w) (2 + tick w),
     Returned (findOne (FareModel.getFare_filter fromStation toStation fareType
                          (clock (tick w))) (fares (store w)))).
Proof. done. Qed.

(** C7 (amended). FindFare as [Fare.getFare] runs it, for the route lookup
    and for Issue, returns a fare exactly when the table holds an active row
    for the tuple whose effectiveTo is null or not before the current time;
    effectiveFrom is not looked at. What it returns is such a stored row.
    When there is no such direct row the result is null, whatever other rows
    the table holds (no fare is derived from a route over several hops), and
    the route handler answers 404. The in-between lookup answers 200 only
    with a stored active row of the tuple, does so whenever the two stations
    are stored and the table holds an active row of the tuple that has not
    ended, and answers 404 when the table holds no active row of the tuple
    or a station is not stored, whatever other rows there are. The store is
    only read. *)
Theorem getFare_direct_row_only (w : World) (fromStation toStation : ObjectId)
    (fareType : FareType) :
  let now := clock (tick w) in
  let r := run clock (FareModel.getFare fromStation toStation fareType) w in
  let q := run clock (Routes.getFareInBetween (Some fromStation) (Some toStation)
                        (Some fareType)) w in
  (store r.1 = store w
   ∧ ((∃ found, r.2 = Returned (Some found))
      ↔ ∃ id f, fares (store w) !! id = Some f
                ∧ matches_getFare fromStation toStation fareType now f)
   ∧ (∀ id f, r.2 = Returned (Some (id, f)) →
        fares (store w) !! id = Some f
        ∧ matches_getFare fromStation toStation fareType now f)
   ∧ ((∀ id f, fares (store w) !! id = Some f →
               ¬ matches_getFare fromStation toStation fareType now f) →
      r.2 = Returned None
      ∧ (run clock (Routes.getFareBetweenStations (Some fromStation)
                      (Some toStation) (Some fareType)) w).2
        = Returned (errorResponse (Text "Fare not found for this route") 404)))
  ∧ (store q.1 = store w
     ∧ (∀ resp, q.2 = Returned resp → statusCode resp = 200%Z →
          ∃ id f, data resp = Some (id, f) ∧ fares (store w) !! id = Some f
                  ∧ matches_inBetween fromStation toStation fareType f)
     ∧ (is_Some (stations (store w) !! fromStation) →
        is_Some (stations (store w) !! toStation) →
        (∃ id f, fares (store w) !! id = Some f
                 ∧ matches_getFare fromStation toStation fareType now f) →
        answered_with 200 q.2)
     ∧ ((∀ id f, fares (store w) !! id = Some f →
                 ¬ matches_inBetween fromStation toStation fareType f) →
        answered_with 404 q.2)
     ∧ (stations (store w) !! fromStation = None
        ∨ stations (store w) !! toStation = None →
        answered_with 404 q.2)).
Proof.
  intros now r q. split.
  - subst r. rewrite run_getFare. cbn [fst snd store].
    fold now. set (filter := FareModel.getFare_filter _ _ _ _).
    split_and!.
    + done.
    + split.
      * intros [[id f] [= Hfind]]. apply findOne_Some in Hfind as [? ?].
        exists id, f. by rewrite <-getFare_filter_spec.
      * intros (id & f & Hf & Hm). apply getFare_filter_spec in Hm.
        destruct (findOne_is_Some filter (fares (store w)))
          as [_ [found Hfound]]; [by eauto|].
        exists found. by rewrite Hfound.
    + intros id f [= Hfind]. apply findOne_Some in Hfind as [? ?].
      by rewrite <-getFare_filter_spec.
    + intros Hnone.
      assert (findOne filter (fares (store w)) = None) as Hfind.
      { apply findOne_None. intros id f Hf.
        destruct (filter f) eqn:E; [|done].
        apply getFare_filter_spec in E. by destruct (Hnone id f Hf). }
      split; [by rewrite Hfind|].
      unfold Routes.getFareBetweenStations.
      change (default regular (Some fareType)) with fareType.
      rewrite run_bind, run_getFare. fold now filter. by rewrite Hfind.
  - destruct (stations (store w) !! fromStation) as [sa|] eqn:Ha;
      [destruct (stations (store w) !! toStation) as [sb|] eqn:Hb|].
    + subst q. rewrite (run_getFareInBetween _ _ _ _ _ sa sb) by done.
      cbn [fst snd store default].
      set (filter := Routes.inBetween_filter _ _ _).
      destruct (findOne filter (fares (store w))) as [[id f]|] eqn:Hfind.
      * apply findOne_Some in Hfind as [Hf Hm%inBetween_filter_spec].
        split_and!; [done| |by eexists|..].
        -- intros resp [= <-] _. by exists id, f.
        -- intros Hnone. by destruct (Hnone id f Hf).
        -- by intros [[=]|[=]].
      * rewrite findOne_None in Hfind.
        split_and!; [done|by intros resp [= <-]| |by eexists|by eexists].
        intros _ _ (id & f & Hf & ? & ? & ? & ? & _).
        assert (filter f = true) as Hm by by apply inBetween_filter_spec.
        by rewrite (Hfind id f Hf) in Hm.
    + destruct (run_getFareInBetween_no_station clock fromStation toStation
                  (Some fareType) w) as [msg Hrun]; [by right|].
      subst q. rewrite Hrun. cbn [fst snd store].
      split_and!; [done|by intros resp [= <-]|by intros _ [? [=]]
                  |by eexists|by eexists].
    + destruct (run_getFareInBetween_no_station clock fromStation toStation
                  (Some fareType) w) as [msg Hrun]; [by left|].
      subst q. rewrite Hrun. cbn [fst snd store].
      split_and!; [done|by intros resp [= <-]|by intros [? [=]]
                  |by eexists|by eexists].
Qed.

End FareLookup.


(* ===================================================================== *)
(** * Two Issue requests in flight *)
(* ===================================================================== *)

Lemma stable_ledger_createTrip req_user uuid body :
  stable ledger_valid (Routes.createTrip req_user uuid body) (λ _, True).
Proof.
  unfold Routes.createTrip, FareModel.getFare. repeat stable_ledger_step.
Qed.

(** C9 as stated fails: whatever the schedule, two Issue requests in flight
    leave every stored balance non-negative: each writes the balance it
    computed from its own read, and a negative one would not pass
    validation. *)
Lemma concurrent_issue_never_negative :
  ¬ ∃ (clock : nat → Date) (schedule : list bool) (req_user : ObjectId)
      (uuid1 uuid2 : string) (body1 body2 : Routes.CreateTripBody) (w : World)
      (u : User.t),
      ledger_valid (store w)
      ∧ users (store (interleave clock schedule
                        (Routes.createTrip req_user uuid1 body1)
                        (Routes.createTrip req_user uuid2 body2) w).1.1)
          !! req_user = Some u
      ∧ (User.balance u < num 0)%J.
Proof.
  intros (clock & schedule & req_user & uuid1 & uuid2 & body1 & body2 & w & u
          & Hvalid & Hu & Hneg).
  destruct (stable_interleave ledger_valid clock schedule _ _ _ _ w
              (stable_ledger_createTrip req_user uuid1 body1)
              (stable_ledger_createTrip req_user uuid2 body2) Hvalid)
    as [Hafter _].
  pose proof (Hafter req_user u Hu) as Hnonneg. cbn in Hnonneg.
  unfold lt_num in Hneg. unfold le_num in Hnonneg. congruence.
Qed.

(** C9 (amended). There is an interleaving of two Issue requests paid from
    the balance of the same user, each for 60 against a balance of 100, in
    which both read the balance before either writes (the store is untouched
    after the six reading steps) and both are answered 201: two trips are
    stored, worth 120, but the second write of the balance overwrites the
    first with the same value, so the balance ends at 40, debited once and
    not negative. *)
Theorem concurrent_issue_lost_update :
  let p := Routes.createTrip 7 Scenario.uuid1 Scenario.two_by_balance in
  let q := Routes.createTrip 7 Scenario.uuid2 Scenario.two_by_balance in
  ∃ schedule : list bool,
    let reads := interleave Scenario.clock (take 6 schedule) p q Scenario.w0 in
    let r := interleave Scenario.clock schedule p q Scenario.w0 in
    store reads.1.1 = store Scenario.w0
    ∧ answered r.1.2 = Some 201%Z
    ∧ answered r.2 = Some 201%Z
    ∧ size (trips (store r.1.1)) = 2
    ∧ map_Forall (λ _ t, Trip.user t = 7%N ∧ Trip.totalAmount t = num 60)
        (trips (store r.1.1))
    ∧ Js.mul (Some (num 30)) (Some (num 2)) = Some (num 60)
    ∧ User.balance <$> users (store r.1.1) !! 7%N = Some (num 40)
    ∧ Js.sub (Some (num 100)) (Some (num 60)) = Some (num 40)
    ∧ (num 0 ≤ num 40)%J.
Proof.
  intros p q. exists Scenario.reads_then_writes. cbn zeta. split_and!.
  - by vm_compute.
  - by vm_compute.
  - by vm_compute.
  - by vm_compute.
  - apply (bool_decide_unpack _). by vm_compute.
  - by vm_compute.
  - by vm_compute.
  - by vm_compute.
  - by vm_compute.
Qed.

(* ===================================================================== *)
(** * The scenario, run *)
(* ===================================================================== *)

Lemma singleton_fares_unique (db : DB) (id : ObjectId) (f : Fare.t) :
  fares db = {[id := f]} → fares_unique db.
Proof.
  intros Hfares i j g h Hi Hj _. rewrite Hfares in Hi, Hj.
  apply lookup_singleton_Some in Hi as [<- _].
  by apply lookup_singleton_Some in Hj as [<- _].
Defined.

Lemma scenario_fares_unique : fares_unique (store Scenario.w0).
Proof. by apply (singleton_fares_unique _ 1%N Scenario.fare_AB). Defined.

Lemma scenario_ledger_valid : ledger_valid (store Scenario.w0).
Proof.
  apply map_Forall_insert_2; [compute_done|].
  apply map_Forall_singleton. compute_done.
Defined.

Lemma scenario_clock_monotone : monotone Scenario.slow_clock.
Proof. intros n. unfold Scenario.slow_clock. lia. Defined.

(** Debit 60, Debit 60 (refused: 40 are left), Deposit 5, Deposit -50
    (refused by the validator): the balance ends at 45. *)
Example scenario_ledger_run :
  User.balance
    <$> users (store (serve Scenario.clock (λ o, ledger o.1 o.2)
                        [(7%N, Debit (num 60)); (7%N, Debit (num 60));
                         (7%N, Deposit (num 5)); (7%N, Deposit (num (-50)))]
                        Scenario.w0)) !! 7%N
  = Some (num 45).
Proof. by vm_compute. Qed.

Lemma ledger_balance_never_negative_witness :
  ledger_valid (store Scenario.w0)
  ∧ ledger_valid
      (store (serve Scenario.clock (λ o, ledger o.1 o.2)
                [(7%N, Debit (num 60)); (7%N, Debit (num 60));
                 (7%N, Deposit (num 5)); (7%N, Deposit (num (-50)))]
                Scenario.w0))
  ∧ ∃ w', run Scenario.clock (ledger 7 (Debit (num 101))) Scenario.w0
          = (w', Uncaught (JsError "Insufficient balance"))
          ∧ store w' = store Scenario.w0.
Proof.
  destruct (ledger_balance_never_negative Scenario.clock Scenario.w0
              [(7%N, Debit (num 60)); (7%N, Debit (num 60));
               (7%N, Deposit (num 5)); (7%N, Deposit (num (-50)))]
              scenario_ledger_valid) as [Hafter Hdebit].
  split_and!; [exact scenario_ledger_valid|exact Hafter|].
  apply (Hdebit 7%N Scenario.user_U (num 101)); [reflexivity|compute_done].
Defined.

Lemma issue_creates_trip_witness :
  fares_unique (store Cases.w_cents)
  ∧ to_string Cases.seventy_cents = "0.7"
  ∧ to_string Cases.three_times_seventy_cents = "2.0999999999999996"
  ∧ ∃ w', (run Scenario.clock
             (Routes.createTrip 7 Scenario.uuid1 Cases.three_by_balance) Cases.w_cents).1
          = w'
          ∧ size (trips (store w')) = 1
          ∧ Trip.totalAmount <$> trips (store w') !! 0%N
            = Some Cases.three_times_seventy_cents
          ∧ Trip.status <$> trips (store w') !! 0%N = Some created
          ∧ Trip.expiresAt <$> trips (store w') !! 0%N = Some (1003 + 86400000)%Z
          ∧ User.balance <$> users (store w') !! 7%N = Some (num 0).
Proof.
  assert (fares_unique (store Cases.w_cents)) as Huniq
    by by apply (singleton_fares_unique _ 1%N Cases.fare_cents).
  destruct (issue_creates_trip Scenario.clock Cases.w_cents 7 Scenario.uuid1
              Cases.three_by_balance 1 Cases.fare_cents
              Cases.three_times_seventy_cents)
    as (w' & Hrun & _ & Htrips & Htotal & Hstatus & Hexp & _ & Hdebit);
    [cbn; lia|exact Huniq|reflexivity|split_and!; [reflexivity..|by left]
    |by vm_compute|by vm_compute|by vm_compute
    |intros _; exists Cases.user_W;
     split_and!; [reflexivity|by vm_compute|left; by vm_compute]|].
  destruct (Hdebit eq_refl Cases.user_W eq_refl) as (b' & Hsub & Husers).
  assert (b' = num 0) as -> by (revert Hsub; by vm_compute; intros [= <-]).
  split; [exact Huniq|]. split; [by vm_compute|]. split; [by vm_compute|].
  exists w'. rewrite Hrun. split; [done|].
  rewrite Htrips, Husers, !lookup_insert_eq.
  split_and!; [by vm_compute|exact (f_equal Some Htotal)
              |exact (f_equal Some Hstatus)| |done].
  cbn [fmap option_fmap option_map]. rewrite Hexp. by vm_compute.
Defined.

(** C2 as stated fails: the fare row from A to B is active and regular, the
    balance of 100 covers 30 times 2, and the Issue is answered 404, nothing
    being stored: the row ended before the request. *)
Lemma issue_on_ended_fare_is_refused :
  fares (store Cases.w_ended) !! 1%N = Some Cases.fare_ended
  ∧ matches_inBetween 1 2 regular Cases.fare_ended
  ∧ users (store Cases.w_ended) !! 7%N = Some Scenario.user_U
  ∧ Js.mul (Some (Fare.fare Cases.fare_ended)) (Some (num 2)) = Some (num 60)
  ∧ (num 60 ≤ User.balance Scenario.user_U)%J
  ∧ run Scenario.clock (Routes.createTrip 7 Scenario.uuid1 Scenario.two_by_balance)
      Cases.w_ended
    = (mkWorld (store Cases.w_ended) 2,
       Returned (errorResponse (Text "Fare not found for this route") 404)).
Proof. split_and!; by vm_compute. Qed.

Lemma issue_insufficient_balance_witness :
  to_string Cases.three_times_seventy_cents = "2.0999999999999996"
  ∧ (num 2 < Cases.three_times_seventy_cents)%J
  ∧ ∃ w', run Scenario.clock
            (Routes.createTrip 8 Scenario.uuid1 Cases.three_by_balance) Cases.w_cents
          = (w', Returned (errorResponse (Text "Insufficient balance") 400))
          ∧ store w' = store Cases.w_cents.
Proof.
  assert (num 2 < Cases.three_times_seventy_cents)%J as Hlt by by vm_compute.
  destruct (issue_insufficient_balance Scenario.clock Cases.w_cents 8 Scenario.uuid1
              Cases.three_by_balance 1 Cases.fare_cents Cases.user_X
              Cases.three_times_seventy_cents)
    as (w' & Hrun & Hstore & _);
    [cbn; lia|reflexivity
    |by apply (singleton_fares_unique _ 1%N Cases.fare_cents)|reflexivity
    |split_and!; [reflexivity..|by left]|reflexivity|by vm_compute|exact Hlt|].
  split; [by vm_compute|]. split; [exact Hlt|]. exists w'.
  split; [exact Hrun|exact Hstore].
Defined.

Lemma issue_by_cash_or_card_witness :
  (by_cash = by_cash ∨ by_cash = by_card)
  ∧ ∃ w', (run Scenario.clock
             (Routes.createTrip 7 Scenario.uuid1 Scenario.two_by_cash) Scenario.w0).1
          = w'
          ∧ users (store w') = users (store Scenario.w0)
          ∧ size (trips (store w')) = 1
          ∧ map_Forall (λ _ t, Trip.paymentStatus t = pending) (trips (store w')).
Proof.
  destruct (issue_by_cash_or_card Scenario.clock Scenario.w0 7 Scenario.uuid1
              Scenario.two_by_cash by_cash 1 Scenario.fare_AB)
    as (w' & t & Hrun & Husers & Htrips & _ & _ & _ & Hpending);
    [cbn; lia|reflexivity|by left|exact scenario_fares_unique|reflexivity
    |split_and!; [reflexivity..|by left]|by vm_compute|by vm_compute|].
  split; [by left|]. exists w'. rewrite Hrun. split_and!; [done|done| |].
  - rewrite Htrips. by vm_compute.
  - rewrite Htrips. by apply map_Forall_insert_2.
Defined.

(** C10 as stated fails: an Issue paid by cash for a route that has no fare
    (from B to A) does not succeed; it is answered 404. *)
Lemma issue_by_cash_without_fare_is_refused :
  run Scenario.clock
    (Routes.createTrip 7 Scenario.uuid1 (Routes.mkCreateTripBody 2 1 2 (Some by_cash)))
    Scenario.w0
  = (mkWorld (store Scenario.w0) 2,
     Returned (errorResponse (Text "Fare not found for this route") 404)).
Proof. by vm_compute. Qed.

Lemma redeem_marks_used_without_counting_witness :
  users (store Scenario.w1_V) !! 8%N
  = Some (User.with_ledger (num 40) (num 3) (num 200)
            Scenario.user_V)
  ∧ ∃ w', run Scenario.clock (Routes.useTrip "TRIP-6EC0BD7F") Scenario.w1_V
          = (w', Returned (errorResponse
                             (MessageOf (ValidationError ["totalTrips"; "totalExpense"]))
                             400))
          ∧ Trip.status <$> trips (store w') !! 0%N = Some used
          ∧ User.totalTrips <$> users (store w') !! 8%N = Some (num 3)
          ∧ User.totalExpense <$> users (store w') !! 8%N = Some (num 200).
Proof.
  assert (users (store Scenario.w1_V) !! 8%N
          = Some (User.with_ledger (num 40) (num 3) (num 200)
                    Scenario.user_V)) as Howner by by vm_compute.
  destruct (redeem_marks_used_without_counting Scenario.clock Scenario.w1_V
              "TRIP-6EC0BD7F" 0 Scenario.trip1_V
              (User.with_ledger (num 40) (num 3) (num 200)
                 Scenario.user_V))
    as (w' & Hrun & Htrips & Husers & _);
    [by vm_compute|by vm_compute|by vm_compute|exact Howner|].
  split; [exact Howner|]. exists w'. split_and!; [done| | |].
  - by rewrite Htrips, lookup_insert_eq.
  - by rewrite Husers, Howner.
  - by rewrite Husers, Howner.
Defined.

Lemma redeem_lapsed_fails_unrecorded_witness :
  monotone Scenario.slow_clock
  ∧ Trip.status <$> trips (store Scenario.w1_late) !! 0%N = Some created
  ∧ (run Scenario.slow_clock (Routes.useTrip "TRIP-1B9D6BCD")
       (serve Scenario.slow_clock Routes.useTrip (replicate 3 "TRIP-1B9D6BCD")
          Scenario.w1_late)).2
    = Returned (errorResponse (Text "Invalid or expired trip code") 404)
  ∧ Trip.status
      <$> trips (store (serve Scenario.slow_clock Routes.useTrip
                          (replicate 3 "TRIP-1B9D6BCD") Scenario.w1_late)) !! 0%N
    = Some created.
Proof.
  assert (Trip.status <$> trips (store Scenario.w1_late) !! 0%N = Some created)
    as Hcreated by by vm_compute.
  destruct (redeem_lapsed_fails_unrecorded Scenario.slow_clock Scenario.w1_late
              "TRIP-1B9D6BCD" scenario_clock_monotone) with (attempts := 3)
    as (Hfail & _ & Htrips).
  { intros id t Ht _.
    assert (trips (store Scenario.w1_late) = {[0%N := Scenario.trip1_late]})
      as Hall by by vm_compute.
    rewrite Hall in Ht. apply lookup_singleton_Some in Ht as [_ <-].
    by vm_compute. }
  split_and!; [exact scenario_clock_monotone|exact Hcreated|exact Hfail|].
  by rewrite Htrips.
Defined.

Lemma completeJourney_owner_then_state_witness :
  Trip.status <$> trips (store Scenario.w2) !! 0%N = Some used
  ∧ (run Scenario.clock (Routes.completeJourney 8 0) Scenario.w2).2
    = Returned (errorResponse (Text "Not authorized") 403)
  ∧ (∃ d, (run Scenario.clock (Routes.completeJourney 7 0) Scenario.w2).2
          = Returned (successResponse d "Journey completed successfully" 200))
  ∧ Trip.journeyEndTime
      <$> trips (store (run Scenario.clock (Routes.completeJourney 7 0) Scenario.w2).1)
          !! 0%N
    = Some (Some (Scenario.clock (1 + tick Scenario.w2)))
  ∧ trip_used 0
      (store (serve Scenario.clock handle
                [Redeem "TRIP-1B9D6BCD"; CompleteJourney 7 0;
                 Issue 7 Scenario.uuid2 Scenario.two_by_cash]
                (run Scenario.clock (Routes.completeJourney 7 0) Scenario.w2).1)).
Proof.
  assert (∃ t, trips (store Scenario.w2) !! 0%N = Some t ∧ Trip.user t = 7%N
               ∧ Trip.status t = used
               ∧ TripModel.invalid_numbers (Trip.fare t) (Trip.numberOfPassengers t)
                   (Trip.totalAmount t) = [])
    as (t & Ht & Howner & Hused & Hvalid).
  { exists Scenario.trip1_used. split_and!; by vm_compute. }
  destruct (completeJourney_owner_then_state Scenario.clock Scenario.w2 8 0 t Ht)
    as [Hother _].
  destruct (completeJourney_owner_then_state Scenario.clock Scenario.w2 7 0 t Ht)
    as (_ & _ & Hdone).
  destruct (Hdone Howner Hused Hvalid) as (Hok & Htrips & Hterminal).
  split_and!.
  - by rewrite Ht; cbn; rewrite Hused.
  - apply Hother. rewrite Howner. done.
  - eauto.
  - by rewrite Htrips, lookup_insert_eq.
  - apply Hterminal.
Defined.

(** C6 as stated fails: a trip that is 'created', completed by somebody who
    is not its owner, is answered 403 and not 400. *)
Lemma completeJourney_created_by_stranger_is_403 :
  Trip.status <$> trips (store Scenario.w1) !! 0%N = Some created
  ∧ Trip.user <$> trips (store Scenario.w1) !! 0%N = Some 7%N
  ∧ (run Scenario.clock (Routes.completeJourney 8 0) Scenario.w1).2
    = Returned (errorResponse (Text "Not authorized") 403)
  ∧ ¬ ∃ r, (run Scenario.clock (Routes.completeJourney 8 0) Scenario.w1).2 = Returned r
           ∧ statusCode r = 400%Z.
Proof.
  split_and!; [by vm_compute..|].
  intros (r & Hr & Hcode).
  assert ((run Scenario.clock (Routes.completeJourney 8 0) Scenario.w1).2
          = Returned (errorResponse (Text "Not authorized") 403)) as H by by vm_compute.
  rewrite H in Hr. injection Hr as <-. discriminate Hcode.
Qed.

Lemma getFare_direct_row_only_witness :
  fares (store Scenario.w0) !! 1%N = Some Scenario.fare_AB
  ∧ matches_getFare 1 2 regular (Scenario.clock (tick Scenario.w0)) Scenario.fare_AB
  ∧ (∃ found, (run Scenario.clock (FareModel.getFare 1 2 regular) Scenario.w0).2
              = Returned (Some found))
  ∧ answered_with 200
      (run Scenario.clock
         (Routes.getFareInBetween (Some 1%N) (Some 2%N) (Some regular)) Scenario.w0).2
  ∧ (run Scenario.clock (FareModel.getFare 2 1 regular) Scenario.w0).2 = Returned None
  ∧ answered_with 404
      (run Scenario.clock
         (Routes.getFareInBetween (Some 2%N) (Some 1%N) (Some regular)) Scenario.w0).2.
Proof.
  assert (matches_getFare 1 2 regular (Scenario.clock (tick Scenario.w0))
            Scenario.fare_AB) as Hm by (split_and!; [reflexivity..|by left]).
  assert (∃ id f, fares (store Scenario.w0) !! id = Some f
                  ∧ matches_getFare 1 2 regular (Scenario.clock (tick Scenario.w0)) f)
    as Hrow by (exists 1%N, Scenario.fare_AB; by split).
  destruct (getFare_direct_row_only Scenario.clock Scenario.w0 1 2 regular)
    as [(_ & Hiff & _) (_ & _ & Hquoted & _)].
  destruct (getFare_direct_row_only Scenario.clock Scenario.w0 2 1 regular)
    as [(_ & _ & _ & Hnone) (_ & _ & _ & Hmissing & _)].
  split; [reflexivity|]. split; [exact Hm|]. split; [exact (proj2 Hiff Hrow)|].
  split; [apply Hquoted; [by eexists|by eexists|exact Hrow]|].
  split.
  - apply Hnone. intros id f Hf (Hfrom & _).
    change (fares (store Scenario.w0))
      with ({[1%N := Scenario.fare_AB]} : gmap ObjectId Fare.t) in Hf.
    apply lookup_singleton_Some in Hf as [_ <-]. discriminate Hfrom.
  - apply Hmissing. intros id f Hf (Hfrom & _).
    change (fares (store Scenario.w0))
      with ({[1%N := Scenario.fare_AB]} : gmap ObjectId Fare.t) in Hf.
    apply lookup_singleton_Some in Hf as [_ <-]. discriminate Hfrom.
Defined.

(** C7 as stated fails: a fare whose effectiveFrom is still ahead is
    returned, although no row of the table has the current time in its
    window. *)
Lemma getFare_returns_fare_not_yet_effective :
  (run Scenario.clock (FareModel.getFare 1 2 regular) Scenario.w_later).2
  = Returned (Some (1%N, Scenario.fare_later))
  ∧ ¬ ∃ id f, fares (store Scenario.w_later) !! id = Some f
              ∧ active_in_window 1 2 regular (Scenario.clock 0) f.
Proof.
  split; [by vm_compute|].
  intros (id & f & Hf & _ & _ & _ & _ & Hfrom & _).
  change (fares (store Scenario.w_later)) with ({[1%N := Scenario.fare_later]} : gmap ObjectId Fare.t) in Hf.
  apply lookup_singleton_Some in Hf as [_ <-].
  revert Hfrom. by vm_compute.
Qed.

(** No fare is derived over several hops: with fares A to B and B to C only,
    the lookup from A to C finds nothing and both handlers answer 404. *)
Example no_fare_over_two_hops :
  let fare_BC := Fare.mk 2 3 (num 20) (num 4) (num 8) true regular 0 None in
  let db := mkDB {[1%N := Scenario.station_A; 2%N := Scenario.station_B;
                   3%N := Scenario.station_B]}
              {[1%N := Scenario.fare_AB; 2%N := fare_BC]} ∅ ∅ in
  let w := mkWorld db 0 in
  (run Scenario.clock (FareModel.getFare 1 3 regular) w).2 = Returned None
  ∧ (run Scenario.clock (Routes.getFareBetweenStations (Some 1%N) (Some 3%N) None) w).2
    = Returned (errorResponse (Text "Fare not found for this route") 404)
  ∧ (run Scenario.clock (Routes.getFareInBetween (Some 1%N) (Some 3%N) None) w).2
    = Returned (errorResponse (Text "No fare found for route") 404).
Proof. cbn zeta. split_and!; by vm_compute. Qed.

Lemma deposit_needs_amount_at_least_one_witness :
  (num 0 ≤ User.balance Scenario.user_U)%J
  ∧ to_string Cases.thirty_three_33 = "33.33"
  ∧ (num 1 ≤ Cases.thirty_three_33)%J
  ∧ (∃ d, (run Scenario.clock (Routes.depositMoney 7 Cases.deposit_cents) Scenario.w0).2
          = Returned (successResponse d "Deposit successful" 200))
  ∧ ∃ b, User.balance
           <$> users (store (run Scenario.clock (Routes.depositMoney 7 Cases.deposit_cents)
                               Scenario.w0).1) !! 7%N
         = Some b
         ∧ to_string b = "133.32999999999998".
Proof.
  assert (num 0 ≤ User.balance Scenario.user_U)%J as Hb by by vm_compute.
  assert (num 1 ≤ Cases.thirty_three_33)%J as Hamount by by vm_compute.
  destruct (deposit_needs_amount_at_least_one Scenario.clock Scenario.w0 7
              Cases.deposit_cents Scenario.user_U Cases.thirty_three_33)
    as (Hiff & Hok & _); [reflexivity|exact Hb|reflexivity|by intros s [=]|].
  assert (isFinite Cases.thirty_three_33 = true ∧ (num 1 ≤ Cases.thirty_three_33)%J)
    as Haccepted by (split; [by vm_compute|exact Hamount]).
  destruct (Hok Haccepted) as (b' & Hadd & Hstore).
  split; [exact Hb|]. split; [by vm_compute|]. split; [exact Hamount|].
  split; [exact (proj2 Hiff Haccepted)|].
  exists b'. rewrite Hstore. split.
  - cbn [store put_user set_users users]. by rewrite lookup_insert_eq.
  - vm_compute in Hadd. injection Hadd as <-. by vm_compute.
Defined.

(** C8 as stated fails: an amount of one half is greater than 0, and the
    Deposit is refused. *)
Lemma deposit_of_half_is_refused :
  (num 0 < Scenario.half)%J
  ∧ run Scenario.clock (Routes.depositMoney 7 Scenario.deposit_half) Scenario.w0
    = (Scenario.w0, Returned (errorResponse (Text "Amount must be at least 1") 400)).
Proof. split; by vm_compute. Qed.

(* ===================================================================== *)
(** * Invariants of the store under the whole API *)
(* ===================================================================== *)

Lemma stable_and (I : DB → Prop) {A} (p : Prog A) (Q1 Q2 : A → Prop) :
  stable I p Q1 → stable (λ _, True) p Q2 → stable I p (λ a, Q1 a ∧ Q2 a).
Proof.
  induction p as [a|e|X op k IH]; cbn; [done|done|].
  intros H1 H2 now db HI. destruct (H1 now db HI) as [? ?].
  destruct (H2 now db Logic.I) as [_ ?]. split; [done|]. by apply IH.
Qed.

(** An invariant that holds of a world holds after any requests of the API,
    served in sequence or two of them interleaved, as soon as every handler
    is stable for it. *)
Lemma stable_everywhere (I : DB → Prop) {R A} (handler : R → Prog A)
    (clock : nat → Date) (requests : list R) (schedule : list bool) (r1 r2 : R) w :
  (∀ r, stable I (handler r) (λ _, True)) → I (store w) →
  I (store (serve clock handler requests w))
  ∧ I (store (interleave clock schedule (handler r1) (handler r2) w).1.1).
Proof.
  intros Hall HI. split; [by apply stable_serve|].
  by destruct (stable_interleave I clock schedule _ _ _ _ w (Hall r1) (Hall r2) HI).
Qed.

Ltac stable_read_step :=
  first
    [ apply stable_new_Date; intros | apply stable_query; intros
    | apply stable_bind_True; [|intros]
    | apply stable_try_catch; [|intros]
    | case_match
    | done ].

(** The handlers that only read are stable for every invariant. *)
Lemma stable_getTripById (I : DB → Prop) req_user req_role id :
  stable I (ReadRoutes.getTripById req_user req_role id) (λ _, True).
Proof.
  unfold ReadRoutes.getTripById, TripModel.findById, TripModel.populate_user.
  repeat stable_read_step.
Qed.

Lemma stable_getUserStatistics (I : DB → Prop) startOfMonth req_user :
  stable I (ReadRoutes.getUserStatistics startOfMonth req_user) (λ _, True).
Proof.
  unfold ReadRoutes.getUserStatistics, UserModel.findById.
  repeat stable_read_step.
Qed.

(** The three admin handlers of the fares are stable for every invariant
    that [FareDocs.save] and [FareDocs.create] keep. *)
Lemma stable_fare_handlers (I : DB → Prop) :
  (∀ d, stable I (FareDocs.save d) (λ _, True)) →
  (∀ a b c d e f g h, stable I (FareDocs.create a b c d e f g h) (λ _, True)) →
  (∀ body, stable I (FareRoutes.createFare body) (λ _, True))
  ∧ (∀ id body, stable I (FareRoutes.updateFare id body) (λ _, True))
  ∧ (∀ id, stable I (FareRoutes.deleteFare id) (λ _, True)).
Proof.
  intros Hsave Hcreate. split_and!.
  - intros body. unfold FareRoutes.createFare.
    repeat first [apply Hcreate | stable_read_step].
  - intros id body. unfold FareRoutes.updateFare, FareDocs.findById.
    repeat first [apply Hsave | stable_read_step].
  - intros id. unfold FareRoutes.deleteFare, FareDocs.findById.
    repeat first [apply Hsave | stable_read_step].
Qed.

(** A write to the fares leaves alone whatever does not look at them. *)
Lemma stable_fare_writes (I : DB → Prop) :
  (∀ db fs, I db → I (set_fares fs db)) →
  (∀ d, stable I (FareDocs.save d) (λ _, True))
  ∧ (∀ a b c d e f g h, stable I (FareDocs.create a b c d e f g h) (λ _, True)).
Proof.
  intros Hframe. split.
  - intros d. unfold FareDocs.save. destruct (FareDocs.invalid_paths d); [|done].
    destruct (FareDocs.modified d); [|done].
    apply stable_write. intros db HI. split; [|done].
    destruct (fares db !! _); [apply Hframe|]; done.
  - intros a b c d e f g h. unfold FareDocs.create.
    destruct (FareDocs.invalid_numbers _ _ _); [|done].
    apply stable_write. intros db HI. split; [|done].
    destruct (FareDocs.route_in_use _ _); [|apply Hframe]; done.
Qed.

Lemma stable_api (I : DB → Prop) startOfMonth :
  (∀ db fs, I db → I (set_fares fs db)) →
  (∀ r, stable I (handle r) (λ _, True)) →
  ∀ r, stable I (handle_api startOfMonth r) (λ _, True).
Proof.
  intros Hframe Hhandle r.
  destruct (stable_fare_writes I Hframe) as [Hsave Hcreate].
  destruct (stable_fare_handlers I Hsave Hcreate) as (Hc & Hu & Hd).
  destruct r; cbn [handle_api]; (apply stable_bind_True; [|done]).
  - apply Hhandle.
  - apply Hc.
  - apply Hu.
  - apply Hd.
  - apply stable_getTripById.
  - apply stable_getUserStatistics.
Qed.

(** X1. From a store without negative balances, whatever requests of the API
    are served, in whatever order, and whichever two of them are interleaved,
    in whatever schedule, no stored balance is negative afterwards. *)
Theorem api_never_stores_negative_balance (clock : nat → Date)
    (startOfMonth : Date → Date) (requests : list ApiRequest)
    (schedule : list bool) (r1 r2 : ApiRequest) (w : World) :
  ledger_valid (store w) →
  ledger_valid (store (serve clock (handle_api startOfMonth) requests w))
  ∧ ledger_valid
      (store (interleave clock schedule (handle_api startOfMonth r1)
                (handle_api startOfMonth r2) w).1.1).
Proof.
  intros Hvalid. apply stable_everywhere; [|done].
  apply stable_api; [done|apply stable_ledger_handle].
Qed.

(** The handlers of [handle] write users and trips only: they are stable for
    whatever looks at neither. *)
Lemma stable_handle_frame (I : DB → Prop) :
  (∀ db us, I db → I (set_users us db)) →
  (∀ db ts, I db → I (set_trips ts db)) →
  ∀ r, stable I (handle r) (λ _, True).
Proof.
  intros Husers Htrips.
  assert (∀ d, stable I (UserModel.save d) (λ _, True)) as Hus.
  { intros d. unfold UserModel.save. destruct (UserModel.invalid_paths d); [|done].
    destruct (UserModel.modified d); [|done].
    apply stable_write. intros db HI. split; [|done].
    destruct (users db !! _); [apply Husers|]; done. }
  assert (∀ d, stable I (TripModel.save d) (λ _, True)) as Hts.
  { intros d. unfold TripModel.save. destruct (TripModel.invalid_paths d); [|done].
    destruct (TripModel.modified d); [|done].
    apply stable_write. intros db HI. split; [|done].
    destruct (trips db !! _); [apply Htrips|]; done. }
  assert (∀ a b c d e f g h, stable I (TripModel.create a b c d e f g h) (λ _, True))
    as Htc.
  { intros. unfold TripModel.create. apply stable_bind_True; [by apply stable_new_Date|].
    intros now. destruct g as [total|]; [|done].
    destruct (TripModel.invalid_numbers _ _ _); [|done].
    apply stable_write. intros db HI. split; [|done].
    destruct (TripModel.code_in_use _ _); [|apply Htrips]; done. }
  intros r.
  destruct r; unfold handle, Routes.createTrip, Routes.useTrip,
    Routes.completeJourney, Routes.depositMoney, Routes.getFareBetweenStations,
    Routes.getFareInBetween, FareModel.getFare, TripModel.getValidTrip,
    TripModel.populate_user, TripModel.useTrip, TripModel.completeJourney,
    TripModel.findById, UserModel.findById, UserModel.deductBalance,
    UserModel.addBalance, UserModel.updateTripStats;
    repeat first [apply Hus | apply Hts | apply Htc | stable_read_step].
Qed.

(** ** The statuses that are stored *)

Lemma stable_live_save d :
  live_doc d → stable statuses_live (TripModel.save d) (λ _, True).
Proof.
  intros Hlive. unfold TripModel.save.
  destruct (TripModel.invalid_paths d); [|done].
  destruct (TripModel.modified d); [|done].
  apply stable_write. intros db HI.
  destruct (trips db !! TripModel._id d) as [t|] eqn:Ht; [|done].
  split; [|done]. apply map_Forall_insert_2; [|done].
  unfold TripModel.stored. cbn. unfold live_doc in Hlive.
  destruct (TripModel.status d); cbn; try done; by apply (HI _ _ Ht).
Qed.

Lemma stable_live_create a b c d e f g h :
  stable statuses_live (TripModel.create a b c d e f g h) (λ _, True).
Proof.
  unfold TripModel.create. apply stable_bind_True; [by apply stable_new_Date|].
  intros now. destruct g as [total|]; [|done].
  destruct (TripModel.invalid_numbers _ _ _); [|done].
  apply stable_write. intros db HI.
  destruct (TripModel.code_in_use _ _); [done|].
  split; [|done]. apply map_Forall_insert_2; [by left|done].
Qed.

Lemma stable_live_user_save d :
  stable statuses_live (UserModel.save d) (λ _, True).
Proof.
  unfold UserModel.save. destruct (UserModel.invalid_paths d); [|done].
  destruct (UserModel.modified d); [|done].
  apply stable_write. intros db HI. split; [|done].
  by destruct (users db !! UserModel._id d).
Qed.

Lemma stable_live_useTrip d :
  stable statuses_live (TripModel.useTrip d) (λ _, True).
Proof.
  unfold TripModel.useTrip. case_match; [done|].
  apply stable_bind_True; [by apply stable_new_Date|]. intros now.
  case_match; [done|].
  apply stable_bind_True; [by apply stable_new_Date|]. intros now1.
  apply stable_bind_True; [by apply stable_new_Date|]. intros now2.
  apply stable_live_save. by right.
Qed.

Lemma stable_live_completeJourney d :
  live_doc d → stable statuses_live (TripModel.completeJourney d) (λ _, True).
Proof.
  intros Hlive. unfold TripModel.completeJourney. case_match; [done|].
  apply stable_bind_True; [by apply stable_new_Date|]. intros now.
  by apply stable_live_save.
Qed.

Lemma stable_live_handle (r : Request) :
  stable statuses_live (handle r) (λ _, True).
Proof.
  destruct r; unfold handle.
  - unfold Routes.createTrip, FareModel.getFare, UserModel.findById,
      UserModel.deductBalance.
    repeat first [apply stable_live_user_save | apply stable_live_create
                 | stable_read_step].
  - unfold Routes.useTrip, TripModel.getValidTrip, TripModel.populate_user,
      UserModel.updateTripStats.
    repeat first [apply stable_live_user_save | apply stable_live_useTrip
                 | stable_read_step].
  - unfold Routes.completeJourney.
    apply stable_bind_True; [|done].
    eapply stable_bind with (Q := λ o, ∀ d, o = Some d → live_doc d).
    { apply stable_query. intros db _ d. unfold findById.
      by intros (t & _ & ->)%fmap_Some. }
    intros [d|] Hd; [|done]. specialize (Hd d eq_refl).
    case_match; [done|]. apply stable_try_catch; [|done].
    apply stable_bind_True; [|done]. by apply stable_live_completeJourney.
  - unfold Routes.depositMoney, UserModel.findById, UserModel.addBalance.
    repeat first [apply stable_live_user_save | stable_read_step].
  - unfold Routes.getFareBetweenStations, FareModel.getFare.
    repeat stable_read_step.
  - unfold Routes.getFareInBetween. repeat stable_read_step.
Qed.

(** X2. From a store in which every trip is 'created' or 'used', whatever
    requests of the API are served or interleaved, every stored trip is still
    'created' or 'used': the statuses 'expired' and 'cancelled' are never
    written. *)
Theorem api_never_stores_expired_or_cancelled (clock : nat → Date)
    (startOfMonth : Date → Date) (requests : list ApiRequest)
    (schedule : list bool) (r1 r2 : ApiRequest) (w : World) :
  statuses_live (store w) →
  statuses_live (store (serve clock (handle_api startOfMonth) requests w))
  ∧ statuses_live
      (store (interleave clock schedule (handle_api startOfMonth r1)
                (handle_api startOfMonth r2) w).1.1).
Proof.
  intros Hlive. apply stable_everywhere; [|done].
  apply stable_api; [done|apply stable_live_handle].
Qed.

(** ** The unique indexes *)

Lemma stable_codes_save d :
  stable codes_unique (TripModel.save d) (λ _, True).
Proof.
  unfold TripModel.save. destruct (TripModel.invalid_paths d); [|done].
  destruct (TripModel.modified d); [|done].
  apply stable_write. intros db HI.
  destruct (trips db !! TripModel._id d) as [t|] eqn:Ht; [|done].
  split; [|done]. intros i j t1 t2. cbn.
  destruct (decide (i = TripModel._id d)) as [->|Hi];
    destruct (decide (j = TripModel._id d)) as [->|Hj]; [done|..];
    rewrite ?lookup_insert_eq, ?lookup_insert_ne by done.
  - intros [= <-] Hj2 Hcode. by apply (HI _ _ t t2 Ht Hj2).
  - intros Hi1 [= <-] Hcode. by apply (HI _ _ t1 t Hi1 Ht).
  - apply HI.
Qed.

Lemma code_not_in_use code (ts : gmap ObjectId Trip.t) i t :
  TripModel.code_in_use code ts = false → ts !! i = Some t → Trip.tripCode t ≠ code.
Proof.
  intros Hfree%bool_decide_eq_false Ht Hcode. apply Hfree.
  apply map_Exists_lookup. eauto.
Qed.

Lemma stable_codes_create a b c d e f g h :
  stable codes_unique (TripModel.create a b c d e f g h) (λ _, True).
Proof.
  unfold TripModel.create. apply stable_bind_True; [by apply stable_new_Date|].
  intros now. destruct g as [total|]; [|done].
  destruct (TripModel.invalid_numbers _ _ _); [|done].
  apply stable_write. intros db HI.
  destruct (TripModel.code_in_use _ _) eqn:Hfree; [done|].
  split; [|done]. intros i j t1 t2. cbn.
  pose proof (fresh_trip_id db) as Hfresh.
  destruct (decide (i = fresh (dom (trips db)))) as [->|Hi];
    destruct (decide (j = fresh (dom (trips db)))) as [->|Hj]; [done|..];
    rewrite ?lookup_insert_eq, ?lookup_insert_ne by done.
  - intros [= <-] Hj2 Hcode. cbn in Hcode.
    by destruct (code_not_in_use _ _ _ _ Hfree Hj2).
  - intros Hi1 [= <-] Hcode. cbn in Hcode.
    by destruct (code_not_in_use _ _ _ _ Hfree Hi1).
  - apply HI.
Qed.

Lemma stable_codes_handle (r : Request) :
  stable codes_unique (handle r) (λ _, True).
Proof.
  assert (∀ d, stable codes_unique (UserModel.save d) (λ _, True)) as Hus.
  { intros d. unfold UserModel.save. destruct (UserModel.invalid_paths d); [|done].
    destruct (UserModel.modified d); [|done].
    apply stable_write. intros db HI. split; [|done].
    by destruct (users db !! _). }
  destruct r; unfold handle, Routes.createTrip, Routes.useTrip,
    Routes.completeJourney, Routes.depositMoney, Routes.getFareBetweenStations,
    Routes.getFareInBetween, FareModel.getFare, TripModel.getValidTrip,
    TripModel.populate_user, TripModel.useTrip, TripModel.completeJourney,
    TripModel.findById, UserModel.findById, UserModel.deductBalance,
    UserModel.addBalance, UserModel.updateTripStats;
    repeat first [apply Hus | apply stable_codes_save | apply stable_codes_create
                 | stable_read_step].
Qed.

(** X3. The codes of the stored trips stay pairwise different: from a store
    in which they are, whatever requests of the API are served or
    interleaved, no two stored trips share a code. *)
Theorem api_keeps_trip_codes_unique (clock : nat → Date)
    (startOfMonth : Date → Date) (requests : list ApiRequest)
    (schedule : list bool) (r1 r2 : ApiRequest) (w : World) :
  codes_unique (store w) →
  codes_unique (store (serve clock (handle_api startOfMonth) requests w))
  ∧ codes_unique
      (store (interleave clock schedule (handle_api startOfMonth r1)
                (handle_api startOfMonth r2) w).1.1).
Proof.
  intros Hunique. apply stable_everywhere; [|done].
  apply stable_api; [done|apply stable_codes_handle].
Qed.

Lemma stable_fares_save d :
  stable fares_unique (FareDocs.save d) (λ _, True).
Proof.
  unfold FareDocs.save. destruct (FareDocs.invalid_paths d); [|done].
  destruct (FareDocs.modified d); [|done].
  apply stable_write. intros db HI.
  destruct (fares db !! FareDocs._id d) as [f0|] eqn:Hf; [|done].
  split; [|done]. intros i j f g. cbn.
  destruct (decide (i = FareDocs._id d)) as [->|Hi];
    destruct (decide (j = FareDocs._id d)) as [->|Hj]; [done|..];
    rewrite ?lookup_insert_eq, ?lookup_insert_ne by done.
  - intros [= <-] Hj2 Hroute. by apply (HI _ _ f0 g Hf Hj2).
  - intros Hi1 [= <-] Hroute. by apply (HI _ _ f f0 Hi1 Hf).
  - apply HI.
Qed.

Lemma route_not_in_use f (fs : gmap ObjectId Fare.t) i g :
  FareDocs.route_in_use f fs = false → fs !! i = Some g → ¬ FareDocs.same_route g f.
Proof.
  intros Hfree%bool_decide_eq_false Hg Hroute. apply Hfree.
  apply map_Exists_lookup. eauto.
Qed.

Lemma fresh_fare_id (db : DB) : fares db !! fresh (dom (fares db)) = None.
Proof. apply not_elem_of_dom, is_fresh. Qed.

Lemma stable_fares_create a b c d e f g h :
  stable fares_unique (FareDocs.create a b c d e f g h) (λ _, True).
Proof.
  unfold FareDocs.create. destruct (FareDocs.invalid_numbers _ _ _); [|done].
  apply stable_write. intros db HI.
  destruct (FareDocs.route_in_use _ _) eqn:Hfree; [done|].
  split; [|done]. intros i j f1 f2. cbn.
  pose proof (fresh_fare_id db) as Hfresh.
  destruct (decide (i = fresh (dom (fares db)))) as [->|Hi];
    destruct (decide (j = fresh (dom (fares db)))) as [->|Hj]; [done|..];
    rewrite ?lookup_insert_eq, ?lookup_insert_ne by done.
  - intros [= <-] Hj2 (? & ? & ?).
    by destruct (route_not_in_use _ _ _ _ Hfree Hj2).
  - intros Hi1 [= <-] Hroute.
    by destruct (route_not_in_use _ _ _ _ Hfree Hi1).
  - apply HI.
Qed.

(** X4. The stored fares stay pairwise different in (fromStation, toStation,
    fareType): from a store in which they are, whatever requests of the API
    are served or interleaved (creations, updates and deletions of fares
    among them), no two stored fares are for the same route and type. *)
Theorem api_keeps_fare_routes_unique (clock : nat → Date)
    (startOfMonth : Date → Date) (requests : list ApiRequest)
    (schedule : list bool) (r1 r2 : ApiRequest) (w : World) :
  fares_unique (store w) →
  fares_unique (store (serve clock (handle_api startOfMonth) requests w))
  ∧ fares_unique
      (store (interleave clock schedule (handle_api startOfMonth r1)
                (handle_api startOfMonth r2) w).1.1).
Proof.
  intros Hunique. apply stable_everywhere; [|done].
  intros r.
  destruct (stable_fare_handlers fares_unique stable_fares_save stable_fares_create)
    as (Hc & Hu & Hd).
  destruct r; cbn [handle_api]; (apply stable_bind_True; [|done]).
  - by apply stable_handle_frame.
  - apply Hc.
  - apply Hu.
  - apply Hd.
  - apply stable_getTripById.
  - apply stable_getUserStatistics.
Qed.

(** ** The counters of the users *)

Section Counters.
Variable K : gmap ObjectId (Number * Number).

Lemma stable_counters_user_save d :
  counters_untouched d → stable (counters_kept K) (UserModel.save d) (λ _, True).
Proof.
  intros [Hn He]. unfold UserModel.save.
  destruct (UserModel.invalid_paths d); [|done].
  destruct (UserModel.modified d); [|done].
  apply stable_write. intros db HI.
  destruct (users db !! UserModel._id d) as [u|] eqn:Hu; [|done].
  split; [|done]. unfold counters_kept, counters in *. cbn.
  rewrite fmap_insert, <-HI. apply insert_id.
  rewrite lookup_fmap, Hu. cbn. unfold UserModel.stored. cbn.
  destruct (UserModel.totalTrips d), (UserModel.totalExpense d); by cbn in *.
Qed.

Lemma stable_counters_deductBalance d amount :
  counters_untouched d → stable (counters_kept K) (UserModel.deductBalance d amount) (λ _, True).
Proof.
  intros Hd. unfold UserModel.deductBalance. case_match; [done|].
  by apply stable_counters_user_save.
Qed.

Lemma stable_counters_addBalance d amount :
  counters_untouched d → stable (counters_kept K) (UserModel.addBalance d amount) (λ _, True).
Proof. intros Hd. by apply stable_counters_user_save. Qed.

(** On an owner loaded without its counters [updateTripStats] writes
    nothing: both sums are [NaN] and [save] rejects. *)
Lemma stable_counters_updateTripStats d tripFare :
  counters_unselected d → stable (counters_kept K) (UserModel.updateTripStats d tripFare) (λ _, True).
Proof.
  intros [Hn He]. unfold UserModel.updateTripStats, UserModel.save,
    UserModel.invalid_paths. cbn. rewrite Hn, He. cbn.
  by destruct (cast_failed _ || _).
Qed.

Lemma stable_counters_user_findById id :
  stable (counters_kept K) (UserModel.findById id)
    (λ o, ∀ d, o = Some d → counters_untouched d).
Proof.
  apply stable_query. intros db _ d. unfold findById.
  by intros (u & _ & ->)%fmap_Some.
Qed.

Lemma useTrip_keeps_user d :
  stable (λ _, True) (TripModel.useTrip d)
    (λ r, TripModel.user r = TripModel.user d).
Proof.
  unfold TripModel.useTrip. case_match; [done|].
  intros now db _. split; [done|]. cbn. case_match; [done|].
  intros now1 db1 _. split; [done|]. cbn.
  intros now2 db2 _. split; [done|]. cbn.
  unfold TripModel.save. destruct (TripModel.invalid_paths _); [|done].
  destruct (TripModel.modified _); [|done].
  intros now3 db3 _. split; [done|].
  cbn. by destruct (trips db3 !! _).
Qed.

Lemma stable_counters_getValidTrip tripCode :
  stable (counters_kept K) (TripModel.getValidTrip tripCode)
    (λ o, ∀ d, o = Some d → owner_projected d).
Proof.
  unfold TripModel.getValidTrip.
  apply stable_bind_True; [by apply stable_new_Date|]. intros now.
  apply stable_bind_True; [by apply stable_query|]. intros [[id t]|]; [|done].
  unfold TripModel.populate_user. cbn [TripModel.hydrate TripModel.user].
  intros now1 db HI. split; [done|]. cbn.
  intros d [= <-] owner. cbn. intros [= Howner].
  destruct (users db !! Trip.user t) as [u|]; [|done].
  injection Howner as <-. done.
Qed.

Lemma stable_counters_handle (r : Request) :
  stable (counters_kept K) (handle r) (λ _, True).
Proof.
  assert (∀ db ts, (counters_kept K) db → (counters_kept K) (set_trips ts db)) as Hframe by done.
  assert (∀ d, stable (counters_kept K) (TripModel.save d) (λ _, True)) as Hts.
  { intros d. unfold TripModel.save. destruct (TripModel.invalid_paths d); [|done].
    destruct (TripModel.modified d); [|done].
    apply stable_write. intros db HI. split; [|done].
    by destruct (trips db !! _). }
  assert (∀ a b c d e f g h, stable (counters_kept K) (TripModel.create a b c d e f g h) (λ _, True))
    as Htc.
  { intros. unfold TripModel.create. apply stable_bind_True; [by apply stable_new_Date|].
    intros now. destruct g as [total|]; [|done].
    destruct (TripModel.invalid_numbers _ _ _); [|done].
    apply stable_write. intros db HI. split; [|done].
    by destruct (TripModel.code_in_use _ _). }
  destruct r; unfold handle; (apply stable_bind_True; [|done]).
  - unfold Routes.createTrip, FareModel.getFare. case_match; [|done].
    apply stable_bind_True; [repeat stable_read_step|]. intros [[fid fare]|]; [|done].
    eapply stable_bind; [apply stable_counters_user_findById|].
    intros user Huser.
    apply stable_bind_True; [repeat stable_read_step|]. intros []; [done|].
    apply stable_bind_True; [apply Htc|]. intros trip.
    apply stable_bind_True; [|done].
    case_match; [|done]. destruct user as [user|]; [|done].
    apply stable_bind_True; [|done].
    apply stable_counters_deductBalance. by apply Huser.
  - unfold Routes.useTrip.
    eapply stable_bind; [apply stable_counters_getValidTrip|].
    intros [trip|] Htrip; [|done]. specialize (Htrip trip eq_refl).
    apply stable_try_catch; [|done].
    eapply stable_bind.
    { apply stable_and; [|apply useTrip_keeps_user].
      unfold TripModel.useTrip. repeat first [apply Hts | stable_read_step]. }
    intros trip' [_ Hsame]. cbn in Hsame.
    apply stable_bind_True; [|done].
    destruct (TripModel.user trip') as [|[owner|]] eqn:Huser; [done| |done].
    apply stable_counters_updateTripStats. apply Htrip. by rewrite <-Hsame.
  - unfold Routes.completeJourney, TripModel.findById, TripModel.completeJourney.
    repeat first [apply Hts | stable_read_step].
  - unfold Routes.depositMoney. case_match; [|done].
    eapply stable_bind; [apply stable_counters_user_findById|].
    intros [user|] Huser; [|done].
    apply stable_bind_True; [|repeat stable_read_step].
    apply stable_counters_addBalance. by apply Huser.
  - unfold Routes.getFareBetweenStations, FareModel.getFare.
    repeat stable_read_step.
  - unfold Routes.getFareInBetween. repeat stable_read_step.
Qed.

End Counters.

(** X5. No request of the API changes the counters totalTrips and
    totalExpense of a stored user: whatever requests are served or
    interleaved, redemptions among them, the counters of all users are those
    of the start. *)
Theorem api_never_changes_trip_counters (clock : nat → Date)
    (startOfMonth : Date → Date) (requests : list ApiRequest)
    (schedule : list bool) (r1 r2 : ApiRequest) (w : World) :
  counters (store (serve clock (handle_api startOfMonth) requests w))
  = counters (store w)
  ∧ counters (store (interleave clock schedule (handle_api startOfMonth r1)
                       (handle_api startOfMonth r2) w).1.1)
    = counters (store w).
Proof.
  apply (stable_everywhere (counters_kept (counters (store w)))); [|done].
  apply stable_api; [done|apply stable_counters_handle].
Qed.

(* ===================================================================== *)
(** * More on redeeming *)
(* ===================================================================== *)

Lemma getValidTrip_filter_spec tripCode now t :
  TripModel.getValidTrip_filter tripCode now t = true ↔ redeemable tripCode now t.
Proof.
  unfold TripModel.getValidTrip_filter, redeemable.
  rewrite !andb_true_iff, !bool_decide_eq_true. tauto.
Qed.

Section RedeemMore.
Variable clock : nat → Date.

(** What a redemption that passes both checks leaves in the store, whether
    the owner is stored or not. *)
Lemma run_useTrip_marks (w : World) (tripCode : string) (id : ObjectId) (t : Trip.t) :
  findOne (TripModel.getValidTrip_filter tripCode (clock (tick w)))
    (trips (store w)) = Some (id, t) →
  ¬ (Trip.expiresAt t < clock (3 + tick w))%Z →
  TripModel.invalid_numbers (Trip.fare t) (Trip.numberOfPassengers t)
    (Trip.totalAmount t) = [] →
  (run clock (Routes.useTrip tripCode) w).1
  = mkWorld
      (put_trip id
         (Trip.with_journey used (Some (clock (4 + tick w)))
            (Some (clock (5 + tick w))) (Trip.journeyEndTime t) t) (store w))
      (7 + tick w).
Proof.
  intros Hfind Hlive Hvalid.
  apply findOne_Some in Hfind as Hstored. destruct Hstored as [Ht Hfilter].
  apply getValidTrip_filter_spec in Hfilter as (_ & Hstatus & _).
  unfold Routes.useTrip. rewrite run_bind, (run_getValidTrip_found _ _ id t) by done.
  unfold valid_trip_document.
  rewrite run_try_catch, run_bind. unfold TripModel.useTrip.
  cbn [TripModel.set_user TripModel.hydrate TripModel.status
       TripModel.expiresAt read].
  rewrite Hstatus, bool_decide_false by (by intros []).
  run_steps. rewrite bool_decide_false by done. run_steps.
  erewrite run_trip_save; [|done|done|exact Ht].
  cbn [TripModel.user TripModel.set_user TripModel.set_status
       TripModel.set_usedAt TripModel.set_journeyStartTime TripModel.set_journey
       TripModel.totalAmount TripModel.hydrate].
  run_steps.
  destruct (users (store w) !! Trip.user t) as [owner|];
    cbn [fmap option_fmap option_map].
  - by rewrite run_updateTripStats_projected.
  - done.
Qed.

(** X6. A Redeem always answers (it never throws): 404 exactly when no stored
    trip has the code with status 'created' and expiresAt after the clock
    reading of the lookup, and a 404 leaves the store as it was. *)
Theorem redeem_not_found_iff (w : World) (tripCode : string) :
  let r := run clock (Routes.useTrip tripCode) w in
  ∃ resp, r.2 = Returned resp
    ∧ (statusCode resp = 404%Z
       ↔ ¬ ∃ id t, trips (store w) !! id = Some t
                   ∧ redeemable tripCode (clock (tick w)) t)
    ∧ (statusCode resp = 404%Z → store r.1 = store w).
Proof.
  cbn zeta. unfold Routes.useTrip. rewrite run_bind.
  destruct (findOne (TripModel.getValidTrip_filter tripCode (clock (tick w)))
              (trips (store w))) as [[id t]|] eqn:Hfind.
  - rewrite (run_getValidTrip_found _ _ id t) by done.
    apply findOne_Some in Hfind as [Ht Hfilter%getValidTrip_filter_spec].
    rewrite run_try_catch, run_bind.
    destruct (run clock (TripModel.useTrip _) _) as [w1 [trip|e]]; cbn.
    + rewrite run_bind.
      destruct (run clock _ w1) as [w2 [owner|e]]; cbn;
        (eexists; split; [done|]; cbn; split; [split; [done|]|done];
         intros Hno; destruct Hno; eauto).
    + eexists. split; [done|]. cbn. split; [split; [done|]|done].
      intros Hno. destruct Hno. eauto.
  - rewrite run_getValidTrip_none by done. cbn. eexists. split; [done|]. cbn.
    split; [|done]. split; [|done]. intros _ (id & t & Ht & Hr).
    rewrite findOne_None in Hfind.
    apply getValidTrip_filter_spec in Hr. by rewrite (Hfind id t Ht) in Hr.
Qed.

(** X7. A code can be redeemed once: after a Redeem that passed both checks
    the trip is stored as 'used', and, the codes of the store being unique,
    the next Redeem of the same code is answered 404 and writes nothing. *)
Theorem redeem_twice_not_found (w : World) (tripCode : string) (id : ObjectId)
    (t : Trip.t) :
  codes_unique (store w) →
  findOne (TripModel.getValidTrip_filter tripCode (clock (tick w)))
    (trips (store w)) = Some (id, t) →
  ¬ (Trip.expiresAt t < clock (3 + tick w))%Z →
  TripModel.invalid_numbers (Trip.fare t) (Trip.numberOfPassengers t)
    (Trip.totalAmount t) = [] →
  let w' := (run clock (Routes.useTrip tripCode) w).1 in
  Trip.status <$> trips (store w') !! id = Some used
  ∧ run clock (Routes.useTrip tripCode) w'
    = (mkWorld (store w') (2 + tick w'),
       Returned (errorResponse (Text "Invalid or expired trip code") 404)).
Proof.
  intros Hunique Hfind Hlive Hvalid w'. subst w'.
  rewrite (run_useTrip_marks w tripCode id t) by done.
  apply findOne_Some in Hfind as [Ht Hfilter%getValidTrip_filter_spec].
  destruct Hfilter as (Hcode & _ & _).
  split; [cbn; by rewrite lookup_insert_eq|].
  unfold Routes.useTrip. rewrite run_bind, run_getValidTrip_none; [done|].
  apply findOne_None. intros j t' Ht'. cbn in Ht'.
  destruct (TripModel.getValidTrip_filter _ _ t') eqn:Hf; [|done].
  apply getValidTrip_filter_spec in Hf as (Hcode' & Hstatus' & _).
  destruct (decide (j = id)) as [->|Hne].
  - rewrite lookup_insert_eq in Ht'. injection Ht' as <-. done.
  - rewrite lookup_insert_ne in Ht' by done.
    destruct Hne. apply (Hunique j id t' t Ht' Ht). congruence.
Qed.

(** X8. A trip that is still running when it is looked up and lapses before
    the method checks again: the handler answers 400 'Trip has expired' and
    nothing is written; the stored trip is still 'created'. *)
Theorem redeem_lapsing_before_the_second_check (w : World) (tripCode : string)
    (id : ObjectId) (t : Trip.t) :
  findOne (TripModel.getValidTrip_filter tripCode (clock (tick w)))
    (trips (store w)) = Some (id, t) →
  (Trip.expiresAt t < clock (3 + tick w))%Z →
  let r := run clock (Routes.useTrip tripCode) w in
  r.2 = Returned (errorResponse (MessageOf (JsError "Trip has expired")) 400)
  ∧ store r.1 = store w
  ∧ Trip.status <$> trips (store r.1) !! id = Some created.
Proof.
  intros Hfind Hlapsed r. subst r.
  destruct (redeem_lapsing_in_flight clock w tripCode id t Hfind Hlapsed)
    as (w' & -> & Hstore).
  cbn. split_and!; [done|done|]. rewrite Hstore.
  apply findOne_Some in Hfind as [Ht Hfilter%getValidTrip_filter_spec].
  destruct Hfilter as (_ & Hstatus & _). by rewrite Ht; cbn; rewrite Hstatus.
Qed.

(** X9. On a fully loaded user document whose stored balance is not
    negative, [updateTripStats] does count the trip: the stored totalTrips
    becomes totalTrips + 1 and totalExpense becomes totalExpense + the fare
    given, both sums in double precision, the balance and the rest staying.
    When one of the two sums is not a number the method fails on validation
    and nothing is written. *)
Theorem updateTripStats_counts_on_loaded_document (w : World) (id : ObjectId)
    (u : User.t) (tripFare : Number) :
  users (store w) !! id = Some u →
  (num 0 ≤ User.balance u)%J →
  let r := run clock
             (UserModel.updateTripStats (UserModel.hydrate None id u) (Some tripFare))
             w in
  let trips_counted := Js.add (Some (User.totalTrips u)) (Some (num 1)) in
  let expense_counted := Js.add (Some (User.totalExpense u)) (Some tripFare) in
  (∀ n' e', trips_counted = Some n' → expense_counted = Some e' →
     (∃ d, r.2 = Returned d)
     ∧ users (store r.1)
       = <[id := User.with_ledger (User.balance u) n' e' u]> (users (store w))
     ∧ trips (store r.1) = trips (store w))
  ∧ (trips_counted = None ∨ expense_counted = None →
     (∃ paths, r.2 = Uncaught (ValidationError paths)) ∧ store r.1 = store w).
Proof.
  intros Hu Hb r trips_counted expense_counted. subst r.
  unfold UserModel.updateTripStats.
  cbn [UserModel.hydrate UserModel.totalTrips UserModel.totalExpense read
       UserModel.set_totalTrips].
  fold trips_counted expense_counted. split.
  - intros n' e' -> ->.
    erewrite run_user_save; [by eauto| |done|done].
    unfold UserModel.invalid_paths. cbn. by rewrite Hb.
  - intros Hnan. rewrite run_user_save_invalid.
    + split; [by eexists|done].
    + unfold UserModel.invalid_paths.
      cbn [UserModel.balance UserModel.totalTrips UserModel.totalExpense
           UserModel.set_totalExpense UserModel.set_totalTrips].
      destruct (_ || _); [done|]. cbn [app].
      destruct Hnan as [H|H]; rewrite H; [done|]. by destruct trips_counted.
Qed.

End RedeemMore.

(* ===================================================================== *)
(** * More on issuing *)
(* ===================================================================== *)

Ltac settle_outcome :=
  split_and!; intros; simplify_eq/=; done.

Section IssueMore.
Variable clock : nat → Date.

(** X10. An Issue served on its own, by a requester whose stored balance is
    finite, is all or nothing. Unless it is answered 201 (any other
    response, or an error thrown past the handler) the store is left as it
    was. When it is answered 201, exactly one trip was added, owned by the
    requester; if that trip is paid from the balance the stored balance of
    the requester became balance - totalAmount of the trip (the difference
    in double precision), and otherwise the users are as they were. *)
Theorem issue_all_or_nothing (w : World) (req_user : ObjectId) (uuid : string)
    (body : Routes.CreateTripBody) :
  (∀ u, users (store w) !! req_user = Some u → isFinite (User.balance u) = true) →
  let r := run clock (Routes.createTrip req_user uuid body) w in
  (∀ resp, r.2 = Returned resp → statusCode resp ≠ 201%Z → store r.1 = store w)
  ∧ (∀ e, r.2 = Uncaught e → store r.1 = store w)
  ∧ (∀ resp, r.2 = Returned resp → statusCode resp = 201%Z →
       ∃ id t, trips (store w) !! id = None
         ∧ trips (store r.1) = <[id := t]> (trips (store w))
         ∧ Trip.user t = req_user
         ∧ (Trip.paymentMethod t = by_balance →
            ∃ u b', users (store w) !! req_user = Some u
              ∧ Js.sub (Some (User.balance u)) (Some (Trip.totalAmount t)) = Some b'
              ∧ users (store r.1)
                = <[req_user := User.with_ledger b' (User.totalTrips u)
                                  (User.totalExpense u) u]>
                    (users (store w)))
         ∧ (Trip.paymentMethod t ≠ by_balance →
            users (store r.1) = users (store w))).
Proof.
  intros Hfinite. cbn zeta. unfold Routes.createTrip.
  destruct (Routes.createTripValidation body) as [|msg ?]; [|settle_outcome].
  unfold FareModel.getFare. run_steps.
  destruct (findOne _ (fares (store w))) as [[fid f]|]; run_steps;
    [|settle_outcome].
  destruct (Js.mul (Some (Fare.fare f))
              (Some (num (Routes.numberOfPassengers body)))) as [total|] eqn:Hmul.
  - destruct (TripModel.invalid_numbers (Fare.fare f)
                (num (Routes.numberOfPassengers body)) total)
      as [|path paths] eqn:Hvalid;
    destruct (TripModel.code_in_use (TripModel.default_tripCode uuid)
                (trips (store w))) eqn:Hfree;
    destruct (decide (default by_balance (Routes.paymentMethod body) = by_balance))
      as [Hpm|Hpm];
    rewrite ?(bool_decide_true _ Hpm), ?(bool_decide_false _ Hpm); try rewrite Hpm;
    destruct (users (store w) !! req_user) as [u|] eqn:Hu; run_steps;
    cbn [UserModel.hydrate UserModel.balance read Js.lt run];
    try settle_outcome;
    try (destruct (ltb (User.balance u) total) eqn:Hlt; [settle_outcome|]);
    run_steps;
    try (rewrite run_trip_create by done; run_steps);
    try (destruct (sub_finite (User.balance u) total) as [b' Hsub];
         [left; by apply (Hfinite u)|];
         erewrite (run_deductBalance clock req_user u u) by done; cbn [run]);
    try (unfold TripModel.create; run_steps; rewrite Hvalid, ?run_write;
         cbn [store tick Trip.tripCode]; rewrite ?Hfree; settle_outcome).
    all: split_and!; [intros; simplify_eq/=; done..|].
    all: intros resp [= <-] _; eexists _, _;
      (split; [apply fresh_trip_id|]); (split; [reflexivity|]);
      (split; [reflexivity|]); cbn; split; intros Hm; try done.
    all: eauto.
  - destruct (bool_decide (default by_balance (Routes.paymentMethod body)
                           = by_balance));
      destruct (users (store w) !! req_user) as [u|]; run_steps;
      cbn [UserModel.hydrate UserModel.balance read Js.lt run];
      unfold TripModel.create; run_steps; settle_outcome.
Qed.

(** With a balance that is not finite the same request is not all or
    nothing: the balance being [Infinity] and the total, twice 1e308, too,
    the check passes and the trip is stored, then the difference is [NaN], the
    assignment fails to cast and [save] rejects; the error goes past the
    handler with the trip written. *)
Lemma issue_on_infinite_balance_leaves_trip :
  let rich := User.with_ledger (Infinity false) (num 0) (num 0) Scenario.user_U in
  let dear := Fare.mk 1 2 (round64 (Q2Qc (inject_Z (10 ^ 308)))) (num 5) (num 10)
                true regular 0 None in
  let w := mkWorld (mkDB {[1%N := Scenario.station_A; 2%N := Scenario.station_B]}
                      {[1%N := dear]} {[7%N := rich]} ∅) 0 in
  let r := run Scenario.clock
             (Routes.createTrip 7 Scenario.uuid1 Scenario.two_by_balance) w in
  r.2 = Uncaught (ValidationError ["balance"])
  ∧ size (trips (store r.1)) = 1
  ∧ users (store r.1) = users (store w).
Proof. cbn zeta. split_and!; by vm_compute. Qed.

(** X11. The handler draws the trip code once and does not look for another
    one: when the code drawn is that of a stored trip, an Issue that passed
    every check ends in an uncaught duplicate-key error of the index on
    tripCode, and nothing is written: no trip, no debit. *)
Theorem issue_code_collision_is_uncaught (w : World) (req_user : ObjectId)
    (uuid : string) (body : Routes.CreateTripBody) (fid : ObjectId) (f : Fare.t)
    (u : User.t) :
  (1 ≤ Routes.numberOfPassengers body ≤ 10)%Z →
  findOne (FareModel.getFare_filter (Routes.fromStation body) (Routes.toStation body)
             regular (clock (tick w))) (fares (store w)) = Some (fid, f) →
  (num 0 ≤ Fare.fare f)%J →
  users (store w) !! req_user = Some u →
  Js.lt (Some (User.balance u))
    (Js.mul (Some (Fare.fare f)) (Some (num (Routes.numberOfPassengers body))))
  = false →
  TripModel.code_in_use (TripModel.default_tripCode uuid) (trips (store w)) = true →
  let r := run clock (Routes.createTrip req_user uuid body) w in
  r.2 = Uncaught (DuplicateKey "tripCode") ∧ store r.1 = store w.
Proof.
  intros Hn Hfare Hvalid Hu Hle Hused. cbn zeta.
  destruct (mul_nonneg (Fare.fare f) (Routes.numberOfPassengers body))
    as (total & Hmul & _); [done|lia|].
  pose proof (trip_numbers_valid _ _ _ Hvalid Hn Hmul) as Hnumbers.
  unfold Routes.createTrip, Routes.createTripValidation.
  rewrite bool_decide_true by done.
  unfold FareModel.getFare. run_steps. rewrite Hfare. run_steps. rewrite Hu.
  run_steps. rewrite Hmul in Hle |- *.
  destruct (bool_decide (default by_balance (Routes.paymentMethod body) = by_balance));
    cbn [UserModel.hydrate UserModel.balance read run];
    rewrite ?Hle; run_steps;
    unfold TripModel.create; run_steps;
    rewrite Hnumbers, run_write;
    cbn [store tick Trip.tripCode]; by rewrite Hused.
Qed.

End IssueMore.

(* ===================================================================== *)
(** * Deposits that are refused *)
(* ===================================================================== *)

Section DepositMore.
Variable clock : nat → Date.

(** X12. Two refusals of a Deposit. With an amount that passes its check, a
    transaction id that is sent but blank (only white space) is refused with
    400, whatever the payment method, cash included, before the user is
    looked up. A Deposit that passes validation for a user who is not stored
    is answered 404 'User not found'. In both cases the store is left as it
    was. *)
Theorem deposit_refusals (w : World) (req_user : ObjectId)
    (body : Routes.DepositBody) :
  let r := run clock (Routes.depositMoney req_user body) w in
  (∀ s, isFloat (num 1) (Routes.amount body) = true →
        Routes.transactionId body = Some s → trim s = "" →
        r = (w, Returned
                  (errorResponse
                     (Text "Transaction ID is required for non-cash payments") 400)))
  ∧ (Routes.depositValidation body = [] → users (store w) !! req_user = None →
     r.2 = Returned (errorResponse (Text "User not found") 404)
     ∧ store r.1 = store w).
Proof.
  cbn zeta. unfold Routes.depositMoney. split.
  - intros s Hamount Hs Hblank. unfold Routes.depositValidation.
    by rewrite Hamount, Hs, bool_decide_true.
  - intros -> Hu. run_steps. by rewrite Hu.
Qed.

End DepositMore.

(* ===================================================================== *)
(** * The two fare lookups *)
(* ===================================================================== *)

Section Lookups.
Variable clock : nat → Date.

(** X13. The in-between lookup does not look at effectiveTo. For a route
    whose only stored row is active but ended before the current time (the
    rows being unique per route and type, and both stations stored), the
    in-between lookup still answers 200 with that row, whereas the route
    lookup answers 404 and an Issue for the route is answered 404 'Fare not
    found for this route'. *)
Theorem in_between_quotes_an_ended_fare (w : World) (a b : ObjectId)
    (sa sb : Station.t) (id : ObjectId) (f : Fare.t) (till : Date)
    (req_user : ObjectId) (uuid : string) (body : Routes.CreateTripBody) :
  fares_unique (store w) →
  stations (store w) !! a = Some sa → stations (store w) !! b = Some sb →
  fares (store w) !! id = Some f →
  Fare.fromStation f = a → Fare.toStation f = b → Fare.fareType f = regular →
  Fare.isActive f = true →
  Fare.effectiveTo f = Some till → (till < clock (tick w))%Z →
  Routes.fromStation body = a → Routes.toStation body = b →
  (1 ≤ Routes.numberOfPassengers body ≤ 10)%Z →
  (run clock (Routes.getFareInBetween (Some a) (Some b) None) w).2
  = Returned (successResponse (id, f) "Fare retrieved successfully" 200)
  ∧ (run clock (Routes.getFareBetweenStations (Some a) (Some b) None) w).2
    = Returned (errorResponse (Text "Fare not found for this route") 404)
  ∧ (run clock (Routes.createTrip req_user uuid body) w).2
    = Returned (errorResponse (Text "Fare not found for this route") 404).
Proof.
  intros Huniq Ha Hb Hf Hfrom Hto Htype Hactive Htill Hpast Hbfrom Hbto Hn.
  assert (findOne (FareModel.getFare_filter a b regular (clock (tick w)))
            (fares (store w)) = None) as Hnone.
  { apply findOne_None. intros j g Hg.
    destruct (FareModel.getFare_filter _ _ _ _ g) eqn:Hm; [|done].
    apply getFare_filter_spec in Hm as (Hgf & Hgt & Hgty & _ & Hwin).
    assert (j = id) as ->.
    { apply (Huniq j id g f Hg Hf). unfold FareDocs.same_route. by split_and!; congruence. }
    assert (g = f) as -> by congruence.
    destruct Hwin as [Hwin|(till' & Hwin & ?)]; [congruence|].
    assert (till' = till) as -> by congruence. lia. }
  split_and!.
  - erewrite run_getFareInBetween by done. cbn [default snd].
    erewrite findOne_unique; [done|exact Hf| |].
    + apply inBetween_filter_spec. by split_and!.
    + intros j g Hg Hm%inBetween_filter_spec. destruct Hm as (? & ? & ? & _).
      apply (Huniq j id g f Hg Hf). unfold FareDocs.same_route.
      by split_and!; congruence.
  - unfold Routes.getFareBetweenStations. cbn [default].
    by rewrite run_bind, run_getFare, Hnone.
  - unfold Routes.createTrip, Routes.createTripValidation.
    rewrite bool_decide_true by done.
    by rewrite run_bind, run_getFare, Hbfrom, Hbto, Hnone.
Qed.

(** X14. Whenever the route lookup answers 200 for two stored stations, the
    in-between lookup answers 200 as well (with a row for the same route and
    type): the filter of the second asks for less. *)
Theorem route_found_then_in_between_found (w : World) (a b : ObjectId)
    (sa sb : Station.t) (fareType : option FareType) (found : ObjectId * Fare.t) :
  stations (store w) !! a = Some sa → stations (store w) !! b = Some sb →
  (run clock (Routes.getFareBetweenStations (Some a) (Some b) fareType) w).2
  = Returned (successResponse found "Fare retrieved successfully" 200) →
  ∃ row, (run clock (Routes.getFareInBetween (Some a) (Some b) fareType) w).2
         = Returned (successResponse row "Fare retrieved successfully" 200)
         ∧ fares (store w) !! row.1 = Some row.2
         ∧ FareDocs.same_route row.2 found.2
         ∧ Fare.isActive row.2 = true.
Proof.
  intros Ha Hb. unfold Routes.getFareBetweenStations.
  rewrite run_bind, run_getFare.
  destruct (findOne (FareModel.getFare_filter _ _ _ _) _) as [[id f]|] eqn:Hfind;
    [|done].
  cbn [run snd]. intros [= <-].
  apply findOne_Some in Hfind as [Hf Hm%getFare_filter_spec].
  destruct Hm as (Hfrom & Hto & Hty & Hact & _).
  erewrite run_getFareInBetween by done.
  destruct (findOne (Routes.inBetween_filter _ _ _) _) as [[j g]|] eqn:Hin.
  - apply findOne_Some in Hin as [Hg Hm%inBetween_filter_spec].
    destruct Hm as (? & ? & ? & ?).
    eexists. split; [done|]. cbn. unfold FareDocs.same_route.
    by split_and!; congruence.
  - rewrite findOne_None in Hin. specialize (Hin id f Hf).
    assert (Routes.inBetween_filter a b (default regular fareType) f = true) as Ht
      by by apply inBetween_filter_spec.
    congruence.
Qed.

End Lookups.

(* ===================================================================== *)
(** * The administration of fares *)
(* ===================================================================== *)

Lemma fare_numbers_valid (fare distance duration : Number) :
  (num 0 ≤ fare)%J → (num 0 ≤ distance)%J → (num 1 ≤ duration)%J →
  FareDocs.invalid_numbers (Some fare) (Some distance) (Some duration) = [].
Proof.
  intros Hf Hd Hu. unfold FareDocs.invalid_numbers, Js.lt.
  by rewrite Hf, Hd, Hu.
Qed.

(** [isFloat({ min })] on a number: finite and not below [min]. *)
Lemma isFloat_number (min x : Number) :
  isFloat min (JNumber x) = true ↔ isFinite x = true ∧ (min ≤ x)%J.
Proof.
  destruct x as [q|]; cbn [isFloat isFinite]; [|by split; [|intros []]].
  rewrite negb_true_iff. unfold le_num. by split; [|intros []].
Qed.

Lemma fareValidation_nil body :
  FareRoutes.fareValidation body = [] →
  (num 0 ≤ FareRoutes.fare body)%J ∧ (num 0 ≤ FareRoutes.distance body)%J
  ∧ (num 1 ≤ num (FareRoutes.duration body))%J.
Proof.
  unfold FareRoutes.fareValidation. intros H.
  destruct (isFloat (num 0) (JNumber (FareRoutes.fare body))) eqn:Hf; [|done].
  destruct (isFloat (num 0) (JNumber (FareRoutes.distance body))) eqn:Hd; [|done].
  cbn [app] in H. case_bool_decide; [done|].
  split_and!; [by apply isFloat_number..|apply num_le; lia].
Qed.

Section FareAdmin.
Variable clock : nat → Date.

Lemma run_fare_save (d : FareDocs.Document) f w :
  FareDocs.invalid_paths d = [] → FareDocs.modified d = true →
  fares (store w) !! FareDocs._id d = Some f →
  run clock (FareDocs.save d) w
  = (next (put_fare (FareDocs._id d) (FareDocs.stored d f) (store w)) w, Returned d).
Proof.
  intros Hv Hm Hf. unfold FareDocs.save. rewrite Hv, Hm, run_write.
  by rewrite Hf.
Qed.

Lemma run_fare_save_unmodified (d : FareDocs.Document) w :
  FareDocs.invalid_paths d = [] → FareDocs.modified d = false →
  run clock (FareDocs.save d) w = (w, Returned d).
Proof. intros Hv Hm. unfold FareDocs.save. by rewrite Hv, Hm. Qed.

(** What [createFare] does once the body is valid and both stations are
    stored. *)
Lemma run_createFare (w : World) (body : FareRoutes.CreateFareBody)
    (sa sb : Station.t) :
  FareRoutes.fareValidation body = [] →
  stations (store w) !! FareRoutes.fromStation body = Some sa →
  stations (store w) !! FareRoutes.toStation body = Some sb →
  let f := fare_of_body body (clock (3 + tick w)) in
  let id := fresh (dom (fares (store w))) in
  (run clock (FareRoutes.createFare body) w).2
  = match findOne (Routes.inBetween_filter (FareRoutes.fromStation body)
                     (FareRoutes.toStation body)
                     (default regular (FareRoutes.fareType body)))
            (fares (store w)) with
    | Some _ =>
        Returned (errorResponse (Text "Fare already exists for this route and type") 400)
    | None =>
        if FareDocs.route_in_use f (fares (store w))
        then Uncaught (DuplicateKey "fromStation_1_toStation_1_fareType_1")
        else Returned (successResponse (FareDocs.hydrate id f)
                         "Fare created successfully" 201)
    end
  ∧ store (run clock (FareRoutes.createFare body) w).1
    = match findOne (Routes.inBetween_filter (FareRoutes.fromStation body)
                       (FareRoutes.toStation body)
                       (default regular (FareRoutes.fareType body)))
              (fares (store w)) with
      | Some _ => store w
      | None =>
          if FareDocs.route_in_use f (fares (store w)) then store w
          else put_fare id f (store w)
      end.
Proof.
  intros Hvalid Ha Hb f id. subst f id.
  destruct (fareValidation_nil body Hvalid) as (Hf & Hd & Hu).
  unfold FareRoutes.createFare. rewrite Hvalid. run_steps. rewrite Ha, Hb.
  run_steps. destruct (findOne _ _); [done|].
  unfold fare_of_body, FareDocs.create.
  destruct (FareRoutes.effectiveFrom body) as [from|]; run_steps; cbn [run];
    rewrite fare_numbers_valid by done; run_steps; rewrite !run_write;
    cbn [store tick default fst snd Nat.add];
    by destruct (FareDocs.route_in_use _ _).
Qed.

(** X15. [createFare] with a valid body and both stations stored has three
    outcomes, decided by the stored rows for the route and type of the body.
    With no such row it answers 201 and adds exactly the row of the body,
    active, under a new id. With an active one it answers 400 'Fare already
    exists for this route and type'. With only inactive ones it ends in an
    uncaught duplicate-key error of the unique index. In the last two cases
    the store is left as it was. *)
Theorem createFare_outcomes (w : World) (body : FareRoutes.CreateFareBody)
    (sa sb : Station.t) :
  FareRoutes.fareValidation body = [] →
  stations (store w) !! FareRoutes.fromStation body = Some sa →
  stations (store w) !! FareRoutes.toStation body = Some sb →
  let r := run clock (FareRoutes.createFare body) w in
  let f := fare_of_body body (clock (3 + tick w)) in
  let id := fresh (dom (fares (store w))) in
  ((∀ j g, fares (store w) !! j = Some g → ¬ FareDocs.same_route g f) →
     r.2 = Returned (successResponse (FareDocs.hydrate id f)
                       "Fare created successfully" 201)
     ∧ fares (store w) !! id = None
     ∧ store r.1 = put_fare id f (store w))
  ∧ ((∃ j g, fares (store w) !! j = Some g ∧ FareDocs.same_route g f
             ∧ Fare.isActive g = true) →
     r.2 = Returned
             (errorResponse (Text "Fare already exists for this route and type") 400)
     ∧ store r.1 = store w)
  ∧ ((∃ j g, fares (store w) !! j = Some g ∧ FareDocs.same_route g f) →
     (∀ j g, fares (store w) !! j = Some g → FareDocs.same_route g f →
             Fare.isActive g = false) →
     r.2 = Uncaught (DuplicateKey "fromStation_1_toStation_1_fareType_1")
     ∧ store r.1 = store w).
Proof.
  intros Hvalid Ha Hb r f id.
  destruct (run_createFare w body sa sb Hvalid Ha Hb) as [Hout Hstore].
  fold r f id in Hout, Hstore. rewrite Hout, Hstore. clear Hout Hstore.
  assert (∀ g, Routes.inBetween_filter (FareRoutes.fromStation body)
                 (FareRoutes.toStation body)
                 (default regular (FareRoutes.fareType body)) g = true
               ↔ FareDocs.same_route g f ∧ Fare.isActive g = true) as Hfilter.
  { intros g. rewrite inBetween_filter_spec. unfold FareDocs.same_route, f.
    cbn. tauto. }
  split_and!.
  - intros Hnone.
    destruct (findOne _ _) as [[j g]|] eqn:Hfind.
    { apply findOne_Some in Hfind as [Hg Hm%Hfilter]. destruct (Hnone j g); tauto. }
    unfold FareDocs.route_in_use. rewrite bool_decide_false.
    + split_and!; [done|apply fresh_fare_id|done].
    + intros (j & g & Hg & Hroute)%map_Exists_lookup. by destruct (Hnone j g).
  - intros (j & g & Hg & Hroute & Hact).
    destruct (findOne _ _) eqn:Hfind; [done|].
    rewrite findOne_None in Hfind. specialize (Hfind j g Hg).
    assert (Routes.inBetween_filter (FareRoutes.fromStation body)
              (FareRoutes.toStation body)
              (default regular (FareRoutes.fareType body)) g = true) as Ht
      by by apply Hfilter.
    congruence.
  - intros (j & g & Hg & Hroute) Hinactive.
    destruct (findOne _ _) as [[j' g']|] eqn:Hfind.
    { apply findOne_Some in Hfind as [Hg' Hm%Hfilter].
      destruct Hm as [Hr' Hact']. rewrite (Hinactive j' g' Hg' Hr') in Hact'. done. }
    unfold FareDocs.route_in_use. rewrite bool_decide_true; [done|].
    apply map_Exists_lookup. eauto.
Qed.

(** What [deleteFare] does to a stored row that satisfies the schema. *)
Lemma run_deleteFare (w : World) (id : ObjectId) (f : Fare.t) :
  fares (store w) !! id = Some f → fare_schema_valid f →
  run clock (FareRoutes.deleteFare id) w
  = (mkWorld (put_fare id (deactivated f) (store w)) (2 + tick w),
     Returned (mkResponse 200 true (Text "Fare deleted successfully") None)).
Proof.
  intros Hf (Hfare & Hdist & Hdur). unfold FareRoutes.deleteFare, FareDocs.findById.
  run_steps. rewrite Hf. run_steps.
  erewrite run_fare_save; [done| |done|exact Hf].
  unfold FareDocs.invalid_paths. cbn. by apply fare_numbers_valid.
Qed.

(** X16. [deleteFare] is a soft delete. The row stays stored, with isActive
    false and nothing else changed, and no other row, user or trip is
    touched. Both fare lookups for its route then answer 404 (the rows being
    unique per route and type), and deleting the row again answers 200 and
    leaves the store as it is. *)
Theorem deleteFare_hides_the_route (w : World) (id : ObjectId) (f : Fare.t)
    (sa sb : Station.t) :
  fares_unique (store w) →
  fares (store w) !! id = Some f → fare_schema_valid f →
  stations (store w) !! Fare.fromStation f = Some sa →
  stations (store w) !! Fare.toStation f = Some sb →
  let r := run clock (FareRoutes.deleteFare id) w in
  let route_of p := p (Some (Fare.fromStation f)) (Some (Fare.toStation f))
                      (Some (Fare.fareType f)) in
  r.2 = Returned (mkResponse 200 true (Text "Fare deleted successfully") None)
  ∧ store r.1 = put_fare id (deactivated f) (store w)
  ∧ answered_with 404 (run clock (route_of Routes.getFareBetweenStations) r.1).2
  ∧ answered_with 404 (run clock (route_of Routes.getFareInBetween) r.1).2
  ∧ (run clock (FareRoutes.deleteFare id) r.1).2 = r.2
  ∧ store (run clock (FareRoutes.deleteFare id) r.1).1 = store r.1.
Proof.
  intros Huniq Hf Hvalid Ha Hb r route_of. subst r route_of.
  rewrite (run_deleteFare w id f Hf Hvalid). cbn [fst snd store].
  assert (∀ j g, fares (put_fare id (deactivated f) (store w)) !! j = Some g →
                 FareDocs.same_route g f → Fare.isActive g = false) as Hinactive.
  { intros j g Hg Hroute. cbn in Hg.
    destruct (decide (j = id)) as [->|Hne].
    - rewrite lookup_insert_eq in Hg. by injection Hg as <-.
    - rewrite lookup_insert_ne in Hg by done.
      destruct Hne. by apply (Huniq j id g f Hg Hf). }
  split_and!; [done|done|..].
  - unfold Routes.getFareBetweenStations. rewrite run_bind, run_getFare.
    cbn [default store Datatypes.id].
    rewrite (proj2 (findOne_None _ _)); [by eexists|].
    intros j g Hg. destruct (FareModel.getFare_filter _ _ _ _ g) eqn:Hm; [|done].
    apply getFare_filter_spec in Hm as (? & ? & ? & Hact & _).
    rewrite (Hinactive j g Hg) in Hact; [done|]. by split_and!.
  - erewrite run_getFareInBetween by done. cbn [default Datatypes.id].
    rewrite (proj2 (findOne_None _ _)); [by eexists|].
    intros j g Hg. destruct (Routes.inBetween_filter _ _ _ g) eqn:Hm; [|done].
    apply inBetween_filter_spec in Hm as (? & ? & ? & Hact).
    rewrite (Hinactive j g Hg) in Hact; [done|]. by split_and!.
  - erewrite (run_deleteFare _ id (deactivated f)); [done| |done].
    cbn. by rewrite lookup_insert_eq.
  - erewrite (run_deleteFare _ id (deactivated f)); [| |done].
    + cbn. unfold put_fare, set_fares. cbn. by rewrite insert_insert_eq.
    + cbn. by rewrite lookup_insert_eq.
Qed.

(** X17. A deleted fare cannot be brought back through the API: after the
    soft delete of the only row of a route and type, [createFare] for that
    route and type, with a valid body, ends in an uncaught duplicate-key
    error and writes nothing; the row stays inactive. *)
Theorem deleted_fare_cannot_be_recreated (w : World) (id : ObjectId) (f : Fare.t)
    (body : FareRoutes.CreateFareBody) (sa sb : Station.t) :
  fares_unique (store w) →
  fares (store w) !! id = Some f → fare_schema_valid f →
  FareRoutes.fareValidation body = [] →
  FareRoutes.fromStation body = Fare.fromStation f →
  FareRoutes.toStation body = Fare.toStation f →
  default regular (FareRoutes.fareType body) = Fare.fareType f →
  stations (store w) !! Fare.fromStation f = Some sa →
  stations (store w) !! Fare.toStation f = Some sb →
  let w1 := (run clock (FareRoutes.deleteFare id) w).1 in
  let r := run clock (FareRoutes.createFare body) w1 in
  r.2 = Uncaught (DuplicateKey "fromStation_1_toStation_1_fareType_1")
  ∧ store r.1 = store w1
  ∧ Fare.isActive <$> fares (store r.1) !! id = Some false.
Proof.
  intros Huniq Hf Hvalid Hbody Hfrom Hto Htype Ha Hb w1 r. subst w1 r.
  rewrite (run_deleteFare w id f Hf Hvalid). cbn [fst].
  set (w1 := mkWorld _ _).
  destruct (run_createFare w1 body sa sb Hbody) as [Hout Hstore];
    [by rewrite Hfrom|by rewrite Hto|].
  cbn zeta in Hout, Hstore. rewrite Hout, Hstore. clear Hout Hstore.
  assert (findOne (Routes.inBetween_filter (FareRoutes.fromStation body)
                     (FareRoutes.toStation body)
                     (default regular (FareRoutes.fareType body)))
            (fares (store w1)) = None) as ->.
  { apply findOne_None. intros j g Hg.
    destruct (Routes.inBetween_filter _ _ _ g) eqn:Hm; [|done].
    apply inBetween_filter_spec in Hm as (Hgf & Hgt & Hgty & Hact).
    cbn in Hg. destruct (decide (j = id)) as [->|Hne].
    - rewrite lookup_insert_eq in Hg. by injection Hg as <-.
    - rewrite lookup_insert_ne in Hg by done. destruct Hne.
      apply (Huniq j id g f Hg Hf). unfold FareDocs.same_route.
      split_and!; congruence. }
  unfold FareDocs.route_in_use. rewrite bool_decide_true.
  - split_and!; [done|done|]. cbn. by rewrite lookup_insert_eq.
  - apply map_Exists_lookup. exists id, (deactivated f). split.
    + cbn. by rewrite lookup_insert_eq.
    + unfold FareDocs.same_route, fare_of_body. cbn. by split_and!.
Qed.

(** X18. [updateFare] edits the price, the distance and the duration only.
    A body that names another field of the row is refused with 400 before
    the row is looked up. A valid body for a stored row that satisfies the
    schema is answered 200: the fields sent replace the stored ones, the
    route, the type, the dates and the flag of the row stay, and nothing else
    in the store changes. *)
Theorem updateFare_edits_three_fields_only (w : World) (id : ObjectId)
    (body : FareRoutes.UpdateFareBody) (f : Fare.t) :
  fares (store w) !! id = Some f → fare_schema_valid f →
  FareRoutes.fareEditValidation body = [] →
  let r := run clock (FareRoutes.updateFare id body) w in
  (FareRoutes.invalidFields body ≠ [] →
     r = (w, Returned
               (errorResponse
                  (Text ("Cannot edit the following fields: "
                         +:+ String.concat ", " (FareRoutes.invalidFields body)
                         +:+ ". Only fare, distance, and duration can be updated."))
                  400)))
  ∧ (FareRoutes.invalidFields body = [] →
     (∃ d, r.2 = Returned (successResponse d "Fare updated successfully" 200))
     ∧ fares (store r.1) = <[id := edited body f]> (fares (store w))
     ∧ stations (store r.1) = stations (store w)
     ∧ users (store r.1) = users (store w)
     ∧ trips (store r.1) = trips (store w)).
Proof.
  intros Hf (Hfare & Hdist & Hdur) Hvalid r. subst r.
  unfold FareRoutes.updateFare. rewrite Hvalid. split.
  - intros Hinv. by destruct (FareRoutes.invalidFields body).
  - intros ->. unfold FareDocs.findById. run_steps. rewrite Hf. run_steps.
    unfold FareRoutes.fareEditValidation in Hvalid.
    destruct body as [[v1|] [v2|] [v3|] others];
      cbn [FareRoutes.new_fare FareRoutes.new_distance FareRoutes.new_duration]
        in Hvalid |- *.
    all: repeat match type of Hvalid with
         | context [isFloat ?m ?v] =>
             let E := fresh "E" in
             destruct (isFloat m v) eqn:E;
             [apply isFloat_number in E as [_ ?]|done]
         | context [bool_decide ?P] =>
             destruct (decide P);
             [by rewrite (bool_decide_true P) in Hvalid by done
             |rewrite (bool_decide_false P) in Hvalid by done]
         end.
    all: first
      [ erewrite run_fare_save; [|
           unfold FareDocs.invalid_paths; cbn -[FareDocs.invalid_numbers];
           apply fare_numbers_valid; first [done|apply num_le; lia]
         |done|exact Hf]
      | (* nothing sent: nothing to save *)
        rewrite run_fare_save_unmodified
          by (done || (unfold FareDocs.invalid_paths; cbn;
                       by apply fare_numbers_valid)) ].
    all: cbn; split_and!; try done; eauto.
    unfold edited. cbn. destruct f. by rewrite insert_id.
Qed.

End FareAdmin.

(* ===================================================================== *)
(** * The pagination block of the list responses *)
(* ===================================================================== *)

(** X19. For a positive limit and a total that is not negative, totalPages is
    the least number of pages of that size that hold all the rows, hasNext is
    true exactly on the pages before the last one, and hasPrev exactly on the
    pages after the first. A limit of 0 or one that does not parse is
    replaced by the default, so the division is never by zero. *)
Theorem pagination_counts_pages (page limit total : Z) :
  (0 < limit)%Z → (0 ≤ total)%Z →
  ∃ n, Paging.totalPages (Paging.pagination page limit total) = Some n
    ∧ ((n - 1) * limit < total ≤ n * limit)%Z
    ∧ (Paging.hasNext (Paging.pagination page limit total) = true ↔ (page < n)%Z)
    ∧ (Paging.hasPrev (Paging.pagination page limit total) = true ↔ (1 < page)%Z)
    ∧ ∀ parsed fallback, fallback ≠ 0%Z →
        is_Some (Paging.totalPages
                   (Paging.pagination page (Paging.parse_or parsed fallback) total)).
Proof.
  intros Hlimit Htotal. unfold Paging.pagination, Paging.ceil_div. cbn.
  rewrite bool_decide_false by lia. eexists. split; [done|].
  pose proof (Z.div_mod (- total) limit ltac:(lia)) as Hdiv.
  pose proof (Z.mod_pos_bound (- total) limit Hlimit) as Hmod.
  rewrite !bool_decide_eq_true. split_and!; [nia|nia|split; nia|done|].
  intros parsed fallback Hfallback.
  assert (Paging.parse_or parsed fallback ≠ 0%Z) as Hnz.
  { unfold Paging.parse_or. destruct parsed as [n|]; [|done]. by case_bool_decide. }
  by rewrite bool_decide_false.
Qed.

(* ===================================================================== *)
(** * Reading one trip *)
(* ===================================================================== *)

Section Reading.
Variable clock : nat → Date.

(** X20. [getTripById] on a stored trip whose owner is stored answers 200 to
    the owner and to an admin, and 403 'Not authorized' to everybody else.
    When the owner of the trip is not stored, it throws a TypeError, also
    for an admin. An id that is not stored is answered 404. The store is
    only read. *)
Theorem getTripById_owner_or_admin (w : World) (req_user : ObjectId)
    (req_role : Role) (id : ObjectId) :
  let r := run clock (ReadRoutes.getTripById req_user req_role id) w in
  store r.1 = store w
  ∧ (trips (store w) !! id = None →
     r.2 = Returned (errorResponse (Text "Trip not found") 404))
  ∧ (∀ t, trips (store w) !! id = Some t →
       (users (store w) !! Trip.user t = None → r.2 = Uncaught TypeError)
       ∧ (is_Some (users (store w) !! Trip.user t) →
          (Trip.user t = req_user ∨ req_role = role_admin →
             answered_with 200 r.2)
          ∧ (Trip.user t ≠ req_user → req_role ≠ role_admin →
             r.2 = Returned (errorResponse (Text "Not authorized") 403)))).
Proof.
  cbn zeta. unfold ReadRoutes.getTripById.
  rewrite run_bind, run_trip_findById.
  destruct (trips (store w) !! id) as [t|] eqn:Ht; cbn [fmap option_fmap option_map];
    [|by split_and!].
  rewrite run_bind. unfold TripModel.populate_user.
  cbn [TripModel.hydrate TripModel.user]. rewrite run_query.
  cbn [store tick next TripModel.set_user TripModel.user].
  destruct (users (store w) !! Trip.user t) as [u|] eqn:Hu;
    cbn [fmap option_fmap option_map UserModel.hydrate UserModel._id].
  - destruct (decide (Trip.user t = req_user)) as [Howner|Hother];
      destruct (decide (req_role = role_admin)) as [Hadmin|Hplain].
    all: repeat first
           [ rewrite (bool_decide_true (Trip.user t ≠ req_user)) by done
           | rewrite (bool_decide_false (Trip.user t ≠ req_user)) by (by intros [])
           | rewrite (bool_decide_true (req_role ≠ role_admin)) by done
           | rewrite (bool_decide_false (req_role ≠ role_admin)) by (by intros []) ].
    all: cbn [andb run fst snd store]; split; [done|]; split; [done|].
    all: intros ? [= <-]; rewrite Hu; split; [done|]; intros _; split.
    all: try (by intros _; eexists); try (by intros [|]); try (by intros).
  - cbn [run fst snd store]. split; [done|]. split; [done|].
    intros ? [= <-]. rewrite Hu. split; [done|]. by intros [? [=]].
Qed.

End Reading.

(* ===================================================================== *)
(** * The statistics of a user *)
(* ===================================================================== *)

Lemma filter_length_le {A} (p q : A → bool) (l : list A) :
  (∀ x, x ∈ l → p x = true → q x = true) →
  length (List.filter p l) ≤ length (List.filter q l).
Proof.
  induction l as [|x l IH]; intros Himp; [done|]. cbn.
  assert (length (List.filter p l) ≤ length (List.filter q l)) as Hle.
  { apply IH. intros y Hy. apply Himp. by right. }
  pose proof (Himp x ltac:(left)) as Hx.
  destruct (p x), (q x); cbn; first [lia | by specialize (Hx eq_refl)].
Qed.

Lemma filter_length_disjoint {A} (p q r s : A → bool) (l : list A) :
  (∀ x, x ∈ l → p x = true → s x = true ∧ q x = false ∧ r x = false) →
  (∀ x, x ∈ l → q x = true → s x = true ∧ r x = false) →
  (∀ x, x ∈ l → r x = true → s x = true) →
  length (List.filter p l) + length (List.filter q l) + length (List.filter r l)
  ≤ length (List.filter s l).
Proof.
  induction l as [|x l IH]; intros Hp Hq Hr; [done|]. cbn.
  assert (length (List.filter p l) + length (List.filter q l)
          + length (List.filter r l) ≤ length (List.filter s l)) as Hle.
  { apply IH; intros y Hy; [apply Hp|apply Hq|apply Hr]; by right. }
  pose proof (Hp x ltac:(left)) as Hpx. pose proof (Hq x ltac:(left)) as Hqx.
  pose proof (Hr x ltac:(left)) as Hrx.
  destruct (p x), (q x), (r x), (s x); cbn;
    first [ lia
          | by destruct (Hpx eq_refl) as (? & ? & ?)
          | by destruct (Hqx eq_refl) as (? & ?)
          | by specialize (Hrx eq_refl) ].
Qed.

Lemma countDocuments_none {D} (query : D → bool) (c : gmap ObjectId D) :
  (∀ id d, c !! id = Some d → query d = false) → countDocuments query c = 0.
Proof.
  intros Hnone. unfold countDocuments.
  assert (∀ kd, kd ∈ map_to_list c → query kd.2 = false) as Hall.
  { intros [id d] Hin%elem_of_map_to_list. by apply (Hnone id d). }
  induction (map_to_list c) as [|kd l IH]; [done|]. cbn.
  rewrite (Hall kd) by left. apply IH. intros ? ?. apply Hall. by right.
Qed.

Section Statistics.
Variable clock : nat → Date.
Variable startOfMonth : Date → Date.

Lemma run_getUserStatistics (w : World) (req_user : ObjectId) (u : User.t) :
  users (store w) !! req_user = Some u →
  run clock (ReadRoutes.getUserStatistics startOfMonth req_user) w
  = (mkWorld (store w) (9 + tick w),
     Returned
       (successResponse
          (ReadRoutes.mkStatistics
             (countDocuments (ReadRoutes.of_user req_user) (trips (store w)))
             (countDocuments (ReadRoutes.used_of_user req_user) (trips (store w)))
             (countDocuments
                (ReadRoutes.unused_of_user req_user (clock (3 + tick w)))
                (trips (store w)))
             (countDocuments (ReadRoutes.expired_of_user req_user) (trips (store w)))
             (Some (User.totalExpense u)) (Some (User.balance u))
             (countDocuments
                (ReadRoutes.used_since req_user (startOfMonth (clock (6 + tick w))))
                (trips (store w)))
             (ReadRoutes.monthlyTotal req_user (startOfMonth (clock (6 + tick w)))
                (trips (store w))))
          "Statistics retrieved successfully" 200)).
Proof.
  intros Hu. unfold ReadRoutes.getUserStatistics. run_steps. rewrite Hu.
  by run_steps.
Qed.

(** X21. The statistics of a stored user are answered 200 and only read the
    store. The counts fit together: used, unused and expired trips are
    disjoint parts of the user's trips, so their sum is at most totalTrips,
    and the trips used this month are among the used ones; with no trip used
    this month the monthly expense is 0. The balance and totalExpense
    reported are the stored ones. And since no request of the API stores the
    status 'expired', from a store whose trips are all 'created' or 'used'
    the statistics report 0 expired trips after whatever requests. *)
Theorem statistics_counts_fit_together (w : World) (req_user : ObjectId)
    (u : User.t) :
  users (store w) !! req_user = Some u →
  let r := run clock (ReadRoutes.getUserStatistics startOfMonth req_user) w in
  ∃ s, r.2 = Returned (successResponse s "Statistics retrieved successfully" 200)
    ∧ store r.1 = store w
    ∧ ReadRoutes.usedTrips s + ReadRoutes.unusedTrips s + ReadRoutes.expiredTrips s
      ≤ ReadRoutes.totalTrips s
    ∧ ReadRoutes.monthlyTrips s ≤ ReadRoutes.usedTrips s
    ∧ (ReadRoutes.monthlyTrips s = 0 → ReadRoutes.monthlyExpense s = Some (num 0))
    ∧ ReadRoutes.balance s = Some (User.balance u)
    ∧ ReadRoutes.totalExpense s = Some (User.totalExpense u)
    ∧ (statuses_live (store w) → ReadRoutes.expiredTrips s = 0).
Proof.
  intros Hu r. subst r. rewrite (run_getUserStatistics w req_user u Hu).
  eexists. split; [done|]. cbn [fst snd store].
  cbn [ReadRoutes.usedTrips ReadRoutes.unusedTrips ReadRoutes.expiredTrips
       ReadRoutes.totalTrips ReadRoutes.monthlyTrips ReadRoutes.monthlyExpense
       ReadRoutes.balance ReadRoutes.totalExpense].
  split_and!; [done| | | |done|done|].
  - unfold countDocuments. apply filter_length_disjoint.
    + intros [i t] _. cbn.
      unfold ReadRoutes.used_of_user, ReadRoutes.unused_of_user,
        ReadRoutes.expired_of_user.
      intros (Hof & Hst%bool_decide_eq_true)%andb_true_iff. rewrite Hof, Hst.
      by rewrite (bool_decide_false (used = created)),
           (bool_decide_false (used = expired)) by done.
    + intros [i t] _. cbn.
      unfold ReadRoutes.unused_of_user, ReadRoutes.expired_of_user.
      intros ((Hof & Hst%bool_decide_eq_true)%andb_true_iff & _)%andb_true_iff.
      rewrite Hof, Hst. by rewrite (bool_decide_false (created = expired)) by done.
    + intros [i t] _. cbn. unfold ReadRoutes.expired_of_user.
      by intros (Hof & _)%andb_true_iff.
  - unfold countDocuments. apply filter_length_le.
    intros [i t] _. cbn. unfold ReadRoutes.used_since.
    by intros (? & _)%andb_true_iff.
  - unfold countDocuments, ReadRoutes.monthlyTotal.
    by destruct (List.filter _ _).
  - intros Hlive. apply countDocuments_none. intros i t Ht.
    unfold ReadRoutes.expired_of_user.
    destruct (Hlive i t Ht) as [Hst|Hst]; cbn in Hst; rewrite Hst;
      by rewrite bool_decide_false, andb_false_r by done.
Qed.

End Statistics.

(* ===================================================================== *)
(** * Completing a journey again *)
(* ===================================================================== *)

Section CompleteMore.
Variable clock : nat → Date.

Lemma run_completeJourney_used (w : World) (id : ObjectId) (t : Trip.t) :
  trips (store w) !! id = Some t → Trip.status t = used →
  TripModel.invalid_numbers (Trip.fare t) (Trip.numberOfPassengers t)
    (Trip.totalAmount t) = [] →
  run clock (Routes.completeJourney (Trip.user t) id) w
  = (mkWorld
       (put_trip id
          (Trip.with_journey used (Trip.usedAt t) (Trip.journeyStartTime t)
             (Some (clock (1 + tick w))) t) (store w))
       (3 + tick w),
     Returned
       (successResponse
          (TripModel.set_journeyEndTime (clock (1 + tick w)) (TripModel.hydrate id t))
          "Journey completed successfully" 200)).
Proof.
  intros Ht Hstatus Hvalid. unfold Routes.completeJourney.
  rewrite run_bind, run_trip_findById, Ht. cbn [fmap option_fmap option_map].
  cbn [TripModel.hydrate TripModel.user TripModel.user_toString].
  rewrite bool_decide_false by (by intros []).
  rewrite run_try_catch, run_bind. unfold TripModel.completeJourney.
  cbn [TripModel.hydrate TripModel.status read].
  rewrite Hstatus, bool_decide_false by (by intros []).
  run_steps. erewrite run_trip_save; [|done|done|exact Ht].
  cbn [run fst snd]. unfold TripModel.stored, next. cbn. by rewrite Hstatus.
Qed.

(** X22. A journey can be completed again: after a CompleteJourney by the
    owner of a 'used' trip, the same request is answered 200 once more, and
    the stored journeyEndTime is replaced by the clock reading of the second
    request; the time the trip was used and its journeyStartTime stay. *)
Theorem completeJourney_can_be_repeated (w : World) (id : ObjectId) (t : Trip.t) :
  trips (store w) !! id = Some t → Trip.status t = used →
  TripModel.invalid_numbers (Trip.fare t) (Trip.numberOfPassengers t)
    (Trip.totalAmount t) = [] →
  let w1 := (run clock (Routes.completeJourney (Trip.user t) id) w).1 in
  let r := run clock (Routes.completeJourney (Trip.user t) id) w1 in
  trips (store w1) !! id
  = Some (Trip.with_journey used (Trip.usedAt t) (Trip.journeyStartTime t)
            (Some (clock (1 + tick w))) t)
  ∧ answered_with 200 r.2
  ∧ trips (store r.1) !! id
    = Some (Trip.with_journey used (Trip.usedAt t) (Trip.journeyStartTime t)
              (Some (clock (4 + tick w))) t).
Proof.
  intros Ht Hstatus Hvalid w1 r. subst r w1.
  rewrite (run_completeJourney_used w id t Ht Hstatus Hvalid). cbn [fst].
  set (t1 := Trip.with_journey _ _ _ _ t).
  assert (trips (put_trip id t1 (store w)) !! id = Some t1) as Ht1
    by (cbn; by rewrite lookup_insert_eq).
  change (Trip.user t) with (Trip.user t1).
  erewrite (run_completeJourney_used _ id t1); [|exact Ht1|done|done].
  cbn [fst snd store tick]. split_and!; [done|by eexists|].
  cbn. by rewrite lookup_insert_eq.
Qed.

End CompleteMore.

(* ===================================================================== *)
(** * Crediting and debiting the same amount *)
(* ===================================================================== *)

Section RoundTrip.
Variable clock : nat → Date.

(** X23. On a stored user whose balance is a whole number that is not
    negative, crediting a whole amount that is not negative and then
    debiting the same amount, the sum staying below 2^53, both succeed and
    leave the store exactly as it was. *)
Theorem deposit_then_debit_restores_the_store (w : World) (id : ObjectId)
    (u : User.t) (balance amount : Z) :
  users (store w) !! id = Some u →
  User.balance u = num balance →
  (0 ≤ balance)%Z → (0 ≤ amount)%Z → (balance + amount < 2 ^ 53)%Z →
  let r1 := run clock (ledger id (Deposit (num amount))) w in
  let r2 := run clock (ledger id (Debit (num amount))) r1.1 in
  (∃ d, r1.2 = Returned d) ∧ (∃ d, r2.2 = Returned d)
  ∧ User.balance <$> users (store r1.1) !! id = Some (num (balance + amount))
  ∧ store r2.1 = store w.
Proof.
  intros Hu Hbalance Hb Ha Hsum r1 r2. subst r2 r1. unfold ledger.
  rewrite run_bind, run_user_findById, Hu. cbn [fmap option_fmap option_map].
  erewrite (run_addBalance clock id u u _ (num (balance + amount)));
    [|rewrite Hbalance; by apply add_whole|apply num_le; lia|done].
  cbn [fst snd]. set (u1 := User.with_ledger _ _ _ u).
  rewrite run_bind, run_user_findById. cbn [store next].
  assert (users (put_user id u1 (store w)) !! id = Some u1) as Hu1
    by (cbn; by rewrite lookup_insert_eq).
  rewrite Hu1. cbn [fmap option_fmap option_map].
  erewrite (run_deductBalance clock id u1 u1 _ (num balance));
    [|apply num_le; lia| |done].
  - cbn [fst snd store next]. split_and!; [by eexists|by eexists|..].
    + by subst u1.
    + unfold put_user, set_users, u1. cbn. rewrite insert_insert_eq.
      destruct w as [[] ?], u. cbn in *. subst. f_equal. by apply insert_id.
  - unfold u1. cbn [User.balance User.with_ledger].
    rewrite sub_whole by lia. do 2 f_equal. lia.
Qed.

(** With fractions the sum is rounded and the balance need not come back:
    100 + 33.33 - 33.33 leaves 99.99999999999999. *)
Lemma deposit_then_debit_of_a_fraction :
  let r1 := run Scenario.clock (ledger 7 (Deposit Cases.thirty_three_33)) Scenario.w0 in
  let r2 := run Scenario.clock (ledger 7 (Debit Cases.thirty_three_33)) r1.1 in
  to_string <$> (User.balance <$> users (store r1.1) !! 7%N)
  = Some "133.32999999999998"
  ∧ to_string <$> (User.balance <$> users (store r2.1) !! 7%N)
    = Some "99.99999999999999".
Proof. cbn zeta. split; by vm_compute. Qed.

End RoundTrip.

(* ===================================================================== *)
(** * The properties above on the scenario *)
(* ===================================================================== *)

Lemma scenario_statuses_live : statuses_live (store Scenario.w0).
Proof. apply map_Forall_empty. Defined.

Lemma scenario_codes_unique : codes_unique (store Scenario.w0).
Proof. intros i j t1 t2 Hi. cbn in Hi. by rewrite lookup_empty in Hi. Defined.

Lemma singleton_codes_unique (db : DB) (id : ObjectId) (t : Trip.t) :
  trips db = {[id := t]} → codes_unique db.
Proof.
  intros Htrips i j g h Hi Hj _. rewrite Htrips in Hi, Hj.
  apply lookup_singleton_Some in Hi as [<- _].
  by apply lookup_singleton_Some in Hj as [<- _].
Defined.

Lemma scenario_fare_valid : fare_schema_valid Scenario.fare_AB.
Proof. split_and!; compute_done. Defined.

Lemma api_never_stores_negative_balance_witness :
  ledger_valid (store Scenario.w0)
  ∧ ledger_valid
      (store (serve Scenario.clock (handle_api Cases.start_of_month)
                Cases.three_requests Scenario.w0))
  ∧ ledger_valid
      (store (interleave Scenario.clock Scenario.reads_then_writes
                (handle_api Cases.start_of_month
                   (Public (Issue 7 Scenario.uuid1 Scenario.two_by_balance)))
                (handle_api Cases.start_of_month
                   (Public (DepositMoney 7 Scenario.deposit_100)))
                Scenario.w0).1.1).
Proof.
  split; [exact scenario_ledger_valid|].
  apply (api_never_stores_negative_balance Scenario.clock Cases.start_of_month
           Cases.three_requests Scenario.reads_then_writes
           (Public (Issue 7 Scenario.uuid1 Scenario.two_by_balance))
           (Public (DepositMoney 7 Scenario.deposit_100)) Scenario.w0).
  exact scenario_ledger_valid.
Defined.

Lemma api_never_stores_expired_or_cancelled_witness :
  statuses_live (store Scenario.w0)
  ∧ statuses_live
      (store (serve Scenario.slow_clock (handle_api Cases.start_of_month)
                Cases.three_requests Scenario.w0))
  ∧ statuses_live
      (store (interleave Scenario.slow_clock Scenario.reads_then_writes
                (handle_api Cases.start_of_month
                   (Public (Issue 7 Scenario.uuid1 Scenario.two_by_balance)))
                (handle_api Cases.start_of_month (Public (Redeem "TRIP-1B9D6BCD")))
                Scenario.w0).1.1).
Proof.
  split; [exact scenario_statuses_live|].
  apply (api_never_stores_expired_or_cancelled Scenario.slow_clock
           Cases.start_of_month Cases.three_requests Scenario.reads_then_writes
           (Public (Issue 7 Scenario.uuid1 Scenario.two_by_balance))
           (Public (Redeem "TRIP-1B9D6BCD")) Scenario.w0).
  exact scenario_statuses_live.
Defined.

Lemma api_keeps_trip_codes_unique_witness :
  codes_unique (store Scenario.w0)
  ∧ codes_unique
      (store (serve Scenario.clock (handle_api Cases.start_of_month)
                Cases.three_requests Scenario.w0))
  ∧ codes_unique
      (store (interleave Scenario.clock Scenario.reads_then_writes
                (handle_api Cases.start_of_month
                   (Public (Issue 7 Scenario.uuid1 Scenario.two_by_balance)))
                (handle_api Cases.start_of_month
                   (Public (Issue 8 Scenario.uuid1 Scenario.two_by_cash)))
                Scenario.w0).1.1).
Proof.
  split; [exact scenario_codes_unique|].
  apply (api_keeps_trip_codes_unique Scenario.clock Cases.start_of_month
           Cases.three_requests Scenario.reads_then_writes
           (Public (Issue 7 Scenario.uuid1 Scenario.two_by_balance))
           (Public (Issue 8 Scenario.uuid1 Scenario.two_by_cash)) Scenario.w0).
  exact scenario_codes_unique.
Defined.

Lemma api_keeps_fare_routes_unique_witness :
  fares_unique (store Scenario.w0)
  ∧ fares_unique
      (store (serve Scenario.clock (handle_api Cases.start_of_month)
                Cases.admin_requests Scenario.w0))
  ∧ fares_unique
      (store (interleave Scenario.clock Scenario.reads_then_writes
                (handle_api Cases.start_of_month (CreateFare Cases.fare_BA_body))
                (handle_api Cases.start_of_month (CreateFare Cases.fare_BA_body))
                Scenario.w0).1.1).
Proof.
  split; [exact scenario_fares_unique|].
  apply (api_keeps_fare_routes_unique Scenario.clock Cases.start_of_month
           Cases.admin_requests Scenario.reads_then_writes
           (CreateFare Cases.fare_BA_body) (CreateFare Cases.fare_BA_body)
           Scenario.w0).
  exact scenario_fares_unique.
Defined.

Lemma scenario_w1_codes_unique : codes_unique (store Scenario.w1).
Proof. by apply (singleton_codes_unique _ 0%N Scenario.trip1). Defined.

Lemma redeem_twice_not_found_witness :
  codes_unique (store Scenario.w1)
  ∧ Trip.status <$> trips (store Scenario.w2) !! 0%N = Some used
  ∧ run Scenario.clock (Routes.useTrip "TRIP-1B9D6BCD") Scenario.w2
    = (mkWorld (store Scenario.w2) (2 + tick Scenario.w2),
       Returned (errorResponse (Text "Invalid or expired trip code") 404)).
Proof.
  split; [exact scenario_w1_codes_unique|].
  apply (redeem_twice_not_found Scenario.clock Scenario.w1 "TRIP-1B9D6BCD" 0
           Scenario.trip1);
    [exact scenario_w1_codes_unique|by vm_compute|by vm_compute|by vm_compute].
Defined.

Lemma redeem_lapsing_before_the_second_check_witness :
  (Cases.jump_clock (tick Cases.w1_jump) < Trip.expiresAt Scenario.trip1)%Z
  ∧ (Trip.expiresAt Scenario.trip1 < Cases.jump_clock (3 + tick Cases.w1_jump))%Z
  ∧ (run Cases.jump_clock (Routes.useTrip "TRIP-1B9D6BCD") Cases.w1_jump).2
    = Returned (errorResponse (MessageOf (JsError "Trip has expired")) 400)
  ∧ store (run Cases.jump_clock (Routes.useTrip "TRIP-1B9D6BCD") Cases.w1_jump).1
    = store Cases.w1_jump
  ∧ Trip.status
      <$> trips (store (run Cases.jump_clock (Routes.useTrip "TRIP-1B9D6BCD")
                          Cases.w1_jump).1) !! 0%N
    = Some created.
Proof.
  assert (Trip.expiresAt Scenario.trip1
          < Cases.jump_clock (3 + tick Cases.w1_jump))%Z as Hlapsed by by vm_compute.
  split; [by vm_compute|]. split; [exact Hlapsed|].
  apply (redeem_lapsing_before_the_second_check Cases.jump_clock Cases.w1_jump
           "TRIP-1B9D6BCD" 0 Scenario.trip1); [by vm_compute|exact Hlapsed].
Defined.

Lemma updateTripStats_counts_on_loaded_document_witness :
  (num 0 ≤ User.balance Scenario.user_V)%J
  ∧ ∃ e', users (store (run Scenario.clock
                          (UserModel.updateTripStats
                             (UserModel.hydrate None 8 Scenario.user_V)
                             (Some Cases.thirty_three_33))
                          Scenario.w0).1)
          = <[8%N := User.with_ledger (num 100) (num 4) e' Scenario.user_V]>
              (users (store Scenario.w0))
          ∧ to_string e' = "233.32999999999998".
Proof.
  assert (num 0 ≤ User.balance Scenario.user_V)%J as Hb by by vm_compute.
  split; [exact Hb|].
  destruct (updateTripStats_counts_on_loaded_document Scenario.clock Scenario.w0 8
              Scenario.user_V Cases.thirty_three_33) as [Hok _];
    [reflexivity|exact Hb|].
  destruct (Js.add (Some (User.totalExpense Scenario.user_V))
              (Some Cases.thirty_three_33)) as [e'|] eqn:He;
    [|vm_compute in He; discriminate He].
  assert (Js.add (Some (User.totalTrips Scenario.user_V)) (Some (num 1))
          = Some (num 4)) as Hn by by vm_compute.
  destruct (Hok (num 4) e' Hn eq_refl) as (_ & Husers & _).
  exists e'. split; [exact Husers|].
  vm_compute in He. injection He as <-. by vm_compute.
Defined.

Lemma issue_code_collision_is_uncaught_witness :
  TripModel.code_in_use (TripModel.default_tripCode Scenario.uuid1)
    (trips (store Scenario.w1)) = true
  ∧ (run Scenario.clock (Routes.createTrip 8 Scenario.uuid1 Scenario.two_by_balance)
       Scenario.w1).2
    = Uncaught (DuplicateKey "tripCode")
  ∧ store (run Scenario.clock
             (Routes.createTrip 8 Scenario.uuid1 Scenario.two_by_balance)
             Scenario.w1).1
    = store Scenario.w1.
Proof.
  assert (TripModel.code_in_use (TripModel.default_tripCode Scenario.uuid1)
            (trips (store Scenario.w1)) = true) as Hused by by vm_compute.
  split; [exact Hused|].
  apply (issue_code_collision_is_uncaught Scenario.clock Scenario.w1 8 Scenario.uuid1
           Scenario.two_by_balance 1 Scenario.fare_AB Scenario.user_V);
    [cbn; lia|by vm_compute|by vm_compute|by vm_compute|by vm_compute|exact Hused].
Defined.

Lemma scenario_ended_fares_unique : fares_unique (store Cases.w_ended).
Proof. by apply (singleton_fares_unique _ 1%N Cases.fare_ended). Defined.

Lemma in_between_quotes_an_ended_fare_witness :
  fares_unique (store Cases.w_ended)
  ∧ (500 < Scenario.clock (tick Cases.w_ended))%Z
  ∧ (run Scenario.clock (Routes.getFareInBetween (Some 1%N) (Some 2%N) None)
       Cases.w_ended).2
    = Returned (successResponse (1%N, Cases.fare_ended)
                  "Fare retrieved successfully" 200)
  ∧ (run Scenario.clock (Routes.getFareBetweenStations (Some 1%N) (Some 2%N) None)
       Cases.w_ended).2
    = Returned (errorResponse (Text "Fare not found for this route") 404)
  ∧ (run Scenario.clock (Routes.createTrip 7 Scenario.uuid1 Scenario.two_by_balance)
       Cases.w_ended).2
    = Returned (errorResponse (Text "Fare not found for this route") 404).
Proof.
  assert (500 < Scenario.clock (tick Cases.w_ended))%Z as Hpast by by vm_compute.
  split; [exact scenario_ended_fares_unique|]. split; [exact Hpast|].
  apply (in_between_quotes_an_ended_fare Scenario.clock Cases.w_ended 1 2
           Scenario.station_A Scenario.station_B 1 Cases.fare_ended 500 7
           Scenario.uuid1 Scenario.two_by_balance);
    [exact scenario_ended_fares_unique|reflexivity..|exact Hpast
    |reflexivity|reflexivity|cbn; lia].
Defined.

Lemma route_found_then_in_between_found_witness :
  (run Scenario.clock (Routes.getFareBetweenStations (Some 1%N) (Some 2%N) None)
     Scenario.w0).2
  = Returned (successResponse (1%N, Scenario.fare_AB)
                "Fare retrieved successfully" 200)
  ∧ ∃ row, (run Scenario.clock (Routes.getFareInBetween (Some 1%N) (Some 2%N) None)
              Scenario.w0).2
           = Returned (successResponse row "Fare retrieved successfully" 200)
           ∧ fares (store Scenario.w0) !! row.1 = Some row.2
           ∧ FareDocs.same_route row.2 Scenario.fare_AB
           ∧ Fare.isActive row.2 = true.
Proof.
  assert ((run Scenario.clock
             (Routes.getFareBetweenStations (Some 1%N) (Some 2%N) None)
             Scenario.w0).2
          = Returned (successResponse (1%N, Scenario.fare_AB)
                        "Fare retrieved successfully" 200)) as Hroute
    by by vm_compute.
  split; [exact Hroute|].
  apply (route_found_then_in_between_found Scenario.clock Scenario.w0 1 2
           Scenario.station_A Scenario.station_B None (1%N, Scenario.fare_AB));
    [reflexivity|reflexivity|exact Hroute].
Defined.

Lemma createFare_outcomes_witness :
  FareRoutes.fareValidation Cases.fare_BA_body = []
  ∧ (run Scenario.clock (FareRoutes.createFare Cases.fare_BA_body) Scenario.w0).2
    = Returned
        (successResponse
           (FareDocs.hydrate (fresh (dom (fares (store Scenario.w0))))
              (fare_of_body Cases.fare_BA_body (Scenario.clock 3)))
           "Fare created successfully" 201)
  ∧ (run Scenario.clock (FareRoutes.createFare Cases.fare_AB_body) Scenario.w0).2
    = Returned (errorResponse (Text "Fare already exists for this route and type") 400).
Proof.
  assert (FareRoutes.fareValidation Cases.fare_BA_body = []) as Hvalid
    by by vm_compute.
  split; [exact Hvalid|]. split.
  - apply (createFare_outcomes Scenario.clock Scenario.w0 Cases.fare_BA_body
             Scenario.station_B Scenario.station_A Hvalid);
      [reflexivity|reflexivity|].
    intros j g Hg. cbn in Hg. apply lookup_singleton_Some in Hg as [_ <-].
    by intros [[=] _].
  - apply (createFare_outcomes Scenario.clock Scenario.w0 Cases.fare_AB_body
             Scenario.station_A Scenario.station_B);
      [by vm_compute|reflexivity|reflexivity|].
    exists 1%N, Scenario.fare_AB. by split_and!.
Defined.

Lemma deleteFare_hides_the_route_witness :
  fares_unique (store Scenario.w0)
  ∧ fare_schema_valid Scenario.fare_AB
  ∧ store Cases.w_deleted
    = put_fare 1 (deactivated Scenario.fare_AB) (store Scenario.w0)
  ∧ answered_with 404
      (run Scenario.clock
         (Routes.getFareBetweenStations (Some 1%N) (Some 2%N) (Some regular))
         Cases.w_deleted).2
  ∧ answered_with 404
      (run Scenario.clock
         (Routes.getFareInBetween (Some 1%N) (Some 2%N) (Some regular))
         Cases.w_deleted).2
  ∧ store (run Scenario.clock (FareRoutes.deleteFare 1) Cases.w_deleted).1
    = store Cases.w_deleted.
Proof.
  split; [exact scenario_fares_unique|]. split; [exact scenario_fare_valid|].
  destruct (deleteFare_hides_the_route Scenario.clock Scenario.w0 1 Scenario.fare_AB
              Scenario.station_A Scenario.station_B scenario_fares_unique)
    as (_ & Hstore & Hroute & Hbetween & _ & Hagain);
    [reflexivity|exact scenario_fare_valid|reflexivity|reflexivity|].
  by split_and!.
Defined.

Lemma deleted_fare_cannot_be_recreated_witness :
  fares_unique (store Scenario.w0)
  ∧ FareRoutes.fareValidation Cases.fare_AB_body = []
  ∧ (run Scenario.clock (FareRoutes.createFare Cases.fare_AB_body) Cases.w_deleted).2
    = Uncaught (DuplicateKey "fromStation_1_toStation_1_fareType_1")
  ∧ store (run Scenario.clock (FareRoutes.createFare Cases.fare_AB_body)
             Cases.w_deleted).1
    = store Cases.w_deleted
  ∧ Fare.isActive
      <$> fares (store (run Scenario.clock (FareRoutes.createFare Cases.fare_AB_body)
                          Cases.w_deleted).1) !! 1%N
    = Some false.
Proof.
  assert (FareRoutes.fareValidation Cases.fare_AB_body = []) as Hvalid
    by by vm_compute.
  split; [exact scenario_fares_unique|]. split; [exact Hvalid|].
  apply (deleted_fare_cannot_be_recreated Scenario.clock Scenario.w0 1
           Scenario.fare_AB Cases.fare_AB_body Scenario.station_A Scenario.station_B
           scenario_fares_unique);
    [reflexivity|exact scenario_fare_valid|exact Hvalid|reflexivity..].
Defined.

Lemma updateFare_edits_three_fields_only_witness :
  fare_schema_valid Scenario.fare_AB
  ∧ FareRoutes.fareEditValidation Cases.raise_price = []
  ∧ fares (store (run Scenario.clock (FareRoutes.updateFare 1 Cases.raise_price)
                    Scenario.w0).1)
    = <[1%N := edited Cases.raise_price Scenario.fare_AB]> (fares (store Scenario.w0))
  ∧ run Scenario.clock (FareRoutes.updateFare 1 Cases.move_route) Scenario.w0
    = (Scenario.w0,
       Returned
         (errorResponse
            (Text ("Cannot edit the following fields: "
                   +:+ String.concat ", " (FareRoutes.invalidFields Cases.move_route)
                   +:+ ". Only fare, distance, and duration can be updated."))
            400)).
Proof.
  assert (FareRoutes.fareEditValidation Cases.raise_price = []) as Hvalid
    by by vm_compute.
  split; [exact scenario_fare_valid|]. split; [exact Hvalid|]. split.
  - destruct (updateFare_edits_three_fields_only Scenario.clock Scenario.w0 1
                Cases.raise_price Scenario.fare_AB) as [_ Hedit];
      [reflexivity|exact scenario_fare_valid|exact Hvalid|].
    by destruct (Hedit eq_refl) as (_ & Hfares & _).
  - destruct (updateFare_edits_three_fields_only Scenario.clock Scenario.w0 1
                Cases.move_route Scenario.fare_AB) as [Hrefused _];
      [reflexivity|exact scenario_fare_valid|by vm_compute|].
    apply Hrefused. by vm_compute.
Defined.

Lemma pagination_counts_pages_witness :
  (0 < 20)%Z ∧ (0 ≤ 45)%Z
  ∧ ∃ n, Paging.totalPages (Paging.pagination 2 20 45) = Some n
      ∧ ((n - 1) * 20 < 45 ≤ n * 20)%Z
      ∧ (Paging.hasNext (Paging.pagination 2 20 45) = true ↔ (2 < n)%Z)
      ∧ (Paging.hasPrev (Paging.pagination 2 20 45) = true ↔ (1 < 2)%Z)
      ∧ ∀ parsed fallback, fallback ≠ 0%Z →
          is_Some (Paging.totalPages
                     (Paging.pagination 2 (Paging.parse_or parsed fallback) 45)).
Proof.
  assert (0 < 20)%Z as Hlimit by lia. assert (0 ≤ 45)%Z as Htotal by lia.
  split; [exact Hlimit|]. split; [exact Htotal|].
  exact (pagination_counts_pages 2 20 45 Hlimit Htotal).
Defined.

Lemma statistics_counts_fit_together_witness :
  users (store Scenario.w2) !! 7%N = Some Cases.user_U_after
  ∧ ∃ s, (run Scenario.clock
            (ReadRoutes.getUserStatistics Cases.start_of_month 7) Scenario.w2).2
         = Returned (successResponse s "Statistics retrieved successfully" 200)
      ∧ store (run Scenario.clock
                 (ReadRoutes.getUserStatistics Cases.start_of_month 7) Scenario.w2).1
        = store Scenario.w2
      ∧ ReadRoutes.usedTrips s + ReadRoutes.unusedTrips s + ReadRoutes.expiredTrips s
        ≤ ReadRoutes.totalTrips s
      ∧ ReadRoutes.monthlyTrips s ≤ ReadRoutes.usedTrips s
      ∧ (ReadRoutes.monthlyTrips s = 0 → ReadRoutes.monthlyExpense s = Some (num 0))
      ∧ ReadRoutes.balance s = Some (User.balance Cases.user_U_after)
      ∧ ReadRoutes.totalExpense s = Some (User.totalExpense Cases.user_U_after)
      ∧ (statuses_live (store Scenario.w2) → ReadRoutes.expiredTrips s = 0).
Proof.
  assert (users (store Scenario.w2) !! 7%N = Some Cases.user_U_after) as Hu
    by by vm_compute.
  split; [exact Hu|].
  exact (statistics_counts_fit_together Scenario.clock Cases.start_of_month
           Scenario.w2 7 Cases.user_U_after Hu).
Defined.

Lemma completeJourney_can_be_repeated_witness :
  trips (store Scenario.w2) !! 0%N = Some Scenario.trip1_used
  ∧ Trip.status Scenario.trip1_used = used
  ∧ answered_with 200
      (run Scenario.clock (Routes.completeJourney 7 0)
         (run Scenario.clock (Routes.completeJourney 7 0) Scenario.w2).1).2
  ∧ trips (store (run Scenario.clock (Routes.completeJourney 7 0)
                    (run Scenario.clock (Routes.completeJourney 7 0) Scenario.w2).1).1)
      !! 0%N
    = Some (Trip.with_journey used (Trip.usedAt Scenario.trip1_used)
              (Trip.journeyStartTime Scenario.trip1_used)
              (Some (Scenario.clock (4 + tick Scenario.w2))) Scenario.trip1_used).
Proof.
  assert (trips (store Scenario.w2) !! 0%N = Some Scenario.trip1_used) as Ht
    by by vm_compute.
  split; [exact Ht|]. split; [reflexivity|].
  destruct (completeJourney_can_be_repeated Scenario.clock Scenario.w2 0
              Scenario.trip1_used Ht) as (_ & Hok & Hend);
    [reflexivity|by vm_compute|].
  split; [exact Hok|exact Hend].
Defined.

Lemma deposit_then_debit_restores_the_store_witness :
  User.balance Scenario.user_U = num 100
  ∧ (100 + 25 < 2 ^ 53)%Z
  ∧ User.balance
      <$> users (store (run Scenario.clock (ledger 7 (Deposit (num 25)))
                          Scenario.w0).1) !! 7%N
    = Some (num 125)
  ∧ store (run Scenario.clock (ledger 7 (Debit (num 25)))
             (run Scenario.clock (ledger 7 (Deposit (num 25))) Scenario.w0).1).1
    = store Scenario.w0.
Proof.
  assert (100 + 25 < 2 ^ 53)%Z as Hsum by by vm_compute.
  split; [reflexivity|]. split; [exact Hsum|].
  destruct (deposit_then_debit_restores_the_store Scenario.clock Scenario.w0 7
              Scenario.user_U 100 25) as (_ & _ & Hcredit & Hstore);
    [reflexivity|reflexivity|lia|lia|exact Hsum|].
  split; [exact Hcredit|exact Hstore].
Defined.

Lemma issue_all_or_nothing_witness :
  isFinite (User.balance Scenario.user_U) = true
  ∧ store (run Scenario.clock
             (Routes.createTrip 7 Scenario.uuid1 Scenario.four_by_balance) Scenario.w0).1
    = store Scenario.w0
  ∧ ∃ id t, trips (store Scenario.w0) !! id = None
      ∧ trips (store Scenario.w1) = <[id := t]> (trips (store Scenario.w0))
      ∧ Trip.user t = 7%N
      ∧ (Trip.paymentMethod t = by_balance →
         ∃ u b', users (store Scenario.w0) !! 7%N = Some u
           ∧ Js.sub (Some (User.balance u)) (Some (Trip.totalAmount t)) = Some b'
           ∧ users (store Scenario.w1)
             = <[7%N := User.with_ledger b' (User.totalTrips u)
                          (User.totalExpense u) u]>
                 (users (store Scenario.w0)))
      ∧ (Trip.paymentMethod t ≠ by_balance →
         users (store Scenario.w1) = users (store Scenario.w0)).
Proof.
  assert (∀ u, users (store Scenario.w0) !! 7%N = Some u
               → isFinite (User.balance u) = true) as Hfinite
    by (by intros u [= <-]).
  split; [reflexivity|]. split.
  - destruct (issue_all_or_nothing Scenario.clock Scenario.w0 7 Scenario.uuid1
                Scenario.four_by_balance Hfinite) as (Hrefused & _ & _).
    apply (Hrefused (errorResponse (Text "Insufficient balance") 400));
      by vm_compute.
  - destruct (issue_all_or_nothing Scenario.clock Scenario.w0 7 Scenario.uuid1
                Scenario.two_by_balance Hfinite) as (_ & _ & Hissued).
    apply (Hissued (successResponse (TripModel.hydrate 0 Scenario.trip1)
                      "Trip created successfully" 201)); by vm_compute.
Defined.

Lemma deposit_refusals_witness :
  run Scenario.clock (Routes.depositMoney 7 Cases.blank_transaction) Scenario.w0
  = (Scenario.w0,
     Returned
       (errorResponse (Text "Transaction ID is required for non-cash payments") 400))
  ∧ (run Scenario.clock (Routes.depositMoney 9 Scenario.deposit_100) Scenario.w0).2
    = Returned (errorResponse (Text "User not found") 404)
  ∧ store (run Scenario.clock (Routes.depositMoney 9 Scenario.deposit_100)
             Scenario.w0).1
    = store Scenario.w0.
Proof.
  split.
  - destruct (deposit_refusals Scenario.clock Scenario.w0 7 Cases.blank_transaction)
      as [Hblank _].
    eapply Hblank; [by vm_compute|reflexivity|by vm_compute].
  - destruct (deposit_refusals Scenario.clock Scenario.w0 9 Scenario.deposit_100)
      as [_ Hunknown].
    apply Hunknown; by vm_compute.
Defined.

Lemma getTripById_owner_or_admin_witness :
  answered_with 200
    (run Scenario.clock (ReadRoutes.getTripById 7 role_user 0) Scenario.w1).2
  ∧ answered_with 200
      (run Scenario.clock (ReadRoutes.getTripById 8 role_admin 0) Scenario.w1).2
  ∧ (run Scenario.clock (ReadRoutes.getTripById 8 role_user 0) Scenario.w1).2
    = Returned (errorResponse (Text "Not authorized") 403)
  ∧ (run Scenario.clock (ReadRoutes.getTripById 7 role_user 5) Scenario.w1).2
    = Returned (errorResponse (Text "Trip not found") 404).
Proof.
  assert (trips (store Scenario.w1) !! 0%N = Some Scenario.trip1) as Ht
    by by vm_compute.
  assert (is_Some (users (store Scenario.w1) !! Trip.user Scenario.trip1)) as Hu
    by (by eexists; vm_compute).
  split_and!.
  - destruct (getTripById_owner_or_admin Scenario.clock Scenario.w1 7 role_user 0)
      as (_ & _ & Hstored).
    destruct (Hstored Scenario.trip1 Ht) as [_ Hknown].
    destruct (Hknown Hu) as [Hok _]. apply Hok. by left.
  - destruct (getTripById_owner_or_admin Scenario.clock Scenario.w1 8 role_admin 0)
      as (_ & _ & Hstored).
    destruct (Hstored Scenario.trip1 Ht) as [_ Hknown].
    destruct (Hknown Hu) as [Hok _]. apply Hok. by right.
  - destruct (getTripById_owner_or_admin Scenario.clock Scenario.w1 8 role_user 0)
      as (_ & _ & Hstored).
    destruct (Hstored Scenario.trip1 Ht) as [_ Hknown].
    destruct (Hknown Hu) as [_ Hno]. by apply Hno.
  - destruct (getTripById_owner_or_admin Scenario.clock Scenario.w1 7 role_user 5)
      as (_ & Hmissing & _).
    apply Hmissing. by vm_compute.
Defined.
